(** * Figma asset extractor: the JSON preprocessing core and the image
      reference scans, embedded and verified.

    Sources embedded here:
    - [src/src/json_preprocessor.py]  (class [JSONPreprocessor])
    - [src/src/figma_extractor.py]    ([find_image_references_and_nodes],
                                       [sanitize_svg_filename],
                                       [_find_image_ref_for_node],
                                       [download_svg_icons],
                                       [download_svg_icons_from_preprocessed])
    - [src/enhanced_figma_extractor.py] ([_extract_image_references],
                                       [_get_vector_children],
                                       [find_groups_with_vectors],
                                       [find_individual_vectors],
                                       [_sanitize_filename])
    - [src/src/utils.py]              ([sanitize_filename])
    - [src/src/URLReplacer.py]        ([load_url_mapping],
                                       [_update_svg_downloads_section])

    The Python code works on the dictionaries that [json.load] returns for a
    Figma file.  The embedding types them by the Figma REST schema: a field is
    either absent ([None]) or holds a value of its schema type.  The keys of
    a node that no function reads by name stay with the node, in [n_other]:
    [find_image_references_and_nodes] walks every value of a dictionary and
    finds paint lists there.  Python
    dictionaries that the code builds are insertion-ordered association lists
    ([pydict]); Python sets are [gset string].  Log lines, the optional file
    output of [preprocess_figma_json] and the interpreter's recursion limit
    are left out; [datetime.now()] is an argument. *)

From Stdlib Require Import ZArith Ascii String.
From stdpp Require Import base option list strings gmap.

Local Open Scope string_scope.
Local Open Scope list_scope.

(** ** Python dictionaries keyed by strings, in insertion order *)

Module PyDict.

Abbreviation pydict V := (list (string * V)).

(** [d[k] = v]: an existing key keeps its position and takes the new value,
    a new key goes to the end. *)
Fixpoint dict_set {V : Type} (k : string) (v : V) (d : pydict V) : pydict V :=
  match d with
  | [] => [(k, v)]
  | (k', v') :: d' =>
      if String.eqb k' k then (k', v) :: d' else (k', v') :: dict_set k v d'
  end.

(** [d.get(k)] *)
Fixpoint dict_get {V : Type} (k : string) (d : pydict V) : option V :=
  match d with
  | [] => None
  | (k', v') :: d' => if String.eqb k' k then Some v' else dict_get k d'
  end.

(** [list(d.keys())] *)
Definition dict_keys {V : Type} (d : pydict V) : list string := d.*1.

(** [k in d] *)
Definition dict_mem {V : Type} (k : string) (d : pydict V) : bool :=
  match dict_get k d with Some _ => true | None => false end.

End PyDict.
Export PyDict.

(** ** Strings *)

Module PyStr.

(** [s.replace(':', '_')].  Figma ids are ASCII; on UTF-8 text no byte of a
    multi-byte character equals [":"], so the byte-wise replacement is the
    code-point-wise one. *)
Fixpoint replace_colon (s : string) : string :=
  match s with
  | EmptyString => EmptyString
  | String c rest =>
      String (if Ascii.eqb c ":"%char then "_"%char else c) (replace_colon rest)
  end.

(** [':' in s] *)
Fixpoint contains_colon (s : string) : bool :=
  match s with
  | EmptyString => false
  | String c rest => Ascii.eqb c ":"%char || contains_colon rest
  end.

(** ['_' in s] *)
Fixpoint contains_underscore (s : string) : bool :=
  match s with
  | EmptyString => false
  | String c rest => Ascii.eqb c "_"%char || contains_underscore rest
  end.

(** Truth value of a Python string: non-empty. *)
Definition truthy (s : string) : bool :=
  match s with EmptyString => false | _ => true end.

Definition is_digit (c : ascii) : bool :=
  let n := Ascii.nat_of_ascii c in (48 <=? n)%nat && (n <=? 57)%nat.

Fixpoint all_digits (s : string) : bool :=
  match s with
  | EmptyString => true
  | String c rest => is_digit c && all_digits rest
  end.

End PyStr.
Export PyStr.

(** ** The design tree *)

Module Figma.

(** [absoluteBoundingBox]; the numbers are carried through untouched. *)
Record rect := Rect { rx : Z; ry : Z; rwidth : Z; rheight : Z }.

(** A paint descriptor, an entry of [fills], [backgrounds] or the legacy
    [background] list.  Every entry is a JSON object, so the
    [isinstance(fill, dict)] tests of the source always succeed. *)
Record paint := Paint {
  paint_type : option string;
  paint_imageRef : option string }.

(** A value held by a node under a key other than those of [node] below:
    [style], [styleOverrideTable], [fillOverrideTable], [boundVariables],
    [exportSettings], ...  It is a dictionary, a list, or a string, number,
    boolean or null (kept as its JSON text).  By the schema a dictionary
    among these values is not a node and has no ['id'], but it may have
    paint lists of its own: a [TypeStyle] (the [style] of a TEXT node and
    every entry of its [styleOverrideTable]) and a [PaintOverride] (every
    entry of a [fillOverrideTable]) have [fills].  [JDict fills backgrounds
    entries] is such a dictionary: its ['fills'] and ['backgrounds'] keys,
    [None] when absent, and its other keys with their values. *)
#[warnings="-register-all"]
Inductive jvalue : Type :=
| JScalar (text : string)
| JList (items : list jvalue)
| JDict (fills : option (list paint)) (backgrounds : option (list paint))
        (entries : list (string * jvalue)).

(** A design node.  [None] means that the key is absent from the dictionary;
    [n_other] holds the keys that are not listed here, with their values. *)
#[warnings="-register-all"]
Inductive node : Type := Node {
  n_type : option string;
  n_id : option string;
  n_name : option string;
  n_fills : option (list paint);
  n_backgrounds : option (list paint);
  n_background : option (list paint);
  n_isMask : option bool;
  n_absoluteBoundingBox : option rect;
  n_children : option (list node);
  n_other : list (string * jvalue) }.

(** [_metadata.preprocessing.statistics] and [JSONPreprocessor.stats] *)
Record stats := Stats {
  total_nodes_scanned : nat;
  groups_analyzed : nat;
  vector_children_found : nat;
  individual_vectors_found : nat;
  text_nodes_filtered : nat;
  image_shapes_filtered : nat;
  empty_groups_skipped : nat;
  total_vector_exports : nat }.

(** An entry of [individual_vector_children] or [standalone_vectors].  The
    two parent fields are [None] when the dictionary has no such key, as in
    every entry of [standalone_vectors]. *)
Record vector_record := VectorRecord {
  vr_id : string;
  vr_name : string;
  vr_type : string;
  vr_path : string;
  vr_bounds : option rect;
  vr_parent_group_id : option string;
  vr_parent_group_name : option string;
  vr_extraction_reason : string }.

(** An entry of [_svgDownloads]. *)
Record svg_download := SvgDownload {
  sd_node_id : string;
  sd_type : string;
  sd_is_group : bool;
  sd_component_name : string;
  sd_path : string;
  sd_filename : string;
  sd_extraction_reason : string;
  sd_parent_group_id : option string;
  sd_parent_group_name : option string;
  sd_bounds : option rect }.

(** An entry of [_svgMapping]. *)
Record svg_mapping := SvgMapping {
  sm_filename : string;
  sm_is_group : bool;
  sm_component_name : string }.

(** [_metadata.preprocessing.filtering_criteria] *)
Record filtering_criteria := FilteringCriteria {
  vector_types_included : list string;
  content_excluded : list string;
  fill_types_required : list string;
  extraction_strategy : string }.

(** [_metadata.preprocessing] *)
Record preprocessing_info := PreprocessingInfo {
  processed_at : string;
  preprocessing_version : string;
  approach : string;
  statistics : stats;
  criteria : filtering_criteria }.

(** The [_metadata] dictionary: the two keys the preprocessor writes, and
    whatever else a caller put there (each value as its JSON text; the
    code carries these along and never looks inside). *)
Record metadata := Metadata {
  md_preprocessing : option preprocessing_info;
  md_preprocessing_applied : option bool;
  md_other : list (string * string) }.

(** Addresses of the mutable dictionaries of the object store. *)
Definition loc := nat.

(** The top-level dictionary of a file.  [_metadata] is a dictionary of its
    own, held by reference; [fd_other] holds the remaining keys ([name],
    [lastModified], ...), each value as its JSON text. *)
Record figma_file := FigmaFile {
  fd_document : option node;
  fd_svgDownloads : option (pydict svg_download);
  fd_svgMapping : option (pydict svg_mapping);
  fd_metadata : option loc;
  fd_other : list (string * string) }.

End Figma.
Export Figma.

(** ** [JSONPreprocessor] (src/src/json_preprocessor.py) *)

Module JSONPreprocessor.

(** The object state: [self.stats], [self.individual_vector_children] and
    [self.standalone_vectors]. *)
Record preprocessor := Preprocessor {
  self_stats : stats;
  individual_vector_children : pydict vector_record;
  standalone_vectors : pydict vector_record }.

(** [__init__] *)
Definition zero_stats : stats := Stats 0 0 0 0 0 0 0 0.
Definition init : preprocessor := Preprocessor zero_stats [] [].

(** [self.stats[key] += 1], one definition per key the code increments. *)
Definition incr_total_nodes_scanned (s : stats) : stats :=
  Stats (S (total_nodes_scanned s)) (groups_analyzed s) (vector_children_found s)
    (individual_vectors_found s) (text_nodes_filtered s) (image_shapes_filtered s)
    (empty_groups_skipped s) (total_vector_exports s).
Definition incr_groups_analyzed (s : stats) : stats :=
  Stats (total_nodes_scanned s) (S (groups_analyzed s)) (vector_children_found s)
    (individual_vectors_found s) (text_nodes_filtered s) (image_shapes_filtered s)
    (empty_groups_skipped s) (total_vector_exports s).
Definition incr_vector_children_found (s : stats) : stats :=
  Stats (total_nodes_scanned s) (groups_analyzed s) (S (vector_children_found s))
    (individual_vectors_found s) (text_nodes_filtered s) (image_shapes_filtered s)
    (empty_groups_skipped s) (total_vector_exports s).
Definition incr_individual_vectors_found (s : stats) : stats :=
  Stats (total_nodes_scanned s) (groups_analyzed s) (vector_children_found s)
    (S (individual_vectors_found s)) (text_nodes_filtered s) (image_shapes_filtered s)
    (empty_groups_skipped s) (total_vector_exports s).
Definition incr_text_nodes_filtered (s : stats) : stats :=
  Stats (total_nodes_scanned s) (groups_analyzed s) (vector_children_found s)
    (individual_vectors_found s) (S (text_nodes_filtered s)) (image_shapes_filtered s)
    (empty_groups_skipped s) (total_vector_exports s).
Definition incr_image_shapes_filtered (s : stats) : stats :=
  Stats (total_nodes_scanned s) (groups_analyzed s) (vector_children_found s)
    (individual_vectors_found s) (text_nodes_filtered s) (S (image_shapes_filtered s))
    (empty_groups_skipped s) (total_vector_exports s).
Definition incr_empty_groups_skipped (s : stats) : stats :=
  Stats (total_nodes_scanned s) (groups_analyzed s) (vector_children_found s)
    (individual_vectors_found s) (text_nodes_filtered s) (image_shapes_filtered s)
    (S (empty_groups_skipped s)) (total_vector_exports s).
Definition set_total_vector_exports (n : nat) (s : stats) : stats :=
  Stats (total_nodes_scanned s) (groups_analyzed s) (vector_children_found s)
    (individual_vectors_found s) (text_nodes_filtered s) (image_shapes_filtered s)
    (empty_groups_skipped s) n.

Definition with_stats (f : stats → stats) (self : preprocessor) : preprocessor :=
  Preprocessor (f (self_stats self)) (individual_vector_children self)
    (standalone_vectors self).

(** [_reset_stats] *)
Definition _reset_stats (self : preprocessor) : preprocessor :=
  Preprocessor zero_stats [] [].

(** [node.get('type', '')], [node.get('id', '')], [node.get('name', 'Unnamed')],
    [node.get('isMask', False)] and [node.get('absoluteBoundingBox', {})]
    (the empty dictionary is [None]) *)
Definition get_type (n : node) : string := default "" (n_type n).
Definition get_id (n : node) : string := default "" (n_id n).
Definition get_name (n : node) : string := default "Unnamed" (n_name n).
Definition get_isMask (n : node) : bool := default false (n_isMask n).
Definition get_bounds (n : node) : option rect := n_absoluteBoundingBox n.

(** The loop of [_has_solid_fills]: the first SOLID entry returns [True]. *)
Fixpoint any_solid (fills : list paint) : bool :=
  match fills with
  | [] => false
  | fill :: rest =>
      match paint_type fill with
      | Some t => if t =? "SOLID" then true else any_solid rest
      | None => any_solid rest
      end
  end.

(** [_has_solid_fills]: [fills = node.get('fills', [])] *)
Definition _has_solid_fills (n : node) : bool :=
  any_solid (default [] (n_fills n)).

(** [_is_pure_vector] *)
Definition _is_pure_vector (n : node) : bool :=
  let node_type := get_type n in
  if negb (node_type =? "VECTOR") then false
  else if negb (_has_solid_fills n) then false
  else if get_isMask n then false
  else true.

(** What [examine_child] appends to [vector_children]. *)
Record vector_descriptor := VectorDescriptor {
  vd_id : string;
  vd_name : string;
  vd_type : string;
  vd_bounds : option rect }.

(** The variables [examine_child] writes: the two lists of the enclosing
    [_analyze_group_content] call and [self.stats]. *)
Record scan := Scan {
  vector_children : list vector_descriptor;
  non_vector_children : list string;
  scan_stats : stats }.

(** The filtering rules of [examine_child]: its body between the depth
    test and the loop over the grandchildren. *)
Definition examine_child_rules (child : node) (acc : scan) : scan :=
  let child_type := get_type child in
  let child_id := get_id child in
  let child_name := default "Vector" (n_name child) in
  if (child_type =? "VECTOR") && _has_solid_fills child
     && negb (get_isMask child) then
    Scan (vector_children acc ++
            [VectorDescriptor child_id child_name child_type (get_bounds child)])
         (non_vector_children acc) (scan_stats acc)
  else if child_type =? "TEXT" then
    Scan (vector_children acc) (non_vector_children acc ++ ["TEXT"])
         (incr_text_nodes_filtered (scan_stats acc))
  else if (child_type =? "RECTANGLE") || (child_type =? "ELLIPSE") then
    Scan (vector_children acc) (non_vector_children acc ++ ["SHAPE"])
         (incr_image_shapes_filtered (scan_stats acc))
  else if get_isMask child then
    Scan (vector_children acc) (non_vector_children acc ++ ["MASK"])
         (incr_image_shapes_filtered (scan_stats acc))
  else
    Scan (vector_children acc) (non_vector_children acc ++ [child_type])
         (scan_stats acc).

(** [examine_child] of [_analyze_group_content] *)
Fixpoint examine_child (child : node) (depth : nat) (acc : scan) {struct child}
  : scan :=
  if (5 <? depth)%nat then acc
  else
    let acc := examine_child_rules child acc in
    match n_children child with
    | Some grandchildren =>
        foldl (λ a grandchild, examine_child grandchild (S depth) a)
              acc grandchildren
    | None => acc
    end.

(** The dictionary [_analyze_group_content] returns.  [filtered_content]
    joins a Python set, whose order the language leaves open; the model keeps
    the set ([∅] where the code writes ['none']). *)
Record group_analysis := GroupAnalysis {
  ga_vector_children : list vector_descriptor;
  ga_filtered_content : gset string;
  ga_vector_count : nat }.

(** [_analyze_group_content]; the second component is [self.stats] after
    the call. *)
Definition _analyze_group_content (s : stats) (group_node : node) (path : string)
  : group_analysis * stats :=
  let r := foldl (λ a child, examine_child child 0 a) (Scan [] [] s)
                 (default [] (n_children group_node)) in
  (GroupAnalysis (vector_children r) (list_to_set (non_vector_children r))
                 (length (vector_children r)),
   scan_stats r).

(** [f"{path}/{node_name}" if path else node_name] *)
Definition join_path (path name : string) : string :=
  if truthy path then path +:+ "/" +:+ name else name.

(** Body of the loop over [group_analysis['vector_children']] in
    [analyze_node]. *)
Definition store_vector_child (node_id node_name current_path : string)
    (self : preprocessor) (vector_child : vector_descriptor) : preprocessor :=
  let child_id := vd_id vector_child in
  let child_name := vd_name vector_child in
  Preprocessor
    (incr_vector_children_found (self_stats self))
    (dict_set child_id
       (VectorRecord child_id child_name (vd_type vector_child)
          (current_path +:+ "/" +:+ child_name) (vd_bounds vector_child)
          (Some node_id) (Some node_name) "VECTOR_CHILD_FROM_GROUP")
       (individual_vector_children self))
    (standalone_vectors self).

(** [node_type in ['FRAME', 'COMPONENT', 'INSTANCE']] *)
Definition is_container_type (node_type : string) : bool :=
  (node_type =? "FRAME") || (node_type =? "COMPONENT") || (node_type =? "INSTANCE").

(** [analyze_node] of [_analyze_groups_for_individual_children];
    [parent_group] is [None] or the [{'id': .., 'name': ..}] dictionary. *)
Fixpoint analyze_node (n : node) (path : string)
    (parent_group : option (string * string)) (self : preprocessor)
    {struct n} : preprocessor :=
  let self := with_stats incr_total_nodes_scanned self in
  let node_type := get_type n in
  let node_id := get_id n in
  let node_name := get_name n in
  let current_path := join_path path node_name in
  if node_type =? "GROUP" then
    let self := with_stats incr_groups_analyzed self in
    let '(group_analysis, s) :=
      _analyze_group_content (self_stats self) n current_path in
    let self := with_stats (λ _, s) self in
    match ga_vector_children group_analysis with
    | _ :: _ =>
        foldl (store_vector_child node_id node_name current_path) self
              (ga_vector_children group_analysis)
    | [] => with_stats incr_empty_groups_skipped self
    end
  else
    let self :=
      if _is_pure_vector n && bool_decide (parent_group = None) then
        Preprocessor
          (incr_individual_vectors_found (self_stats self))
          (individual_vector_children self)
          (dict_set node_id
             (VectorRecord node_id node_name node_type current_path
                (get_bounds n) None None "STANDALONE_VECTOR")
             (standalone_vectors self))
      else self in
    match n_children n with
    | Some children =>
        let current_group :=
          if is_container_type node_type then Some (node_id, node_name)
          else parent_group in
        foldl (λ st child, analyze_node child current_path current_group st)
              self children
    | None => self
    end.

(** [_analyze_groups_for_individual_children] *)
Definition _analyze_groups_for_individual_children (self : preprocessor)
    (figma_data : figma_file) : preprocessor :=
  let self :=
    match fd_document figma_data with
    | Some document =>
        foldl (λ st page, analyze_node page "" None st) self
              (default [] (n_children document))
    | None => self
    end in
  with_stats
    (set_total_vector_exports
       (length (individual_vector_children self) + length (standalone_vectors self)))
    self.

(** [_generate_filename] *)
Definition _generate_filename (node_id : string) : string :=
  replace_colon node_id +:+ ".svg".

(** *** The object store

    [preprocess_figma_json] receives its input by reference and returns a
    new dictionary.  The dictionaries the code assigns into are the top-level
    dictionary of a file and its [_metadata] dictionary; these live in a store
    and are named by their address, so that a write through one reference is
    seen through every alias.  The design tree below [document] is never
    assigned into and stays a value. *)

Inductive pyobj : Type :=
  | ObjFile (f : figma_file)
  | ObjMeta (m : metadata).

Abbreviation heap := (list pyobj).

(** A new dictionary object; its address is the next free one. *)
Definition alloc (o : pyobj) (h : heap) : loc * heap := (length h, h ++ [o]).

Definition read_file (l : loc) (h : heap) : option figma_file :=
  match h !! l with Some (ObjFile f) => Some f | _ => None end.

Definition read_meta (l : loc) (h : heap) : option metadata :=
  match h !! l with Some (ObjMeta m) => Some m | _ => None end.

Definition set_metadata (ml : option loc) (f : figma_file) : figma_file :=
  FigmaFile (fd_document f) (fd_svgDownloads f) (fd_svgMapping f) ml (fd_other f).

Definition set_svgDownloads (d : pydict svg_download) (f : figma_file) : figma_file :=
  FigmaFile (fd_document f) (Some d) (fd_svgMapping f) (fd_metadata f) (fd_other f).

Definition set_svgMapping (m : pydict svg_mapping) (f : figma_file) : figma_file :=
  FigmaFile (fd_document f) (fd_svgDownloads f) (Some m) (fd_metadata f) (fd_other f).

(** [json.loads(json.dumps(original_data))]: every dictionary reachable from
    the argument is rebuilt as a new object.  [None] stands for an address
    that holds no dictionary of the expected kind, which no Python reference
    does. *)
Definition deep_copy (original_data : loc) (h : heap) : option (loc * heap) :=
  f ← read_file original_data h;
  match fd_metadata f with
  | None => Some (alloc (ObjFile f) h)
  | Some ml =>
      m ← read_meta ml h;
      let '(ml', h) := alloc (ObjMeta m) h in
      Some (alloc (ObjFile (set_metadata (Some ml') f)) h)
  end.

(** The [_svgDownloads] entry of a vector child and of a standalone vector.
    [child_data.get('parent_group_id')] is the stored field. *)
Definition child_download (child_id : string) (child_data : vector_record)
  : svg_download :=
  SvgDownload child_id "VECTOR" false (vr_name child_data) (vr_path child_data)
    (_generate_filename child_id) (vr_extraction_reason child_data)
    (vr_parent_group_id child_data) (vr_parent_group_name child_data)
    (vr_bounds child_data).

Definition standalone_download (vector_id : string) (vector_data : vector_record)
  : svg_download :=
  SvgDownload vector_id "VECTOR" false (vr_name vector_data) (vr_path vector_data)
    (_generate_filename vector_id) (vr_extraction_reason vector_data)
    None None (vr_bounds vector_data).

(** The two loops of [_generate_child_based_json] that fill
    [child_based_svg_downloads]. *)
Definition child_based_svg_downloads (self : preprocessor) : pydict svg_download :=
  let d :=
    foldl (λ d kv, dict_set kv.1 (child_download kv.1 kv.2) d) []
          (individual_vector_children self) in
  foldl (λ d kv, dict_set kv.1 (standalone_download kv.1 kv.2) d) d
        (standalone_vectors self).

(** The loop of [_generate_child_based_json] that fills [svg_mapping]. *)
Definition svg_mapping_of (downloads : pydict svg_download) : pydict svg_mapping :=
  foldl (λ m kv,
           let safe_node_id := replace_colon kv.1 in
           dict_set safe_node_id
             (SvgMapping (sd_filename kv.2) false (sd_component_name kv.2)) m)
        [] downloads.

(** [_generate_child_based_json]: returns the address of [optimized_data]. *)
Definition _generate_child_based_json (self : preprocessor) (original_data : loc)
    (h : heap) : option (loc * heap) :=
  '(optimized_data, h) ← deep_copy original_data h;
  f ← read_file optimized_data h;
  let downloads := child_based_svg_downloads self in
  let f := set_svgDownloads downloads f in
  let f := set_svgMapping (svg_mapping_of downloads) f in
  Some (optimized_data, <[optimized_data := ObjFile f]> h).

Definition the_filtering_criteria : filtering_criteria :=
  FilteringCriteria ["VECTOR"] ["TEXT"; "SHAPES"; "MASKS"] ["SOLID"]
    "individual_vector_children".

(** [_add_preprocessing_metadata]; [now] is what
    [datetime.now().isoformat()] returns at the call. *)
Definition _add_preprocessing_metadata (self : preprocessor) (optimized_data : loc)
    (now : string) (h : heap) : option heap :=
  f ← read_file optimized_data h;
  '(ml, h) ← match fd_metadata f with
             | Some ml => Some (ml, h)
             | None =>
                 let '(ml, h) := alloc (ObjMeta (Metadata None None [])) h in
                 Some (ml, <[optimized_data := ObjFile (set_metadata (Some ml) f)]> h)
             end;
  m ← read_meta ml h;
  let m :=
    Metadata
      (Some (PreprocessingInfo now "3.0_child_based_extraction_fixed"
               "child_based_individual_extraction" (self_stats self)
               the_filtering_criteria))
      (md_preprocessing_applied m) (md_other m) in
  let m := Metadata (md_preprocessing m) (Some true) (md_other m) in
  Some (<[ml := ObjMeta m]> h).

(** [preprocess_figma_json] with [output_path = None]: the result address,
    the object state and the store after the call.  Writing the result to
    [output_path] and the log lines touch neither. *)
Definition preprocess_figma_json (self : preprocessor) (raw_figma_data : loc)
    (now : string) (h : heap) : option (loc * preprocessor * heap) :=
  let self := _reset_stats self in
  figma_data ← read_file raw_figma_data h;
  let self := _analyze_groups_for_individual_children self figma_data in
  '(optimized_data, h) ← _generate_child_based_json self raw_figma_data h;
  h ← _add_preprocessing_metadata self optimized_data now h;
  Some (optimized_data, self, h).

End JSONPreprocessor.
Export JSONPreprocessor.

(** ** [FigmaExtractor] (src/src/figma_extractor.py) *)

Module FigmaExtractor.

(** The two sets [find_image_references_and_nodes] fills. *)
Record image_scan := ImageScan {
  image_refs : gset string;
  image_nodes : gset string }.

(** The loop over [obj['fills']] (and over [obj['backgrounds']]):
    [fill.get('type') == 'IMAGE' and 'imageRef' in fill]. *)
Definition scan_paints (current_node_id : option string) (paints : list paint)
    (acc : image_scan) : image_scan :=
  foldl (λ acc fill,
           match paint_type fill, paint_imageRef fill with
           | Some t, Some r =>
               if t =? "IMAGE" then
                 ImageScan ({[r]} ∪ image_refs acc)
                   (match current_node_id with
                    | Some i => if truthy i then {[i]} ∪ image_nodes acc
                                else image_nodes acc
                    | None => image_nodes acc
                    end)
               else acc
           | _, _ => acc
           end)
        acc paints.

(** [traverse] on a value that is not a node.  On a dictionary: it has no
    ['id'], so [current_node_id] stays what it is; its ['fills'] and
    ['backgrounds'] are read; then [for value in obj.values()] traverses
    every value.  On a list: every item.  On anything else: nothing.  (A
    paint descriptor has no ['id'], ['fills'] or ['backgrounds'] and no
    dictionary with one below it, so the walk through the values of the two
    paint lists adds nothing.) *)
Fixpoint traverse_value (obj : jvalue) (current_node_id : option string)
    (acc : image_scan) {struct obj} : image_scan :=
  match obj with
  | JDict fills backgrounds entries =>
      let acc := match fills with
                 | Some fills => scan_paints current_node_id fills acc
                 | None => acc
                 end in
      let acc := match backgrounds with
                 | Some bgs => scan_paints current_node_id bgs acc
                 | None => acc
                 end in
      foldl (λ a entry, traverse_value entry.2 current_node_id a) acc entries
  | JList items =>
      foldl (λ a item, traverse_value item current_node_id a) acc items
  | JScalar _ => acc
  end.

(** [traverse] on a node dictionary.  [for value in obj.values()] walks every
    value of the node: the list of children, each one a node, and the values
    of all the other keys ([n_other]), whose dictionaries are read for
    ['fills'] and ['backgrounds'] with the id of the node around them.  The
    values of [type], [name], [isMask] and [absoluteBoundingBox] and the
    paint lists hold no dictionary with an ['id'], ['fills'] or
    ['backgrounds'].  The result is a pair of sets, so the order in which
    the keys are walked does not show in it. *)
Fixpoint traverse (obj : node) (current_node_id : option string)
    (acc : image_scan) {struct obj} : image_scan :=
  let current_node_id :=
    match n_id obj with
    | Some i => if contains_colon i then Some i else current_node_id
    | None => current_node_id
    end in
  let acc := match n_fills obj with
             | Some fills => scan_paints current_node_id fills acc
             | None => acc
             end in
  let acc := match n_backgrounds obj with
             | Some bgs => scan_paints current_node_id bgs acc
             | None => acc
             end in
  let acc := match n_children obj with
             | Some children =>
                 foldl (λ a item, traverse item current_node_id a) acc children
             | None => acc
             end in
  foldl (λ a entry, traverse_value entry.2 current_node_id a) acc (n_other obj).

(** [find_image_references_and_nodes]: [traverse(data)] on the top-level
    dictionary, which has no ['id'], ['fills'] or ['backgrounds'].  Of its
    values [document] is the design tree; the others ([name], [components],
    [styles], [_svgDownloads], [_metadata], ...) hold no paint list. *)
Definition find_image_references_and_nodes (data : figma_file) : image_scan :=
  match fd_document data with
  | Some document => traverse document None (ImageScan ∅ ∅)
  | None => ImageScan ∅ ∅
  end.

(** [sanitize_svg_filename] *)
Definition sanitize_svg_filename (node_id : string) (name : string) : string :=
  let safe_id := replace_colon node_id in
  safe_id +:+ ".svg".

End FigmaExtractor.
Export FigmaExtractor.

(** ** [EnhancedFigmaExtractor] (src/enhanced_figma_extractor.py) *)

Module EnhancedFigmaExtractor.

(** One of the three loops of [traverse_node]:
    [fill.get('type') == 'IMAGE'], then [image_ref = fill.get('imageRef')]
    and [if image_ref]. *)
Definition collect_refs (paints : list paint) (refs : gset string) : gset string :=
  foldl (λ refs fill,
           match paint_type fill with
           | Some t =>
               if t =? "IMAGE" then
                 match paint_imageRef fill with
                 | Some image_ref =>
                     if truthy image_ref then {[image_ref]} ∪ refs else refs
                 | None => refs
                 end
               else refs
           | None => refs
           end)
        refs paints.

(** [traverse_node] of [_extract_image_references] *)
Fixpoint traverse_node (n : node) (refs : gset string) {struct n} : gset string :=
  let refs := match n_fills n with
              | Some fills => collect_refs fills refs
              | None => refs
              end in
  let refs := match n_backgrounds n with
              | Some bgs => collect_refs bgs refs
              | None => refs
              end in
  let refs := match n_background n with
              | Some bgs => collect_refs bgs refs
              | None => refs
              end in
  match n_children n with
  | Some children => foldl (λ r child, traverse_node child r) refs children
  | None => refs
  end.

(** The empty dictionary [{}]. *)
Definition empty_node : node :=
  Node None None None None None None None None None [].

(** [_extract_image_references]: [document = file_data.get('document', {})] *)
Definition _extract_image_references (file_data : figma_file) : gset string :=
  let document := default empty_node (fd_document file_data) in
  traverse_node document ∅.

End EnhancedFigmaExtractor.
Export EnhancedFigmaExtractor.

(** ** The traversals as lists

    What the two recursive walks of the preprocessor visit, in the order in
    which they visit it.  These definitions are not in the source; the lemmas
    below tie them to [examine_child] and [analyze_node]. *)

Module Traversal.

(** All nodes of a tree, in pre-order. *)
Fixpoint subtree (n : node) : list node :=
  n :: match n_children n with
       | Some children => children ≫= subtree
       | None => []
       end.

(** The pages of a file: the children of its [document]. *)
Definition file_pages (data : figma_file) : list node :=
  match fd_document data with
  | Some document => default [] (n_children document)
  | None => []
  end.

(** All nodes below the document root. *)
Definition file_nodes (data : figma_file) : list node :=
  file_pages data ≫= subtree.

(** The nodes to which [examine_child child depth] applies its rules. *)
Fixpoint scanned (child : node) (depth : nat) : list node :=
  if (5 <? depth)%nat then []
  else child :: match n_children child with
                | Some grandchildren =>
                    grandchildren ≫= (λ gc, scanned gc (S depth))
                | None => []
                end.

(** The nodes one [_analyze_group_content] call examines. *)
Definition group_scanned (g : node) : list node :=
  default [] (n_children g) ≫= (λ c, scanned c 0).

Definition descriptor_of (child : node) : vector_descriptor :=
  VectorDescriptor (get_id child) (default "Vector" (n_name child))
    (get_type child) (get_bounds child).

(** The entry [analyze_node] stores for a vector child of a group. *)
Definition child_entry (g : node) (current_path : string) (vc : vector_descriptor)
  : string * vector_record :=
  (vd_id vc,
   VectorRecord (vd_id vc) (vd_name vc) (vd_type vc)
     (current_path +:+ "/" +:+ vd_name vc) (vd_bounds vc)
     (Some (get_id g)) (Some (get_name g)) "VECTOR_CHILD_FROM_GROUP").

(** The entry [analyze_node] stores for a standalone vector. *)
Definition standalone_entry (n : node) (current_path : string)
  : string * vector_record :=
  (get_id n,
   VectorRecord (get_id n) (get_name n) (get_type n) current_path
     (get_bounds n) None None "STANDALONE_VECTOR").

(** One call of [analyze_node]: the node, the [path] and the [parent_group]
    argument. *)
Abbreviation call := (node * string * option (string * string))%type.

Definition child_group (n : node) (parent_group : option (string * string))
  : option (string * string) :=
  if is_container_type (get_type n) then Some (get_id n, get_name n)
  else parent_group.

(** The calls of [analyze_node] that one call makes, itself included. *)
Fixpoint calls (n : node) (path : string) (parent_group : option (string * string))
  : list call :=
  (n, path, parent_group) ::
  if get_type n =? "GROUP" then []
  else match n_children n with
       | Some children =>
           children ≫= (λ c, calls c (join_path path (get_name n))
                                    (child_group n parent_group))
       | None => []
       end.

Definition file_calls (data : figma_file) : list call :=
  file_pages data ≫= (λ page, calls page "" None).

(** The entries one call writes into [individual_vector_children] ... *)
Definition claimed_by (c : call) : list (string * vector_record) :=
  let '(n, path, _) := c in
  if get_type n =? "GROUP" then
    child_entry n (join_path path (get_name n)) <$>
      (descriptor_of <$> filter (λ x, _is_pure_vector x = true) (group_scanned n))
  else [].

(** ... and into [standalone_vectors]. *)
Definition standalone_by (c : call) : list (string * vector_record) :=
  let '(n, path, parent_group) := c in
  if get_type n =? "GROUP" then []
  else if _is_pure_vector n && bool_decide (parent_group = None)
       then [standalone_entry n (join_path path (get_name n))]
       else [].

(** [d.update(entries)], entry by entry. *)
Definition dict_update {V : Type} (d : pydict V) (entries : list (string * V))
  : pydict V :=
  foldl (λ d kv, dict_set kv.1 kv.2 d) d entries.

(** The analysis a run performs on the file [data]. *)
Definition analysis (data : figma_file) : preprocessor :=
  _analyze_groups_for_individual_children (_reset_stats init) data.

End Traversal.
Export Traversal.

(** ** Runs on the object store *)

Module Runs.

(** The references of a run are sound: [raw] holds a file dictionary and
    its [_metadata], when present, a metadata dictionary. *)
Definition valid_input (raw : loc) (h : heap) (data : figma_file) : Prop :=
  read_file raw h = Some data ∧
  ∀ ml, fd_metadata data = Some ml → is_Some (read_meta ml h).

(** A run returns a dictionary whose content is [out], leaving the object
    in state [self']. *)
Definition run_produces (self : preprocessor) (raw : loc) (now : string)
    (h : heap) (self' : preprocessor) (out : figma_file) : Prop :=
  ∃ opt h', preprocess_figma_json self raw now h = Some (opt, self', h') ∧
            read_file opt h' = Some out.

(** The [_metadata] of the input as the run finds it: the empty dictionary
    when the key is absent. *)
Definition original_meta (h : heap) (data : figma_file) : metadata :=
  match fd_metadata data with
  | Some ml => default (Metadata None None []) (read_meta ml h)
  | None => Metadata None None []
  end.

(** [_metadata] with the ['preprocessing'] and ['preprocessing_applied']
    keys of a run at time [now] with statistics [s]. *)
Definition stamped (now : string) (s : stats) (m : metadata) : metadata :=
  Metadata
    (Some (PreprocessingInfo now "3.0_child_based_extraction_fixed"
             "child_based_individual_extraction" s the_filtering_criteria))
    (Some true) (md_other m).

(** The content of the dictionary a run returns, [_metadata] included by
    value: what [json.dumps] would print. *)
Definition snapshot (l : loc) (h : heap) : option (figma_file * option metadata) :=
  f ← read_file l h;
  match fd_metadata f with
  | Some ml => m ← read_meta ml h; Some (set_metadata None f, Some m)
  | None => Some (f, None)
  end.

End Runs.
Export Runs.

(** ** The image scans as lists *)

Module ImageScans.

(** The current node id after [traverse] has looked at the ['id'] of [obj]. *)
Definition current_id (obj : node) (current_node_id : option string)
  : option string :=
  match n_id obj with
  | Some i => if contains_colon i then Some i else current_node_id
  | None => current_node_id
  end.

(** The calls of [traverse] on node dictionaries, each with the current
    node id it works with. *)
Fixpoint traversed (obj : node) (current_node_id : option string)
  : list (node * option string) :=
  (obj, current_id obj current_node_id) ::
  match n_children obj with
  | Some children =>
      children ≫= (λ c, traversed c (current_id obj current_node_id))
  | None => []
  end.

(** The nodes of a file, the document root included. *)
Definition document_nodes (data : figma_file) : list node :=
  match fd_document data with Some document => subtree document | None => [] end.

Definition document_traversed (data : figma_file) : list (node * option string) :=
  match fd_document data with
  | Some document => traversed document None
  | None => []
  end.

(** The [fills] and [backgrounds] of a node, and the three paint lists
    [_extract_image_references] reads. *)
Definition fills_and_backgrounds (n : node) : list paint :=
  default [] (n_fills n) ++ default [] (n_backgrounds n).

Definition all_paint_lists (n : node) : list paint :=
  default [] (n_fills n) ++ default [] (n_backgrounds n)
  ++ default [] (n_background n).

(** The [fills] and [backgrounds] of every dictionary inside a value that
    is not a node. *)
Fixpoint value_paints (v : jvalue) : list paint :=
  match v with
  | JDict fills backgrounds entries =>
      default [] fills ++ default [] backgrounds
      ++ (entries ≫= (λ entry, value_paints entry.2))
  | JList items => items ≫= value_paints
  | JScalar _ => []
  end.

(** The paints inside the values a node holds under its other keys (the
    entries of a [styleOverrideTable], say). *)
Definition other_paints (n : node) : list paint :=
  n_other n ≫= (λ entry, value_paints entry.2).

(** The paints [find_image_references_and_nodes] reads between entering a
    node and entering its children: its [fills] and [backgrounds], and
    those of the dictionaries under its other keys. *)
Definition paints_read (n : node) : list paint :=
  fills_and_backgrounds n ++ other_paints n.

End ImageScans.
Export ImageScans.

(** ** Identifiers and fills *)

Module Ids.

(** Ids of the native format ["<major>:<minor>"], both parts decimal. *)
Definition native_id_format (s : string) : Prop :=
  ∃ major minor, s = major +:+ ":" +:+ minor ∧
                 all_digits major = true ∧ all_digits minor = true.

(** What [s.replace(':', '_')] does to one character. *)
Definition colon_to_underscore (c : ascii) : ascii :=
  if Ascii.eqb c ":"%char then "_"%char else c.

(** The node with its ['fills'] key set, or removed. *)
Definition with_fills (fills : option (list paint)) (n : node) : node :=
  Node (n_type n) (n_id n) (n_name n) fills (n_backgrounds n) (n_background n)
       (n_isMask n) (n_absoluteBoundingBox n) (n_children n) (n_other n).

(** The tree with [fills = []] written into every node that lacks the key. *)
Fixpoint absent_fills_as_empty (n : node) : node :=
  Node (n_type n) (n_id n) (n_name n) (Some (default [] (n_fills n)))
       (n_backgrounds n) (n_background n) (n_isMask n) (n_absoluteBoundingBox n)
       (match n_children n with
        | Some children => Some (absent_fills_as_empty <$> children)
        | None => None
        end)
       (n_other n).

Definition file_absent_fills_as_empty (data : figma_file) : figma_file :=
  FigmaFile (absent_fills_as_empty <$> fd_document data) (fd_svgDownloads data)
            (fd_svgMapping data) (fd_metadata data) (fd_other data).

End Ids.
Export Ids.

(** ** Scenarios *)

Module Scenarios.

Definition solid_fill : paint := Paint (Some "SOLID") None.
Definition image_fill (ref : string) : paint := Paint (Some "IMAGE") (Some ref).

(** A node with the given type, id, name, fills, mask flag and children,
    and no other key. *)
Definition mk (ty id name : string) (fills : option (list paint))
    (mask : option bool) (children : option (list node)) : node :=
  Node (Some ty) (Some id) (Some name) fills None None mask None children [].

Definition file_of (pages : list node) : figma_file :=
  FigmaFile (Some (mk "DOCUMENT" "0:0" "Document" None None (Some pages)))
            None None None [].

(** Outer composite "1:1" holds inner composite "1:2", which holds the
    qualifying vector "1:3". *)
Definition vector_1_3 : node := mk "VECTOR" "1:3" "Icon" (Some [solid_fill]) None None.
Definition inner_1_2 : node := mk "GROUP" "1:2" "Inner" None None (Some [vector_1_3]).
Definition outer_1_1 : node := mk "GROUP" "1:1" "Outer" None None (Some [inner_1_2]).
Definition nested_file : figma_file :=
  file_of [mk "CANVAS" "0:1" "Page 1" None None (Some [outer_1_1])].

(** The composite "Icon Group" with a vector, a text and a rectangle. *)
Definition icon_group : node :=
  mk "GROUP" "10:1" "Icon Group" None None
     (Some [mk "VECTOR" "10:2" "Glyph" (Some [solid_fill]) None None;
            mk "TEXT" "10:3" "Label" None None None;
            mk "RECTANGLE" "10:4" "Box" None None None]).
Definition icon_file : figma_file :=
  file_of [mk "CANVAS" "0:1" "Page 1" None None (Some [icon_group])].

(** A qualifying vector "20:1" directly on the page, and the same vector
    inside a frame. *)
Definition vector_20_1 : node := mk "VECTOR" "20:1" "Logo" (Some [solid_fill]) None None.
Definition top_level_file : figma_file :=
  file_of [mk "CANVAS" "0:1" "Page 1" None None (Some [vector_20_1])].
Definition framed_file : figma_file :=
  file_of [mk "CANVAS" "0:1" "Page 1" None None
              (Some [mk "FRAME" "5:1" "Header" None None (Some [vector_20_1])])].

(** A rectangle that is a mask, inside a composite. *)
Definition mask_rectangle : node :=
  mk "RECTANGLE" "30:2" "Clip" None (Some true) None.

(** An ill-formed document: the id ["70:2"] is carried by a vector inside a
    composite and by a vector directly on the page. *)
Definition duplicate_id_file : figma_file :=
  file_of [mk "CANVAS" "0:1" "Page 1" None None
              (Some [mk "GROUP" "70:1" "G" None None
                        (Some [mk "VECTOR" "70:2" "In" (Some [solid_fill]) None None]);
                     mk "VECTOR" "70:2" "Out" (Some [solid_fill]) None None])].

(** A vector whose only fill is an image. *)
Definition image_vector : node :=
  mk "VECTOR" "40:2" "Photo" (Some [image_fill "img1"]) None None.
Definition image_vector_file : figma_file :=
  file_of [mk "CANVAS" "0:1" "Page 1" None None
              (Some [mk "GROUP" "40:1" "Holder" None None (Some [image_vector])])].

(** A frame whose image paint sits in the legacy [background] list only. *)
Definition legacy_background_file : figma_file :=
  file_of [mk "CANVAS" "0:1" "Page 1" None None
              (Some [Node (Some "FRAME") (Some "50:1") (Some "Hero") None None
                          (Some [image_fill "img9"]) None None None []])].

(** The same image used by the [fills] of two nodes and the [backgrounds]
    of a third. *)
Definition shared_image_file : figma_file :=
  file_of [mk "CANVAS" "0:1" "Page 1" None None
              (Some [mk "RECTANGLE" "60:1" "A" (Some [image_fill "img7"]) None None;
                     mk "RECTANGLE" "60:2" "B" (Some [image_fill "img7"]) None None;
                     Node (Some "FRAME") (Some "60:3") (Some "C") None
                          (Some [image_fill "img7"]) None None None None []])].

(** A TEXT node whose [styleOverrideTable] has one entry, a [TypeStyle]
    with an image among its [fills]; the node has no paint list of its own. *)
Definition override_text : node :=
  Node (Some "TEXT") (Some "1:1") (Some "Title") None None None None None None
       [("characters", JScalar "Hello");
        ("styleOverrideTable",
         JDict None None [("1", JDict (Some [image_fill "ovr"]) None [])])].
Definition override_file : figma_file :=
  file_of [mk "CANVAS" "0:1" "Page 1" None None (Some [override_text])].

(** A composite whose only vector lies seven levels below it. *)
Definition wrap (id name : string) (child : node) : node :=
  mk "GROUP" id name None None (Some [child]).
Definition deep_vector : node := mk "VECTOR" "80:8" "Deep" (Some [solid_fill]) None None.
Definition deep_group : node :=
  wrap "80:1" "G0" (wrap "80:2" "G1" (wrap "80:3" "G2" (wrap "80:4" "G3"
    (wrap "80:5" "G4" (wrap "80:6" "G5" (wrap "80:7" "G6" deep_vector)))))).
Definition deep_file : figma_file :=
  file_of [mk "CANVAS" "0:1" "Page 1" None None (Some [deep_group])].

(** The composite "Icon Group" and the vector "20:1" side by side. *)
Definition mixed_file : figma_file :=
  file_of [mk "CANVAS" "0:1" "Page 1" None None (Some [icon_group; vector_20_1])].

End Scenarios.
Export Scenarios.

(** ** [JSONPreprocessor]: the reporting methods *)

Module JSONPreprocessorInfo.

(** [get_preprocessing_stats]: a copy of [self.stats] *)
Definition get_preprocessing_stats (self : preprocessor) : stats := self_stats self.

(** An element of ['vector_children_details'];
    ['parent_group'] is [info.get('parent_group_name', 'None')]. *)
Record vector_child_detail := VectorChildDetail {
  vcd_id : string;
  vcd_name : string;
  vcd_filename : string;
  vcd_parent_group : string;
  vcd_extraction_reason : string }.

(** An element of ['standalone_details']. *)
Record standalone_detail := StandaloneDetail {
  sdt_id : string;
  sdt_name : string;
  sdt_filename : string;
  sdt_extraction_reason : string }.

(** The dictionary [get_filtered_structure_info] returns. *)
Record structure_info := StructureInfo {
  si_total_svg_exports : nat;
  si_vector_children_from_groups : nat;
  si_standalone_vectors : nat;
  si_vector_children_details : list vector_child_detail;
  si_standalone_details : list standalone_detail }.

(** [get_filtered_structure_info] *)
Definition get_filtered_structure_info (self : preprocessor) : structure_info :=
  StructureInfo
    (length (individual_vector_children self) + length (standalone_vectors self))
    (length (individual_vector_children self))
    (length (standalone_vectors self))
    ((λ kv, VectorChildDetail kv.1 (vr_name kv.2) (_generate_filename kv.1)
              (default "None" (vr_parent_group_name kv.2))
              (vr_extraction_reason kv.2))
       <$> individual_vector_children self)
    ((λ kv, StandaloneDetail kv.1 (vr_name kv.2) (_generate_filename kv.1)
              (vr_extraction_reason kv.2))
       <$> standalone_vectors self).

(** [get_optimized_structure_info], the alias *)
Definition get_optimized_structure_info (self : preprocessor) : structure_info :=
  get_filtered_structure_info self.

End JSONPreprocessorInfo.
Export JSONPreprocessorInfo.

(** ** Levels and counts

    Lists and numbers in which the behaviour of the preprocessor is stated;
    none of this is in the source. *)

Module Counts.

(** The nodes exactly [k] levels below [n] ([n] itself for [k = 0]). *)
Fixpoint level (k : nat) (n : node) : list node :=
  match k with
  | 0 => [n]
  | S k' => default [] (n_children n) ≫= level k'
  end.

(** The nodes strictly below [n]. *)
Definition below (n : node) : list node :=
  match n_children n with Some l => l ≫= subtree | None => [] end.

(** The nodes examined by the content scans of a run. *)
Definition scanned_of (l : list call) : list node :=
  l ≫= (λ c, if get_type c.1.1 =? "GROUP" then group_scanned c.1.1 else []).

(** The nodes inside the groups the traversal decomposes. *)
Definition inside_groups (l : list call) : list node :=
  l ≫= (λ c, if get_type c.1.1 =? "GROUP" then below c.1.1 else []).

(** A scanned node that the shape counter counts. *)
Definition counted_as_shape (x : node) : bool :=
  negb (_is_pure_vector x) && negb (get_type x =? "TEXT") &&
  ((get_type x =? "RECTANGLE") || (get_type x =? "ELLIPSE") || get_isMask x).

Definition counted_as_text (x : node) : bool := get_type x =? "TEXT".

(** A call on a GROUP whose scan finds no qualifying node. *)
Definition is_empty_group_call (c : call) : bool :=
  (get_type c.1.1 =? "GROUP") &&
  bool_decide (filter (λ x, _is_pure_vector x = true) (group_scanned c.1.1) = []).

Definition is_group_call (c : call) : bool := get_type c.1.1 =? "GROUP".

(** A call that records its node as a standalone vector. *)
Definition is_standalone_call (c : call) : bool :=
  _is_pure_vector c.1.1 && bool_decide (c.2 = None).

(** Counter by counter sum. *)
Definition stats_plus (a b : stats) : stats :=
  Stats (total_nodes_scanned a + total_nodes_scanned b)
        (groups_analyzed a + groups_analyzed b)
        (vector_children_found a + vector_children_found b)
        (individual_vectors_found a + individual_vectors_found b)
        (text_nodes_filtered a + text_nodes_filtered b)
        (image_shapes_filtered a + image_shapes_filtered b)
        (empty_groups_skipped a + empty_groups_skipped b)
        (total_vector_exports a + total_vector_exports b).

(** What the content scan of the nodes [l] adds to the counters. *)
Definition scan_delta (l : list node) : stats :=
  Stats 0 0 0 0
        (length (filter (λ x, counted_as_text x = true) l))
        (length (filter (λ x, counted_as_shape x = true) l))
        0 0.

(** What the calls [l] add to the counters. *)
Definition calls_stats (l : list call) : stats :=
  Stats (length l)
        (length (filter (λ c, is_group_call c = true) l))
        (length (l ≫= claimed_by))
        (length (l ≫= standalone_by))
        (length (filter (λ x, counted_as_text x = true) (scanned_of l)))
        (length (filter (λ x, counted_as_shape x = true) (scanned_of l)))
        (length (filter (λ c, is_empty_group_call c = true) l))
        0.

End Counts.
Export Counts.

(** ** [EnhancedFigmaExtractor]: the searches for vector groups and for
       individual vectors (src/enhanced_figma_extractor.py) *)

Module EnhancedVectors.

(** [node_type in ['VECTOR', 'BOOLEAN_OPERATION', 'STAR', 'POLYGON']] *)
Definition is_vector_type (node_type : string) : bool :=
  (node_type =? "VECTOR") || (node_type =? "BOOLEAN_OPERATION") ||
  (node_type =? "STAR") || (node_type =? "POLYGON").

(** What [find_vectors] appends; ['id'] is [node.get('id')], [None] when
    the node has no id. *)
Record vector_child := VectorChild {
  vc_id : option string;
  vc_name : string;
  vc_type : string;
  vc_bounds : option rect }.

(** [find_vectors] of [_get_vector_children] *)
Fixpoint find_vectors (n : node) (depth : nat) (acc : list vector_child)
    {struct n} : list vector_child :=
  if (10 <? depth)%nat then acc
  else
    let node_type := get_type n in
    let acc :=
      if is_vector_type node_type then
        acc ++ [VectorChild (n_id n) (default "Vector" (n_name n)) node_type
                  (get_bounds n)]
      else acc in
    match n_children n with
    | Some children =>
        foldl (λ a child, find_vectors child (S depth) a) acc children
    | None => acc
    end.

(** [_get_vector_children] *)
Definition _get_vector_children (group_node : node) : list vector_child :=
  foldl (λ a child, find_vectors child 0 a) []
        (default [] (n_children group_node)).

(** An element of the list [find_groups_with_vectors] returns. *)
Record group_info := GroupInfo {
  gi_id : string;
  gi_name : string;
  gi_path : string;
  gi_vector_children : list vector_child;
  gi_vector_count : nat;
  gi_bounds : option rect;
  gi_parent_groups : list string }.

Module FindGroups.

(** [traverse_node] of [find_groups_with_vectors]; [parent_groups = None]
    is the empty list. *)
Fixpoint traverse_node (n : node) (path : string) (parent_groups : list string)
    (vector_groups : list group_info) {struct n} : list group_info :=
  let node_type := get_type n in
  let node_id := get_id n in
  let node_name := get_name n in
  let current_path := join_path path node_name in
  if node_type =? "GROUP" then
    let vector_children := _get_vector_children n in
    let '(vector_groups, new_parent_groups) :=
      match vector_children with
      | _ :: _ =>
          (vector_groups ++
             [GroupInfo node_id node_name current_path vector_children
                (length vector_children) (get_bounds n) parent_groups],
           parent_groups ++ [node_id])
      | [] => (vector_groups, parent_groups)
      end in
    match n_children n with
    | Some children =>
        foldl (λ vg child, traverse_node child current_path new_parent_groups vg)
              vector_groups children
    | None => vector_groups
    end
  else
    match n_children n with
    | Some children =>
        foldl (λ vg child, traverse_node child current_path parent_groups vg)
              vector_groups children
    | None => vector_groups
    end.

End FindGroups.

(** [find_groups_with_vectors] *)
Definition find_groups_with_vectors (file_data : figma_file) : list group_info :=
  let document := default empty_node (fd_document file_data) in
  foldl (λ vg page, FindGroups.traverse_node page "" [] vg) []
        (default [] (n_children document)).

(** An element of the list [find_individual_vectors] returns. *)
Record individual_vector := IndividualVector {
  iv_id : string;
  iv_name : string;
  iv_type : string;
  iv_path : string;
  iv_bounds : option rect }.

(** [collect_group_members] of [find_individual_vectors]; the set holds
    what [vector_child['id']] holds, a string or [None]. *)
Fixpoint collect_group_members (n : node) (group_member_ids : gset (option string))
    {struct n} : gset (option string) :=
  let node_type := get_type n in
  let group_member_ids :=
    if node_type =? "GROUP" then
      foldl (λ ids vector_child, {[vc_id vector_child]} ∪ ids) group_member_ids
            (_get_vector_children n)
    else group_member_ids in
  match n_children n with
  | Some children =>
      foldl (λ ids child, collect_group_members child ids) group_member_ids children
  | None => group_member_ids
  end.

(** [find_standalone_vectors] of [find_individual_vectors] *)
Fixpoint find_standalone_vectors (group_member_ids : gset (option string))
    (n : node) (path : string) (individual_vectors : list individual_vector)
    {struct n} : list individual_vector :=
  let node_type := get_type n in
  let node_id := get_id n in
  let node_name := get_name n in
  let current_path := join_path path node_name in
  let individual_vectors :=
    if is_vector_type node_type then
      if bool_decide (Some node_id ∉ group_member_ids) then
        individual_vectors ++
          [IndividualVector node_id node_name node_type current_path (get_bounds n)]
      else individual_vectors
    else individual_vectors in
  if negb (node_type =? "GROUP") then
    match n_children n with
    | Some children =>
        foldl (λ ivs child,
                 find_standalone_vectors group_member_ids child current_path ivs)
              individual_vectors children
    | None => individual_vectors
    end
  else individual_vectors.

(** The first pass of [find_individual_vectors]. *)
Definition group_member_ids_of (file_data : figma_file) : gset (option string) :=
  let document := default empty_node (fd_document file_data) in
  foldl (λ ids page, collect_group_members page ids) ∅
        (default [] (n_children document)).

(** [find_individual_vectors] *)
Definition find_individual_vectors (file_data : figma_file)
  : list individual_vector :=
  let document := default empty_node (fd_document file_data) in
  let group_member_ids := group_member_ids_of file_data in
  foldl (λ ivs page, find_standalone_vectors group_member_ids page "" ivs) []
        (default [] (n_children document)).

End EnhancedVectors.
Export EnhancedVectors.

(** ** The searches as lists *)

Module Visits.

(** The nodes a depth-limited walk from [child] at [depth] looks at, when
    it stops at [depth > cap]. *)
Fixpoint reach (cap : nat) (child : node) (depth : nat) : list node :=
  if (cap <? depth)%nat then []
  else child :: match n_children child with
                | Some grandchildren =>
                    grandchildren ≫= (λ gc, reach cap gc (S depth))
                | None => []
                end.

Definition vector_child_of (x : node) : vector_child :=
  VectorChild (n_id x) (default "Vector" (n_name x)) (get_type x) (get_bounds x).

(** The nodes [_get_vector_children] returns descriptors of. *)
Definition vector_members (g : node) : list node :=
  filter (λ x, is_vector_type (get_type x) = true)
         (default [] (n_children g) ≫= (λ c, reach 10 c 0)).

(** A GROUP with at least one vector member. *)
Definition is_vector_group (n : node) : bool :=
  (get_type n =? "GROUP") &&
  match _get_vector_children n with [] => false | _ :: _ => true end.

Abbreviation visit := (node * string * list string)%type.

Definition next_parent_groups (n : node) (parent_groups : list string)
  : list string :=
  if is_vector_group n then parent_groups ++ [get_id n] else parent_groups.

(** The calls of [traverse_node] of [find_groups_with_vectors]. *)
Fixpoint visits (n : node) (path : string) (parent_groups : list string)
  : list visit :=
  (n, path, parent_groups) ::
  match n_children n with
  | Some children =>
      children ≫= (λ c, visits c (join_path path (get_name n))
                                (next_parent_groups n parent_groups))
  | None => []
  end.

Definition file_visits (data : figma_file) : list visit :=
  file_pages data ≫= (λ page, visits page "" []).

Definition group_info_of (v : visit) : group_info :=
  let '(n, path, parent_groups) := v in
  GroupInfo (get_id n) (get_name n) (join_path path (get_name n))
    (_get_vector_children n) (length (_get_vector_children n)) (get_bounds n)
    parent_groups.

Definition individual_vector_of (c : call) : individual_vector :=
  let '(n, path, _) := c in
  IndividualVector (get_id n) (get_name n) (get_type n)
    (join_path path (get_name n)) (get_bounds n).

End Visits.
Export Visits.

(** ** [FigmaExtractor]: the image reference of one node
       (src/src/figma_extractor.py) *)

Module FigmaImageRef.

(** The loop over [obj['fills']] (and over [obj['backgrounds']]) of
    [_find_image_ref_for_node]: the first entry with
    [fill.get('type') == 'IMAGE' and 'imageRef' in fill] returns its
    reference. *)
Fixpoint first_image_ref (paints : list paint) : option string :=
  match paints with
  | [] => None
  | fill :: rest =>
      match paint_type fill, paint_imageRef fill with
      | Some t, Some r => if t =? "IMAGE" then Some r else first_image_ref rest
      | _, _ => first_image_ref rest
      end
  end.

(** What [traverse] returns from the [obj.get('id') == target_node_id]
    branch, [None] when it falls through to the loop over the values. *)
Definition own_image_ref (target_node_id : string) (obj : node) : option string :=
  if bool_decide (n_id obj = Some target_node_id) then
    match (match n_fills obj with
           | Some fills => first_image_ref fills
           | None => None
           end) with
    | Some r => Some r
    | None =>
        match n_backgrounds obj with
        | Some bgs => first_image_ref bgs
        | None => None
        end
    end
  else None.

(** [result = traverse(item); if result: return result] over a list of
    results: the first one that is a non-empty string. *)
Fixpoint first_truthy (results : list (option string)) : option string :=
  match results with
  | [] => None
  | Some r :: rest => if truthy r then Some r else first_truthy rest
  | None :: rest => first_truthy rest
  end.

Module FindImageRef.

(** [traverse] of [_find_image_ref_for_node] on a node dictionary.  Of the
    values of a node only [children] holds dictionaries with an ['id']: on
    the dictionaries under the other keys ([n_other]) the test
    [obj.get('id') == target_node_id] fails, so the walk through them
    returns [None] and the loop over [obj.values()] goes on. *)
Fixpoint traverse (target_node_id : string) (obj : node) {struct obj}
  : option string :=
  match own_image_ref target_node_id obj with
  | Some r => Some r
  | None =>
      match n_children obj with
      | Some children => first_truthy (traverse target_node_id <$> children)
      | None => None
      end
  end.

End FindImageRef.

(** [_find_image_ref_for_node]: the top-level dictionary has no ['id'];
    the loop over its values returns the result for [document] when that is
    a non-empty string. *)
Definition _find_image_ref_for_node (data : figma_file) (target_node_id : string)
  : option string :=
  match fd_document data with
  | Some document => first_truthy [FindImageRef.traverse target_node_id document]
  | None => None
  end.

End FigmaImageRef.
Export FigmaImageRef.

(** ** File names (src/src/utils.py, src/enhanced_figma_extractor.py)

    A Python string is modelled by the string of its characters; the
    characters the two functions look for are ASCII, for the length limit a
    character of the model stands for one code point. *)

Module Filenames.

(** The character class of [invalid_chars]: less-than, greater-than,
    colon, double quote (the character 34), slash, backslash (the
    character 92), bar, question mark, asterisk and ampersand. *)
Definition is_invalid_char (c : ascii) : bool :=
  (c =? "<")%char || (c =? ">")%char || (c =? ":")%char || (c =? "034")%char ||
  (c =? "/")%char || (c =? "092")%char || (c =? "|")%char || (c =? "?")%char ||
  (c =? "*")%char || (c =? "&")%char.

(** [re.sub(invalid_chars, '_', filename)] *)
Fixpoint replace_invalid (filename : string) : string :=
  match filename with
  | EmptyString => EmptyString
  | String c rest =>
      String (if is_invalid_char c then "_"%char else c) (replace_invalid rest)
  end.

(** [re.sub(r'_+', '_', s)]: every maximal run of underscores becomes one
    underscore. *)
Fixpoint collapse_underscores (s : string) : string :=
  match s with
  | EmptyString => EmptyString
  | String c rest =>
      if (c =? "_")%char then
        match rest with
        | String c' _ =>
            if (c' =? "_")%char then collapse_underscores rest
            else String c (collapse_underscores rest)
        | EmptyString => String c EmptyString
        end
      else String c (collapse_underscores rest)
  end.

(** [s.lstrip('_')] and [s.rstrip('_')] *)
Fixpoint lstrip_underscores (s : string) : string :=
  match s with
  | EmptyString => EmptyString
  | String c rest => if (c =? "_")%char then lstrip_underscores rest else s
  end.

Fixpoint rstrip_underscores (s : string) : string :=
  match s with
  | EmptyString => EmptyString
  | String c rest =>
      match rstrip_underscores rest with
      | EmptyString => if (c =? "_")%char then EmptyString else String c EmptyString
      | r => String c r
      end
  end.

(** [s.strip('_')] *)
Definition strip_underscores (s : string) : string :=
  rstrip_underscores (lstrip_underscores s).

(** [s[:n]] *)
Fixpoint py_take (n : nat) (s : string) : string :=
  match n, s with
  | S n', String c rest => String c (py_take n' rest)
  | _, _ => EmptyString
  end.

(** [sanitize_filename] of src/src/utils.py *)
Definition sanitize_filename (filename : string) : string :=
  let sanitized := replace_invalid filename in
  let sanitized := strip_underscores (collapse_underscores sanitized) in
  if negb (truthy sanitized) then "figma_export" else sanitized.

(** [_sanitize_filename] of [EnhancedFigmaExtractor] *)
Definition _sanitize_filename (filename : string) : string :=
  let sanitized := replace_invalid filename in
  let sanitized := strip_underscores (collapse_underscores sanitized) in
  let sanitized := if negb (truthy sanitized) then "unnamed" else sanitized in
  if (50 <? String.length sanitized)%nat then py_take 50 sanitized else sanitized.

End Filenames.
Export Filenames.

(** ** Shapes of file names *)

Module NameShapes.

(** No character of [s] is in the invalid class. *)
Fixpoint no_invalid_char (s : string) : bool :=
  match s with
  | EmptyString => true
  | String c rest => negb (is_invalid_char c) && no_invalid_char rest
  end.

(** [s] starts with an underscore; [s] ends with one. *)
Definition starts_with_underscore (s : string) : bool :=
  match s with String c _ => (c =? "_")%char | EmptyString => false end.

Fixpoint ends_with_underscore (s : string) : bool :=
  match s with
  | EmptyString => false
  | String c EmptyString => (c =? "_")%char
  | String _ rest => ends_with_underscore rest
  end.

(** No two adjacent characters of [s] are both underscores. *)
Fixpoint no_double_underscore (s : string) : bool :=
  match s with
  | EmptyString => true
  | String c rest =>
      negb ((c =? "_")%char && starts_with_underscore rest) &&
      no_double_underscore rest
  end.

(** A name that needs no sanitizing. *)
Definition clean_name (s : string) : bool :=
  truthy s && no_invalid_char s && no_double_underscore s &&
  negb (starts_with_underscore s) && negb (ends_with_underscore s).

End NameShapes.
Export NameShapes.

(** ** [URLReplacer] (src/src/URLReplacer.py): the URL mapping and the
       [_svgDownloads] section

    The uploaded-files document is typed: every element of ['files'] has
    the keys [filename], [url], [cdn_url] and [size_mb] (a number, kept as
    its JSON text).  [Path(filename).stem] is library code; it is the
    parameter [stem] of this section. *)

Module URLReplacer.

(** An element of [urls_data['files']]. *)
Record file_info := FileInfo {
  fi_filename : string;
  fi_url : string;
  fi_cdn_url : string;
  fi_size_mb : string }.

(** A value of [self.url_mapping]. *)
Record url_entry := UrlEntry {
  ue_url : string;
  ue_cdn_url : string;
  ue_filename : string;
  ue_size_mb : string;
  ue_file_type : string }.

(** The object state of a [URLReplacer]. *)
Record url_replacer := UrlReplacer {
  url_mapping : pydict url_entry;
  replacement_count : nat;
  svg_replacement_count : nat }.

(** [__init__] *)
Definition new_replacer : url_replacer := UrlReplacer [] 0 0.

(** The keys [_update_svg_downloads_section] adds to an entry:
    [uploaded_url], [uploaded_cdn_url], [uploaded_regular_url],
    [uploaded_size_mb], and [_url_replaced = True]. *)
Record upload_info := UploadInfo {
  uploaded_url : string;
  uploaded_cdn_url : string;
  uploaded_regular_url : string;
  uploaded_size_mb : string }.

(** An entry of [_svgDownloads] as the replacer sees it: the keys the
    preprocessor wrote and, when present, the five upload keys. *)
Record svg_entry := SvgEntry {
  se_data : svg_download;
  se_upload : option upload_info }.

(** [c.lower()] on an ASCII letter; [s.lower()].  The test that uses it
    looks for the ASCII suffix [.svg], and no other character lowers to
    one of its letters. *)
Definition lower_char (c : ascii) : ascii :=
  let n := Ascii.nat_of_ascii c in
  if (65 <=? n)%nat && (n <=? 90)%nat then Ascii.ascii_of_nat (n + 32) else c.

Fixpoint lower (s : string) : string :=
  match s with
  | EmptyString => EmptyString
  | String c rest => String (lower_char c) (lower rest)
  end.

(** [s.endswith(suffix)] *)
Definition endswith (s suffix : string) : bool :=
  (String.length suffix <=? String.length s)%nat &&
  (String.substring (String.length s - String.length suffix)
                    (String.length suffix) s =? suffix).

(** [s.startswith(prefix)] *)
Definition startswith (s prefix : string) : bool := String.prefix prefix s.

Section with_stem.

Variable stem : string → string.

(** The body of the loop of [load_url_mapping]. *)
Definition add_file (mapping : pydict url_entry) (file_info : file_info)
  : pydict url_entry :=
  let filename := fi_filename file_info in
  let file_ref := stem filename in
  dict_set file_ref
    (UrlEntry (fi_url file_info) (fi_cdn_url file_info) filename
       (fi_size_mb file_info)
       (if endswith (lower filename) ".svg" then "svg" else "bitmap"))
    mapping.

(** [load_url_mapping] after [json.load]: [files] is [urls_data['files']],
    [None] when the key is absent.  The second component is the return
    value. *)
Definition load_url_mapping (self : url_replacer) (files : option (list file_info))
  : url_replacer * bool :=
  let self :=
    match files with
    | Some files =>
        UrlReplacer (foldl add_file (url_mapping self) files)
          (replacement_count self) (svg_replacement_count self)
    | None => self
    end in
  (self, true).

End with_stem.

(** What the four assignments write for the mapping entry [e]. *)
Definition upload_of (use_cdn : bool) (e : url_entry) : upload_info :=
  UploadInfo (if use_cdn then ue_cdn_url e else ue_url e)
             (ue_cdn_url e) (ue_url e) (ue_size_mb e).

(** The loop over [self.url_mapping.keys()] of
    [_update_svg_downloads_section]: the first key that starts with
    [safe_node_id] and whose entry is an SVG. *)
Fixpoint find_alternative (mapping : pydict url_entry) (safe_node_id : string)
    (keys : list string) : option url_entry :=
  match keys with
  | [] => None
  | mapping_key :: rest =>
      match dict_get mapping_key mapping with
      | Some e =>
          if startswith mapping_key safe_node_id && (ue_file_type e =? "svg")
          then Some e
          else find_alternative mapping safe_node_id rest
      | None => find_alternative mapping safe_node_id rest
      end
  end.

(** The mapping entry [_update_svg_downloads_section] uses for a node id. *)
Definition mapping_for (mapping : pydict url_entry) (node_id : string)
  : option url_entry :=
  let safe_node_id := replace_colon node_id in
  match dict_get safe_node_id mapping with
  | Some e => Some e
  | None => find_alternative mapping safe_node_id (dict_keys mapping)
  end.

(** The body of the loop of [_update_svg_downloads_section]. *)
Definition update_svg_entry (use_cdn : bool) (st : url_replacer * pydict svg_entry)
    (item : string * svg_entry) : url_replacer * pydict svg_entry :=
  let '(self, seen) := st in
  let '(node_id, svg_data) := item in
  match mapping_for (url_mapping self) node_id with
  | Some e =>
      (UrlReplacer (url_mapping self) (replacement_count self)
         (S (svg_replacement_count self)),
       seen ++ [(node_id, SvgEntry (se_data svg_data) (Some (upload_of use_cdn e)))])
  | None => (self, seen ++ [(node_id, svg_data)])
  end.

(** [_update_svg_downloads_section]: the object state and the content of
    [svg_downloads] after the call. *)
Definition _update_svg_downloads_section (self : url_replacer)
    (svg_downloads : pydict svg_entry) (use_cdn : bool)
  : url_replacer * pydict svg_entry :=
  foldl (update_svg_entry use_cdn) (self, []) svg_downloads.

(** The [_svgDownloads] section the preprocessor wrote, as the replacer
    reads it: no entry has upload keys. *)
Definition fresh_entries (d : pydict svg_download) : pydict svg_entry :=
  (λ kv, (kv.1, SvgEntry kv.2 None)) <$> d.

End URLReplacer.
Export URLReplacer.

(** ** An upload scenario *)

Module Uploads.

(** A file name without its last four characters: what [Path(..).stem]
    gives for a name that ends in [.svg] and has no directory part. *)
Definition without_extension (filename : string) : string :=
  String.substring 0 (String.length filename - 4) filename.

(** The uploaded file of the vector ["10:2"] of [icon_file]. *)
Definition glyph_upload : file_info :=
  FileInfo "10_2.svg" "https://space.example/svgs/10_2.svg"
           "https://cdn.example/svgs/10_2.svg" "0.01".

End Uploads.
Export Uploads.

(** ** A download scenario: every request succeeds *)

Module Environment.

Definition answering_api (node_ids : list string)
  : option (pydict (option string)) :=
  Some ((λ i, (i, Some ("https://figma.example/" +:+ i))) <$> node_ids).

Definition answering_server (url : string) : option string := Some "<svg/>".

Definition writable_disk (filename svg_content : string) : option nat :=
  Some (String.length svg_content).

Definition in_svg_icons (filename : string) : string := "out/svg_icons/" +:+ filename.

(** The file a run on [icon_file] returns, with its [_metadata] taken out. *)
Definition icon_downloads_file : figma_file :=
  FigmaFile None (Some (child_based_svg_downloads (analysis icon_file))) None None [].

End Environment.
Export Environment.

(** ** [FigmaExtractor]: downloading the exported vectors
       (src/src/figma_extractor.py)

    [download_svg_icons] and [download_svg_icons_from_preprocessed] talk to
    the Figma API, to the download server and to the file system.  What
    these answer is a parameter of the section below, one answer per
    request; the retries, the pauses, the log lines and the
    [svg_mapping.json] file written at the end are left out.  The other
    download method, [download_svg_icons_fallback], is not embedded: a call
    to it is the result [ViaFallback] with its arguments. *)

Module SvgDownloads.

(** An element of [individual_vectors]. *)
Record vector_item := VectorItem {
  vi_id : string;
  vi_name : string;
  vi_type : string;
  vi_filename : string;
  vi_path : string;
  vi_extraction_reason : string;
  vi_parent_group : string }.

(** A value of [downloaded_svgs]. *)
Record downloaded_svg := DownloadedSvg {
  ds_local_path : string;
  ds_figma_url : string;
  ds_filename : string;
  ds_component_name : string;
  ds_file_size : nat;
  ds_node_id : string;
  ds_type : string;
  ds_extraction_reason : string;
  ds_path : string;
  ds_parent_group : string;
  ds_is_group : bool }.

(** The variables of [download_svg_icons_from_preprocessed] that change
    while it runs, and the list of the [node_ids] arguments of its
    [export_svg_batch] calls. *)
Record download_state := DownloadState {
  downloaded_svgs : pydict downloaded_svg;
  successful_downloads : nat;
  requests : list (list string) }.

(** What an SVG download method returns: the state at the end of
    [download_svg_icons_from_preprocessed] (its [downloaded_svgs] is the
    return value, its [successful_downloads] goes to
    [self.stats['individual_vectors_downloaded']]), or the call
    [download_svg_icons_fallback(file_key, file_data, output_dir,
    include_all_exportable, batch_size)]. *)
Inductive download_result : Type :=
  | Preprocessed (st : download_state)
  | ViaFallback (file_data : figma_file) (include_all_exportable : bool)
                (batch_size : nat).

(** [range(start, stop, step)] for a positive [step]; [stop] steps are
    enough. *)
Fixpoint range_from (fuel start stop step : nat) : list nat :=
  match fuel with
  | 0 => []
  | S fuel' =>
      if (start <? stop)%nat
      then start :: range_from fuel' (start + step) stop step
      else []
  end.

Definition py_range (start stop step : nat) : list nat :=
  range_from stop start stop step.

(** [l[i:j]] *)
Definition slice {A} (l : list A) (i j : nat) : list A := take (j - i) (drop i l).

(** The element of [individual_vectors] built from an entry of
    [_svgDownloads]. *)
Definition vector_item_of (node_id : string) (svg_info : svg_download)
  : vector_item :=
  VectorItem node_id (sd_component_name svg_info) (sd_type svg_info)
    (sd_filename svg_info) (sd_path svg_info) (sd_extraction_reason svg_info)
    (default "None" (sd_parent_group_name svg_info)).

Section with_environment.

(** [export_svg_batch(file_key, node_ids)]: [None], or the ['images']
    dictionary, whose values are URLs or [null]. *)
Variable export_svg_batch : list string → option (pydict (option string)).

(** [download_svg_content(url)]: the text, or [None]. *)
Variable download_svg_content : string → option string.

(** Writing [svg_content] to [svg_dir / filename]: the size of the file,
    or [None] when an exception is raised. *)
Variable write_file : string → string → option nat.

(** [str(svg_dir / filename)] *)
Variable local_path_of : string → string.

(** The body of the loop [for vector in batch]. *)
Definition download_vector (svg_urls : pydict (option string))
    (st : download_state) (vector : vector_item) : download_state :=
  let node_id := vi_id vector in
  match dict_get node_id svg_urls with
  | Some (Some url) =>
      if truthy url then
        match download_svg_content url with
        | Some svg_content =>
            if truthy svg_content then
              let filename := vi_filename vector in
              match write_file filename svg_content with
              | Some file_size =>
                  DownloadState
                    (dict_set node_id
                       (DownloadedSvg (local_path_of filename) url filename
                          (vi_name vector) file_size node_id (vi_type vector)
                          (vi_extraction_reason vector) (vi_path vector)
                          (vi_parent_group vector) false)
                       (downloaded_svgs st))
                    (S (successful_downloads st)) (requests st)
              | None => st
              end
            else st
        | None => st
        end
      else st
  | _ => st
  end.

(** The body of the loop over the batches. *)
Definition download_batch (st : download_state) (batch : list vector_item)
  : download_state :=
  let node_ids := vi_id <$> batch in
  let st := DownloadState (downloaded_svgs st) (successful_downloads st)
              (requests st ++ [node_ids]) in
  match export_svg_batch node_ids with
  | Some ((_ :: _) as svg_urls) => foldl (download_vector svg_urls) st batch
  | _ => st
  end.

(** [download_svg_icons_from_preprocessed] *)
Definition download_svg_icons_from_preprocessed (preprocessed_data : figma_file)
  : download_result :=
  match fd_svgDownloads preprocessed_data with
  | Some ((_ :: _) as svg_downloads_structure) =>
      let individual_vectors :=
        (λ kv, vector_item_of kv.1 kv.2) <$> svg_downloads_structure in
      let batch_size := 10 in
      Preprocessed
        (foldl (λ st i,
                  download_batch st (slice individual_vectors i (i + batch_size)))
               (DownloadState [] 0 [])
               (py_range 0 (length individual_vectors) batch_size))
  | _ => ViaFallback preprocessed_data true 10
  end.

(** [download_svg_icons]; [h] is the object store, in which the
    [_metadata] dictionary of [file_data] lives. *)
Definition download_svg_icons (h : heap) (file_data : figma_file)
    (include_all_exportable : bool) (batch_size : nat) : download_result :=
  let preprocessing_applied :=
    match fd_metadata file_data with
    | Some ml =>
        match read_meta ml h with
        | Some m => default false (md_preprocessing_applied m)
        | None => false
        end
    | None => false
    end in
  if preprocessing_applied then download_svg_icons_from_preprocessed file_data
  else ViaFallback file_data include_all_exportable batch_size.

End with_environment.

End SvgDownloads.
Export SvgDownloads.

(** ** What a download stores *)

Module DownloadFacts.

(** What [download_vector] stores for [vector], when it stores anything. *)
Definition stored_for (download_svg_content : string → option string)
    (write_file : string → string → option nat) (local_path_of : string → string)
    (svg_urls : pydict (option string)) (vector : vector_item)
    (e : downloaded_svg) : Prop :=
  ∃ url svg_content file_size,
    dict_get (vi_id vector) svg_urls = Some (Some url) ∧ truthy url = true ∧
    download_svg_content url = Some svg_content ∧ truthy svg_content = true ∧
    write_file (vi_filename vector) svg_content = Some file_size ∧
    e = DownloadedSvg (local_path_of (vi_filename vector)) url (vi_filename vector)
          (vi_name vector) file_size (vi_id vector) (vi_type vector)
          (vi_extraction_reason vector) (vi_path vector) (vi_parent_group vector)
          false.

(** What holds of the state while the batches are processed. *)
Definition download_inv (P : string → downloaded_svg → Prop) (bound : nat)
    (st : download_state) : Prop :=
  (∀ k e, dict_get k (downloaded_svgs st) = Some e → P k e) ∧
  (length (downloaded_svgs st) ≤ successful_downloads st)%nat ∧
  (successful_downloads st ≤ bound)%nat.

End DownloadFacts.
Export DownloadFacts.

(** * Theorems *)

(** ** Induction on design trees *)

Lemma node_ind_fields (P : node → Prop) :
  (∀ ty id nm fl bgs bg mask bb ch ot,
     match ch with Some l => Forall P l | None => True end →
     P (Node ty id nm fl bgs bg mask bb ch ot)) →
  ∀ n, P n.
Proof.
  intros H. fix IH 1. intros [ty id nm fl bgs bg mask bb ch ot]. apply H.
  destruct ch as [l|]; [ |exact I].
  induction l as [ |c l IHl]; constructor; [apply IH | exact IHl].
Qed.

Lemma node_ind' (P : node → Prop) :
  (∀ n, (∀ l, n_children n = Some l → Forall P l) → P n) →
  ∀ n, P n.
Proof.
  intros H. apply node_ind_fields. intros ty id nm fl bgs bg mask bb ch ot Hch.
  apply H. simpl. intros l ->. exact Hch.
Qed.

(** ** Dictionaries *)

(** Case analysis on the string comparisons of a goal. *)
Ltac str_cases :=
  repeat first
    [ case_decide
    | match goal with
      | |- context [String.eqb ?a ?b] => destruct (String.eqb_spec a b)
      end ];
  subst; try congruence; try done.

Section dict.
Context {V : Type}.
Implicit Types (d : pydict V) (k : string) (v : V) (l : list (string * V)).

Lemma dict_get_set k k' v d :
  dict_get k (dict_set k' v d) = if decide (k = k') then Some v else dict_get k d.
Proof.
  induction d as [ |[k0 v0] d IH]; simpl.
  - str_cases.
  - destruct (String.eqb_spec k0 k'); simpl; [ |rewrite IH]; str_cases.
Qed.

Lemma dict_keys_set k v d :
  dict_keys (dict_set k v d) =
  if decide (k ∈ dict_keys d) then dict_keys d else dict_keys d ++ [k].
Proof.
  unfold dict_keys. induction d as [ |[k0 v0] d IH].
  - rewrite decide_False; [done | apply not_elem_of_nil].
  - cbn [dict_set]. destruct (String.eqb_spec k0 k) as [->|Hne].
    + rewrite decide_True; [done | rewrite fmap_cons; left].
    + rewrite !fmap_cons, IH. cbn [fst].
      destruct (decide (k ∈ d.*1)) as [Hin|Hnin].
      * rewrite decide_True; [done | by right].
      * rewrite decide_False; [done | ].
        intros [->|?]%elem_of_cons; [congruence | done].
Qed.

Lemma dict_set_NoDup k v d : NoDup (dict_keys d) → NoDup (dict_keys (dict_set k v d)).
Proof.
  intros H. rewrite dict_keys_set. case_decide; [done|].
  apply NoDup_app. split_and!; [done | | apply NoDup_singleton].
  intros x Hx ->%list_elem_of_singleton. done.
Qed.

Lemma dict_get_Some_elem k v d : dict_get k d = Some v → (k, v) ∈ d.
Proof.
  induction d as [ |[k0 v0] d IH]; simpl; [done|].
  destruct (String.eqb_spec k0 k).
  - intros [= ->]. subst. left.
  - intros H. right. by apply IH.
Qed.

Lemma dict_get_is_Some k d : is_Some (dict_get k d) ↔ k ∈ dict_keys d.
Proof.
  unfold dict_keys. induction d as [ |[k0 v0] d IH]; simpl.
  - split; [by intros [? ?] | by intros ?%elem_of_nil].
  - destruct (String.eqb_spec k0 k).
    + subst. split; [intros _; left | by eauto].
    + rewrite IH. split; [by right|]. intros [->|]%elem_of_cons; [congruence|done].
Qed.

Lemma dict_get_None k d : dict_get k d = None ↔ k ∉ dict_keys d.
Proof. rewrite <- dict_get_is_Some, eq_None_not_Some. done. Qed.

Lemma dict_get_elem_NoDup k v d :
  NoDup (dict_keys d) → (k, v) ∈ d → dict_get k d = Some v.
Proof.
  unfold dict_keys. induction d as [ |[k0 v0] d IH]; simpl.
  - by intros _ ?%elem_of_nil.
  - intros [Hk0 Hd]%NoDup_cons [[= -> ->]|Hin]%elem_of_cons.
    + by rewrite String.eqb_refl.
    + destruct (String.eqb_spec k0 k); [ |by apply IH].
      subst. exfalso. apply Hk0. apply list_elem_of_fmap. by exists (k, v).
Qed.

(** A key occurs in at most one entry, and in exactly one when present. *)
Lemma dict_key_count k d :
  NoDup (dict_keys d) →
  length (filter (λ kv, kv.1 = k) d) = if decide (k ∈ dict_keys d) then 1 else 0.
Proof.
  unfold dict_keys. induction d as [ |[k0 v0] d IH].
  - intros _. rewrite decide_False; [done | apply not_elem_of_nil].
  - rewrite fmap_cons. cbn [fst]. intros [Hk0 Hd]%NoDup_cons.
    specialize (IH Hd). rewrite filter_cons. cbn [fst].
    destruct (decide (k0 = k)) as [->|Hne].
    + cbn [length]. rewrite IH, decide_False by done.
      rewrite decide_True; [done | left].
    + rewrite IH. destruct (decide (k ∈ d.*1)) as [Hin|Hnin].
      * rewrite decide_True; [done | by right].
      * rewrite decide_False; [done | ].
        intros [->|?]%elem_of_cons; [congruence | done].
Qed.

Lemma dict_update_app d l1 l2 :
  dict_update d (l1 ++ l2) = dict_update (dict_update d l1) l2.
Proof. apply foldl_app. Qed.

Lemma dict_update_NoDup d l :
  NoDup (dict_keys d) → NoDup (dict_keys (dict_update d l)).
Proof.
  revert d. induction l as [ |[k v] l IH]; intros d H; simpl; [done|].
  apply IH. by apply dict_set_NoDup.
Qed.

Lemma dict_update_keys k d l :
  k ∈ dict_keys (dict_update d l) ↔ k ∈ dict_keys d ∨ k ∈ l.*1.
Proof.
  revert d. induction l as [ |[k0 v0] l IH]; intros d; simpl.
  - split; [by left | by intros [?|?%elem_of_nil]].
  - rewrite IH, dict_keys_set, elem_of_cons. case_decide as H.
    + split; [intros [?|?]; auto | intros [?|[->|?]]; auto].
    + rewrite elem_of_app, list_elem_of_singleton. tauto.
Qed.

Lemma dict_get_update_notin k d l :
  k ∉ l.*1 → dict_get k (dict_update d l) = dict_get k d.
Proof.
  revert d. induction l as [ |[k0 v0] l IH]; intros d; simpl; [done|].
  intros [? ?]%not_elem_of_cons. rewrite IH by done.
  rewrite dict_get_set. by rewrite decide_False.
Qed.

Lemma dict_get_update_in k v d l :
  NoDup l.*1 → (k, v) ∈ l → dict_get k (dict_update d l) = Some v.
Proof.
  revert d. induction l as [ |[k0 v0] l IH]; intros d; simpl.
  - by intros _ ?%elem_of_nil.
  - intros [Hk0 Hl]%NoDup_cons [[= -> ->]|Hin]%elem_of_cons.
    + rewrite dict_get_update_notin by done. rewrite dict_get_set.
      by rewrite decide_True.
    + by apply IH.
Qed.

(** Whatever a dictionary holds after an update was there before or is one
    of the entries. *)
Lemma dict_get_update_Some k v d l :
  dict_get k (dict_update d l) = Some v → (k, v) ∈ l ∨ dict_get k d = Some v.
Proof.
  revert d. induction l as [ |[k0 v0] l IH]; intros d; simpl; [by right|].
  intros [H|H]%IH.
  - left. by right.
  - rewrite dict_get_set in H. case_decide; [ |by right].
    injection H as ->. subst. left. left.
Qed.

End dict.

(** ** The walks against their lists *)

(** A fold whose step is itself a fold over [h x] is one fold over the
    concatenation. *)
Lemma foldl_bind {A B C} (f : A → C → A) (g : A → B → A) (h : B → list C)
    (l : list B) (a : A) :
  Forall (λ x, ∀ a, g a x = foldl f a (h x)) l →
  foldl g a l = foldl f a (l ≫= h).
Proof.
  intros H. revert a. induction H as [ |x l Hx _ IH]; intros a; [done | ].
  cbn [foldl]. rewrite bind_cons, foldl_app, <- Hx. apply IH.
Qed.

Lemma list_bind_nil {A B} (f : A → list B) : [] ≫= f = [].
Proof. reflexivity. Qed.

(** Unfolding equations of the recursive walks. *)
Lemma subtree_eq n :
  subtree n = n :: match n_children n with
                   | Some children => children ≫= subtree
                   | None => []
                   end.
Proof. by destruct n. Qed.

Lemma scanned_eq child depth :
  scanned child depth =
  if (5 <? depth)%nat then []
  else child :: match n_children child with
                | Some grandchildren =>
                    grandchildren ≫= (λ gc, scanned gc (S depth))
                | None => []
                end.
Proof. by destruct child. Qed.

Lemma calls_eq n path pg :
  calls n path pg =
  (n, path, pg) ::
  if get_type n =? "GROUP" then []
  else match n_children n with
       | Some children =>
           children ≫= (λ c, calls c (join_path path (get_name n))
                                    (child_group n pg))
       | None => []
       end.
Proof. by destruct n. Qed.

Lemma examine_child_eq child depth acc :
  examine_child child depth acc =
  if (5 <? depth)%nat then acc
  else match n_children child with
       | Some grandchildren =>
           foldl (λ a grandchild, examine_child grandchild (S depth) a)
                 (examine_child_rules child acc) grandchildren
       | None => examine_child_rules child acc
       end.
Proof. by destruct child. Qed.

Lemma analyze_node_eq n path pg self :
  analyze_node n path pg self =
  let self := with_stats incr_total_nodes_scanned self in
  let current_path := join_path path (get_name n) in
  if get_type n =? "GROUP" then
    let self := with_stats incr_groups_analyzed self in
    let '(group_analysis, s) :=
      _analyze_group_content (self_stats self) n current_path in
    let self := with_stats (λ _, s) self in
    match ga_vector_children group_analysis with
    | _ :: _ =>
        foldl (store_vector_child (get_id n) (get_name n) current_path) self
              (ga_vector_children group_analysis)
    | [] => with_stats incr_empty_groups_skipped self
    end
  else
    let self :=
      if _is_pure_vector n && bool_decide (pg = None) then
        Preprocessor
          (incr_individual_vectors_found (self_stats self))
          (individual_vector_children self)
          (dict_set (get_id n) (standalone_entry n current_path).2
             (standalone_vectors self))
      else self in
    match n_children n with
    | Some children =>
        foldl (λ st child, analyze_node child current_path (child_group n pg) st)
              self children
    | None => self
    end.
Proof. by destruct n. Qed.

Lemma examine_child_scanned child :
  ∀ depth acc,
    examine_child child depth acc =
    foldl (λ a c, examine_child_rules c a) acc (scanned child depth).
Proof.
  induction child as [child IH] using node_ind'. intros depth acc.
  rewrite examine_child_eq, scanned_eq.
  destruct (5 <? depth)%nat; [done | ].
  destruct (n_children child) as [l| ]; [ | done].
  cbn [foldl]. apply foldl_bind.
  specialize (IH l eq_refl). eapply Forall_impl; [exact IH | ].
  intros x Hx a. apply Hx.
Qed.

(** The inclusion test of [examine_child] is [_is_pure_vector]. *)
Lemma inclusion_test_pure child :
  (get_type child =? "VECTOR") && _has_solid_fills child && negb (get_isMask child)
  = _is_pure_vector child.
Proof.
  unfold _is_pure_vector.
  destruct (get_type child =? "VECTOR"), (_has_solid_fills child),
    (get_isMask child); reflexivity.
Qed.

Lemma examine_child_rules_vectors child acc :
  vector_children (examine_child_rules child acc) =
  vector_children acc ++
    (if _is_pure_vector child then [descriptor_of child] else []).
Proof.
  unfold examine_child_rules. rewrite inclusion_test_pure.
  destruct (_is_pure_vector child); [done | ].
  rewrite app_nil_r.
  repeat match goal with |- context [if ?b then _ else _] => destruct b end;
    reflexivity.
Qed.

Lemma foldl_rules_vectors l acc :
  vector_children (foldl (λ a c, examine_child_rules c a) acc l) =
  vector_children acc ++
    (descriptor_of <$> filter (λ x, _is_pure_vector x = true) l).
Proof.
  revert acc. induction l as [ |c l IH]; intros acc; cbn [foldl].
  - by rewrite app_nil_r.
  - rewrite IH, examine_child_rules_vectors, filter_cons.
    destruct (_is_pure_vector c) eqn:Hc.
    + rewrite decide_True by done. by rewrite fmap_cons, <- app_assoc.
    + rewrite decide_False by done. by rewrite app_nil_r.
Qed.

(** What [_analyze_group_content] returns as [vector_children]. *)
Lemma analyze_group_content_vectors s g path :
  ga_vector_children (_analyze_group_content s g path).1 =
  descriptor_of <$> filter (λ x, _is_pure_vector x = true) (group_scanned g).
Proof.
  unfold _analyze_group_content, group_scanned. cbn [fst ga_vector_children].
  rewrite (foldl_bind (λ a c, examine_child_rules c a) _ (λ c, scanned c 0)).
  - by rewrite foldl_rules_vectors.
  - apply Forall_forall. intros x _ a. apply examine_child_scanned.
Qed.

Lemma foldl_store_vector_child g_id g_name current_path vcs self :
  let r := foldl (store_vector_child g_id g_name current_path) self vcs in
  individual_vector_children r =
    dict_update (individual_vector_children self)
      ((λ vc, (vd_id vc,
               VectorRecord (vd_id vc) (vd_name vc) (vd_type vc)
                 (current_path +:+ "/" +:+ vd_name vc) (vd_bounds vc)
                 (Some g_id) (Some g_name) "VECTOR_CHILD_FROM_GROUP")) <$> vcs) ∧
  standalone_vectors r = standalone_vectors self.
Proof.
  revert self. induction vcs as [ |vc vcs IH]; intros self; cbn [foldl]; [done | ].
  destruct (IH (store_vector_child g_id g_name current_path self vc)) as [-> ->].
  done.
Qed.

(** The two dictionaries after [analyze_node], as updates by the entries
    of its calls. *)
Lemma analyze_node_dicts n :
  ∀ path pg self,
    individual_vector_children (analyze_node n path pg self) =
      dict_update (individual_vector_children self)
                  (calls n path pg ≫= claimed_by) ∧
    standalone_vectors (analyze_node n path pg self) =
      dict_update (standalone_vectors self)
                  (calls n path pg ≫= standalone_by).
Proof.
  induction n as [n IH] using node_ind'. intros path pg self.
  rewrite analyze_node_eq, calls_eq. cbv zeta.
  destruct (get_type n =? "GROUP") eqn:Hg.
  - rewrite !bind_cons, !list_bind_nil, !app_nil_r. cbn [claimed_by standalone_by].
    rewrite Hg.
    destruct (_analyze_group_content _ n (join_path path (get_name n)))
      as [ga s] eqn:Hga.
    assert (Hv : ga_vector_children ga =
                 descriptor_of <$> filter (λ x, _is_pure_vector x = true)
                                          (group_scanned n)).
    { rewrite <- (analyze_group_content_vectors
                    (self_stats (with_stats incr_groups_analyzed
                       (with_stats incr_total_nodes_scanned self)))
                    n (join_path path (get_name n))).
      by rewrite Hga. }
    rewrite <- Hv. destruct (ga_vector_children ga) as [ |vc vcs] eqn:Hvcs.
    + done.
    + rewrite <- Hvcs.
      match goal with |- context [foldl ?f ?a ?l] =>
        destruct (foldl_store_vector_child (get_id n) (get_name n)
                    (join_path path (get_name n)) l a) as [-> ->]
      end.
      done.
  - rewrite !bind_cons. cbn [claimed_by standalone_by]. rewrite Hg.
    rewrite app_nil_l.
    set (self1 := if _is_pure_vector n && bool_decide (pg = None) then _ else _).
    assert (H1 : individual_vector_children self1 = individual_vector_children self
                 ∧ standalone_vectors self1 =
                   dict_update (standalone_vectors self)
                     (if _is_pure_vector n && bool_decide (pg = None)
                      then [standalone_entry n (join_path path (get_name n))]
                      else [])).
    { subst self1. destruct (_is_pure_vector n && bool_decide (pg = None)); done. }
    destruct H1 as [H1 H2]. destruct (n_children n) as [l| ].
    + specialize (IH l eq_refl).
      rewrite dict_update_app, <- H2, <- H1.
      generalize self1. clear -IH.
      induction IH as [ |c l Hc _ IHl]; intros self1; cbn [foldl]; [done | ].
      rewrite !bind_cons, !bind_app, !dict_update_app.
      destruct (Hc (join_path path (get_name n)) (child_group n pg) self1)
        as [<- <-].
      apply IHl.
    + rewrite list_bind_nil, app_nil_r. by rewrite H1, H2.
Qed.

Lemma analysis_dicts data :
  individual_vector_children (analysis data) =
    dict_update [] (file_calls data ≫= claimed_by) ∧
  standalone_vectors (analysis data) =
    dict_update [] (file_calls data ≫= standalone_by).
Proof.
  unfold analysis, _analyze_groups_for_individual_children, file_calls, file_pages.
  cbn [with_stats individual_vector_children standalone_vectors].
  destruct (fd_document data) as [document| ]; [ | done].
  change [] with (individual_vector_children (_reset_stats init)) at 2.
  change [] with (standalone_vectors (_reset_stats init)) at 4.
  generalize (_reset_stats init).
  induction (default [] (n_children document)) as [ |page l IH]; intros self;
    cbn [foldl]; [done | ].
  rewrite !bind_cons, !bind_app, !dict_update_app.
  destruct (analyze_node_dicts page "" None self) as [<- <-]. apply IH.
Qed.

(** ** Which nodes the entries come from *)

Lemma bind_sublist_pointwise {A B} (f g : A → list B) (l : list A) :
  Forall (λ x, f x `sublist_of` g x) l → l ≫= f `sublist_of` l ≫= g.
Proof.
  induction 1 as [ |x l Hx _ IH]; [done | ].
  rewrite !bind_cons. by apply sublist_app.
Qed.

Lemma scanned_sublist child : ∀ depth, scanned child depth `sublist_of` subtree child.
Proof.
  induction child as [child IH] using node_ind'. intros depth.
  rewrite scanned_eq, subtree_eq. destruct (5 <? depth)%nat.
  - apply sublist_nil_l.
  - apply sublist_skip. destruct (n_children child) as [l| ]; [ | done].
    apply bind_sublist_pointwise. eapply Forall_impl; [exact (IH l eq_refl) | ].
    intros x Hx. apply Hx.
Qed.

Lemma group_scanned_sublist g : group_scanned g `sublist_of` subtree g.
Proof.
  unfold group_scanned. rewrite subtree_eq. apply sublist_cons.
  destruct (n_children g) as [l| ]; [ | done]. cbn [default].
  apply bind_sublist_pointwise, Forall_forall. intros x _. apply scanned_sublist.
Qed.

Lemma claimed_by_keys n path pg :
  (claimed_by (n, path, pg)).*1 =
  if get_type n =? "GROUP"
  then get_id <$> filter (λ x, _is_pure_vector x = true) (group_scanned n)
  else [].
Proof.
  cbn [claimed_by]. destruct (get_type n =? "GROUP"); [ | done].
  rewrite <- !list_fmap_compose. done.
Qed.

Lemma standalone_by_keys n path pg :
  (standalone_by (n, path, pg)).*1 =
  if get_type n =? "GROUP" then []
  else if _is_pure_vector n && bool_decide (pg = None) then [get_id n] else [].
Proof.
  cbn [standalone_by]. destruct (get_type n =? "GROUP"); [done | ].
  by destruct (_is_pure_vector n && bool_decide (pg = None)).
Qed.

Lemma submseteq_NoDup {A} (l k : list A) : l ⊆+ k → NoDup k → NoDup l.
Proof.
  intros [k' Hk]%submseteq_Permutation Hnd. rewrite Hk in Hnd.
  by apply NoDup_app in Hnd as (? & _ & _).
Qed.

Lemma app_interleave {A} (a1 a2 b1 b2 : list A) :
  (a1 ++ a2) ++ (b1 ++ b2) ≡ₚ (a1 ++ b1) ++ (a2 ++ b2).
Proof.
  rewrite <- !app_assoc. f_equiv. rewrite !app_assoc. f_equiv.
  apply Permutation_app_comm.
Qed.

(** The keys written while walking a tree are ids of distinct nodes of the
    tree: as a multiset they are contained in the ids of its nodes. *)
Lemma entries_submseteq n :
  ∀ path pg,
    (calls n path pg ≫= claimed_by).*1 ++ (calls n path pg ≫= standalone_by).*1
    ⊆+ get_id <$> subtree n.
Proof.
  induction n as [n IH] using node_ind'. intros path pg.
  rewrite calls_eq, subtree_eq, !bind_cons, !fmap_app, fmap_cons.
  rewrite claimed_by_keys, standalone_by_keys.
  destruct (get_type n =? "GROUP").
  - rewrite !list_bind_nil, !fmap_nil, !app_nil_r. apply submseteq_cons.
    apply sublist_submseteq.
    change (get_id <$> filter (λ x, _is_pure_vector x = true) (group_scanned n)
            `sublist_of` get_id <$> (match n_children n with
                                     | Some l => l ≫= subtree
                                     | None => []
                                     end)).
    apply fmap_sublist. etrans; [apply sublist_filter | ].
    unfold group_scanned. destruct (n_children n) as [l| ]; [ | done].
    apply bind_sublist_pointwise, Forall_forall. intros x _. apply scanned_sublist.
  - rewrite app_nil_l.
    set (own := if _is_pure_vector n && bool_decide (pg = None)
                then [get_id n] else []).
    set (kids := match n_children n with
                 | Some l => l ≫= _ | None => [] end).
    rewrite (app_assoc _ own), (Permutation_app_comm _ own), <- app_assoc.
    change (get_id n :: ?l) with ([get_id n] ++ l). apply submseteq_app.
    { subst own. destruct (_ && _); [done | apply submseteq_nil_l]. }
    subst kids. destruct (n_children n) as [l| ]; [ | done].
    specialize (IH l eq_refl). clear -IH.
    induction IH as [ |c l Hc _ IHl]; [done | ].
    rewrite !bind_cons, !bind_app, !fmap_app, app_interleave.
    apply submseteq_app; [apply Hc | apply IHl].
Qed.

Lemma file_entries_submseteq data :
  (file_calls data ≫= claimed_by).*1 ++ (file_calls data ≫= standalone_by).*1
  ⊆+ get_id <$> file_nodes data.
Proof.
  unfold file_calls, file_nodes.
  induction (file_pages data) as [ |page l IH]; [done | ].
  rewrite !bind_cons, !bind_app, !fmap_app, app_interleave.
  apply submseteq_app; [apply entries_submseteq | apply IH].
Qed.

(** With distinct node ids no key is written twice, and no key is written
    to both dictionaries. *)
Lemma file_entries_NoDup data :
  NoDup (get_id <$> file_nodes data) →
  NoDup (file_calls data ≫= claimed_by).*1 ∧
  NoDup (file_calls data ≫= standalone_by).*1 ∧
  ∀ k, k ∈ (file_calls data ≫= claimed_by).*1 →
       k ∉ (file_calls data ≫= standalone_by).*1.
Proof.
  intros H. pose proof (file_entries_submseteq data) as Hsub.
  assert (Hnd : NoDup ((file_calls data ≫= claimed_by).*1 ++
                       (file_calls data ≫= standalone_by).*1)).
  { eapply submseteq_NoDup; [exact Hsub | exact H]. }
  apply NoDup_app in Hnd as (? & ? & ?). done.
Qed.

(** Every call is made on a node of the tree. *)
Lemma calls_subtree n : ∀ path pg c, c ∈ calls n path pg → c.1.1 ∈ subtree n.
Proof.
  induction n as [n IH] using node_ind'. intros path pg c.
  rewrite calls_eq, subtree_eq. intros [->|Hc]%elem_of_cons; [left | right].
  destruct (get_type n =? "GROUP"); [by apply elem_of_nil in Hc | ].
  destruct (n_children n) as [l| ]; [ | by apply elem_of_nil in Hc].
  apply list_elem_of_bind in Hc as (x & Hc & Hx).
  apply list_elem_of_bind. exists x. split; [ | done].
  specialize (IH l eq_refl). rewrite Forall_forall in IH. by eapply IH.
Qed.

Lemma file_calls_nodes data c : c ∈ file_calls data → c.1.1 ∈ file_nodes data.
Proof.
  unfold file_calls, file_nodes. intros (page & Hc & Hp)%list_elem_of_bind.
  apply list_elem_of_bind. exists page. split; [ | done].
  by eapply calls_subtree.
Qed.

Lemma subtree_trans x n : x ∈ subtree n → ∀ y, y ∈ subtree x → y ∈ subtree n.
Proof.
  induction n as [n IH] using node_ind'. rewrite (subtree_eq n).
  intros [->|Hx]%elem_of_cons y Hy; [by rewrite <- subtree_eq | ].
  right. destruct (n_children n) as [l| ]; [ | by apply elem_of_nil in Hx].
  apply list_elem_of_bind in Hx as (c & Hx & Hc). apply list_elem_of_bind.
  exists c. split; [ | done].
  specialize (IH l eq_refl). rewrite Forall_forall in IH. by eapply IH.
Qed.

(** Every entry of either dictionary is the entry of a qualifying node of
    the file. *)
Lemma claimed_entry_node data k r :
  (k, r) ∈ file_calls data ≫= claimed_by →
  ∃ g path pg x,
    (g, path, pg) ∈ file_calls data ∧ get_type g = "GROUP" ∧
    x ∈ group_scanned g ∧ _is_pure_vector x = true ∧ x ∈ file_nodes data ∧
    (k, r) = child_entry g (join_path path (get_name g)) (descriptor_of x).
Proof.
  intros ([[g path] pg] & Hkr & Hc)%list_elem_of_bind. cbn [claimed_by] in Hkr.
  destruct (String.eqb_spec (get_type g) "GROUP") as [Hg| ];
    [ | by apply elem_of_nil in Hkr].
  apply list_elem_of_fmap in Hkr as (vc & -> & Hvc).
  apply list_elem_of_fmap in Hvc as (x & -> & Hx).
  apply list_elem_of_filter in Hx as [Hp Hx].
  exists g, path, pg, x. split_and!; try done.
  apply file_calls_nodes in Hc as Hgn. cbn [fst] in Hgn.
  unfold file_nodes in *. apply list_elem_of_bind in Hgn as (page & Hgn & Hpage).
  apply list_elem_of_bind. exists page. split; [ | done].
  eapply subtree_trans; [exact Hgn | ].
  eapply elem_of_sublist; [exact Hx | apply group_scanned_sublist].
Qed.

Lemma standalone_entry_node data k r :
  (k, r) ∈ file_calls data ≫= standalone_by →
  ∃ n path,
    (n, path, None) ∈ file_calls data ∧ _is_pure_vector n = true ∧
    n ∈ file_nodes data ∧
    (k, r) = standalone_entry n (join_path path (get_name n)).
Proof.
  intros ([[n path] pg] & Hkr & Hc)%list_elem_of_bind. cbn [standalone_by] in Hkr.
  destruct (get_type n =? "GROUP"); [by apply elem_of_nil in Hkr | ].
  destruct (_is_pure_vector n) eqn:Hp; [ | by apply elem_of_nil in Hkr].
  cbn [andb] in Hkr. case_bool_decide as Hpg; [ | by apply elem_of_nil in Hkr].
  subst pg. apply list_elem_of_singleton in Hkr as ->.
  exists n, path. split_and!; try done. by apply file_calls_nodes in Hc.
Qed.

(** ** The two output sections *)

Lemma foldl_dict_set_map {V W} (f : string → V → W) (d0 : pydict W) (l : pydict V) :
  foldl (λ d kv, dict_set kv.1 (f kv.1 kv.2) d) d0 l =
  dict_update d0 ((λ kv, (kv.1, f kv.1 kv.2)) <$> l).
Proof. revert d0. induction l as [ |kv l IH]; intros d0; [done | apply IH]. Qed.

Lemma dict_get_update_map {V W} (f : string → V → W) (d0 : pydict W)
    (l : pydict V) (k : string) :
  NoDup (dict_keys l) →
  dict_get k (dict_update d0 ((λ kv, (kv.1, f kv.1 kv.2)) <$> l)) =
  match dict_get k l with Some v => Some (f k v) | None => dict_get k d0 end.
Proof.
  intros Hnd.
  assert (Hk : ((λ kv : string * V, (kv.1, f kv.1 kv.2)) <$> l).*1 = dict_keys l).
  { unfold dict_keys. rewrite <- list_fmap_compose. done. }
  destruct (dict_get k l) as [v| ] eqn:Hg.
  - apply dict_get_update_in; [by rewrite Hk | ].
    apply list_elem_of_fmap. exists (k, v). split; [done | ].
    by apply dict_get_Some_elem.
  - apply dict_get_update_notin. rewrite Hk. by apply dict_get_None.
Qed.

Lemma child_based_svg_downloads_eq self :
  child_based_svg_downloads self =
  dict_update
    (dict_update [] ((λ kv, (kv.1, child_download kv.1 kv.2)) <$>
                       individual_vector_children self))
    ((λ kv, (kv.1, standalone_download kv.1 kv.2)) <$> standalone_vectors self).
Proof.
  unfold child_based_svg_downloads. by rewrite !foldl_dict_set_map.
Qed.

Lemma downloads_NoDup self : NoDup (dict_keys (child_based_svg_downloads self)).
Proof.
  rewrite child_based_svg_downloads_eq. do 2 apply dict_update_NoDup.
  apply NoDup_nil_2.
Qed.

Lemma downloads_keys self k :
  k ∈ dict_keys (child_based_svg_downloads self) ↔
  k ∈ dict_keys (individual_vector_children self) ∨
  k ∈ dict_keys (standalone_vectors self).
Proof.
  rewrite child_based_svg_downloads_eq, !dict_update_keys.
  unfold dict_keys. rewrite <- !list_fmap_compose. cbn [fmap list_fmap].
  rewrite elem_of_nil. tauto.
Qed.

(** An entry of [standalone_vectors] wins over one of
    [individual_vector_children] under the same key. *)
Lemma downloads_get self k :
  NoDup (dict_keys (individual_vector_children self)) →
  NoDup (dict_keys (standalone_vectors self)) →
  dict_get k (child_based_svg_downloads self) =
  match dict_get k (standalone_vectors self) with
  | Some v => Some (standalone_download k v)
  | None => child_download k <$> dict_get k (individual_vector_children self)
  end.
Proof.
  intros H1 H2. rewrite child_based_svg_downloads_eq.
  rewrite (dict_get_update_map standalone_download) by done.
  destruct (dict_get k (standalone_vectors self)); [done | ].
  rewrite (dict_get_update_map child_download) by done.
  by destruct (dict_get k (individual_vector_children self)).
Qed.

(** Every entry of [_svgDownloads] is built from its own key. *)
Lemma downloads_entry self k dl :
  (k, dl) ∈ child_based_svg_downloads self →
  sd_node_id dl = k ∧ sd_filename dl = _generate_filename k ∧
  sd_type dl = "VECTOR" ∧ sd_is_group dl = false.
Proof.
  intros Hin. pose proof (downloads_NoDup self) as Hnd.
  apply (dict_get_elem_NoDup _ _ _ Hnd) in Hin.
  rewrite child_based_svg_downloads_eq in Hin.
  apply dict_get_update_Some in Hin as [Hin|Hin].
  { apply list_elem_of_fmap in Hin as ([k' v] & [= -> ->] & _). done. }
  apply dict_get_update_Some in Hin as [Hin|Hin]; [ | done].
  apply list_elem_of_fmap in Hin as ([k' v] & [= -> ->] & _). done.
Qed.

Lemma svg_mapping_of_eq d :
  svg_mapping_of d =
  dict_update []
    ((λ kv, (replace_colon kv.1,
             SvgMapping (sd_filename kv.2) false (sd_component_name kv.2))) <$> d).
Proof.
  unfold svg_mapping_of, dict_update. generalize (@nil (string * svg_mapping)).
  induction d as [ |kv d IH]; intros m; [done | apply IH].
Qed.

Lemma mapping_NoDup d : NoDup (dict_keys (svg_mapping_of d)).
Proof. rewrite svg_mapping_of_eq. apply dict_update_NoDup, NoDup_nil_2. Qed.

Lemma mapping_keys d k :
  k ∈ dict_keys (svg_mapping_of d) ↔ ∃ id, id ∈ dict_keys d ∧ k = replace_colon id.
Proof.
  rewrite svg_mapping_of_eq, dict_update_keys. unfold dict_keys.
  rewrite <- list_fmap_compose. split.
  - intros [?%elem_of_nil|Hk]; [done | ].
    apply list_elem_of_fmap in Hk as ([id dl] & -> & Hin).
    exists id. split; [ | done]. apply list_elem_of_fmap. by exists (id, dl).
  - intros (id & Hid & ->). right.
    apply list_elem_of_fmap in Hid as ([id' dl] & -> & Hin).
    apply list_elem_of_fmap. by exists (id', dl).
Qed.

Lemma mapping_get_Some d k e :
  dict_get k (svg_mapping_of d) = Some e →
  ∃ id dl, (id, dl) ∈ d ∧ k = replace_colon id ∧
           e = SvgMapping (sd_filename dl) false (sd_component_name dl).
Proof.
  rewrite svg_mapping_of_eq. intros [Hin|Hin]%dict_get_update_Some; [ | done].
  apply list_elem_of_fmap in Hin as ([id dl] & [= -> ->] & Hin).
  by exists id, dl.
Qed.

(** ** The object store *)

Lemma lookup_ext0 {A} (h : list A) a l : (h ++ a :: l) !! length h = Some a.
Proof. by apply list_lookup_middle. Qed.

Lemma lookup_ext1 {A} (h : list A) a b l :
  (h ++ a :: b :: l) !! S (length h) = Some b.
Proof.
  change (h ++ a :: b :: l) with (h ++ [a] ++ b :: l). rewrite app_assoc.
  apply list_lookup_middle. rewrite length_app. cbn. lia.
Qed.

Lemma insert_ext0 {A} (h : list A) a l x :
  <[length h := x]> (h ++ a :: l) = h ++ x :: l.
Proof. rewrite insert_app_r_alt by lia. by rewrite Nat.sub_diag. Qed.

Lemma insert_ext1 {A} (h : list A) a b l x :
  <[S (length h) := x]> (h ++ a :: b :: l) = h ++ a :: x :: l.
Proof.
  rewrite insert_app_r_alt by lia.
  by replace (S (length h) - length h) with 1 by lia.
Qed.

Lemma lookup_ext_old {A} (h ext : list A) l o :
  h !! l = Some o → (h ++ ext) !! l = Some o.
Proof. intros H. by apply lookup_app_l_Some. Qed.

(** What a run returns and what it leaves in the store: the old objects
    untouched, followed by the two new dictionaries. *)
Lemma preprocess_figma_json_spec self raw now h data :
  valid_input raw h data →
  ∃ opt ml ext,
    preprocess_figma_json self raw now h = Some (opt, analysis data, h ++ ext) ∧
    (length h ≤ opt)%nat ∧ (length h ≤ ml)%nat ∧
    read_file opt (h ++ ext) =
      Some (FigmaFile (fd_document data)
              (Some (child_based_svg_downloads (analysis data)))
              (Some (svg_mapping_of (child_based_svg_downloads (analysis data))))
              (Some ml) (fd_other data)) ∧
    read_meta ml (h ++ ext) =
      Some (stamped now (self_stats (analysis data)) (original_meta h data)).
Proof.
  intros [Hread Hmeta]. unfold preprocess_figma_json. rewrite Hread.
  cbn [mbind option_bind]. change (_reset_stats self) with (_reset_stats init).
  fold (analysis data). generalize (analysis data). intros A.
  unfold _generate_child_based_json, deep_copy. rewrite Hread.
  cbn [mbind option_bind]. unfold original_meta.
  destruct data as [doc dls mp md other]. cbn [fd_metadata] in *.
  destruct md as [ml0| ].
  - destruct (Hmeta ml0 eq_refl) as [m0 Hm0]. rewrite Hm0.
    cbn [mbind option_bind alloc set_metadata fd_document fd_svgDownloads
         fd_svgMapping fd_other default].
    rewrite length_app, <- app_assoc. cbn [length app]. rewrite Nat.add_1_r.
    unfold read_file at 1. rewrite lookup_ext1. cbn [mbind option_bind].
    rewrite insert_ext1.
    unfold _add_preprocessing_metadata, read_file at 1. rewrite lookup_ext1.
    cbn [mbind option_bind set_svgMapping set_svgDownloads set_metadata
         fd_metadata fd_document fd_svgDownloads fd_svgMapping fd_other].
    unfold read_meta at 1. rewrite lookup_ext0. cbn [mbind option_bind].
    rewrite insert_ext0.
    eexists (S (length h)), (length h), _. split; [reflexivity | ].
    split; [lia | ]. split; [lia | ].
    unfold read_file, read_meta. rewrite lookup_ext1, lookup_ext0. done.
  - cbn [mbind option_bind alloc set_metadata fd_document fd_svgDownloads
         fd_svgMapping fd_other default].
    unfold read_file at 1. rewrite lookup_ext0. cbn [mbind option_bind].
    rewrite insert_ext0.
    unfold _add_preprocessing_metadata, read_file at 1. rewrite lookup_ext0.
    cbn [mbind option_bind set_svgMapping set_svgDownloads set_metadata
         fd_metadata fd_document fd_svgDownloads fd_svgMapping fd_other alloc].
    rewrite length_app, <- app_assoc. cbn [length app]. rewrite Nat.add_1_r.
    rewrite insert_ext0.
    unfold read_meta at 1. rewrite lookup_ext1. cbn [mbind option_bind].
    rewrite insert_ext1.
    eexists (length h), (S (length h)), _. split; [reflexivity | ].
    split; [lia | ]. split; [lia | ].
    unfold read_file, read_meta. rewrite lookup_ext1, lookup_ext0. done.
Qed.

(** ** File names *)

Lemma string_length_app a b :
  String.length (a +:+ b) = String.length a + String.length b.
Proof. induction a as [ |c a IH]; simpl; [done | by f_equal]. Qed.

Lemma string_app_inj_r s a b : a +:+ s = b +:+ s → a = b.
Proof.
  revert b. induction a as [ |c a IH]; intros [ |c' b] H.
  - done.
  - apply (f_equal String.length) in H.
    rewrite !string_length_app in H. simpl in H. lia.
  - apply (f_equal String.length) in H.
    rewrite !string_length_app in H. simpl in H. lia.
  - simpl in H. injection H as -> H. f_equal. by apply IH.
Qed.

Lemma replace_colon_get s i :
  String.get i (replace_colon s) = colon_to_underscore <$> String.get i s.
Proof.
  revert i. induction s as [ |c s IH]; intros [ |i]; simpl; done.
Qed.

Lemma replace_colon_length s : String.length (replace_colon s) = String.length s.
Proof. induction s as [ |c s IH]; simpl; [done | by f_equal]. Qed.

Lemma replace_colon_no_colon s : contains_colon (replace_colon s) = false.
Proof.
  induction s as [ |c s IH]; simpl; [done | ]. rewrite IH, orb_false_r.
  destruct (Ascii.eqb_spec c ":"); [done | by apply Ascii.eqb_neq].
Qed.

(** On ids without ['_'] the replacement loses nothing. *)
Lemma replace_colon_inj a b :
  contains_underscore a = false → contains_underscore b = false →
  replace_colon a = replace_colon b → a = b.
Proof.
  revert b. induction a as [ |c a IH]; intros [ |c' b]; simpl; try done.
  intros [Hc Ha]%orb_false_elim [Hc' Hb]%orb_false_elim [= Hcc Hab].
  f_equal; [ | by apply IH].
  apply Ascii.eqb_neq in Hc, Hc'.
  destruct (Ascii.eqb_spec c ":"), (Ascii.eqb_spec c' ":"); congruence.
Qed.

Lemma contains_underscore_app a b :
  contains_underscore (a +:+ b) = contains_underscore a || contains_underscore b.
Proof. induction a as [ |c a IH]; simpl; [done | by rewrite IH, orb_assoc]. Qed.

Lemma is_digit_not_underscore c : is_digit c = true → Ascii.eqb c "_" = false.
Proof.
  intros H. apply Ascii.eqb_neq. intros ->. vm_compute in H. done.
Qed.

Lemma all_digits_no_underscore s : all_digits s = true → contains_underscore s = false.
Proof.
  induction s as [ |c s IH]; simpl; [done | ].
  intros [Hc Hs]%andb_true_iff. by rewrite is_digit_not_underscore, IH.
Qed.

Lemma native_id_no_underscore s : native_id_format s → contains_underscore s = false.
Proof.
  intros (major & minor & -> & Hmaj & Hmin).
  rewrite !contains_underscore_app.
  rewrite (all_digits_no_underscore major), (all_digits_no_underscore minor) by done.
  done.
Qed.

(** C6. The file name is a function of the node id alone: it is the id
    with every [":"] replaced by ["_"], character by character, followed by
    [".svg"]; ["48:55"] gives ["48_55.svg"] and ["12:171"] gives
    ["12_171.svg"]; [sanitize_svg_filename] computes the same name whatever
    the display name; and two ids of the native format (more generally, two
    ids without ["_"]) with the same file name are equal. *)
Theorem C6_filename_is_injective_function_of_id (a b name : string) :
  _generate_filename a = replace_colon a +:+ ".svg" ∧
  (∀ i, String.get i (replace_colon a) = colon_to_underscore <$> String.get i a) ∧
  contains_colon (replace_colon a) = false ∧
  _generate_filename "48:55" = "48_55.svg" ∧
  _generate_filename "12:171" = "12_171.svg" ∧
  sanitize_svg_filename a name = _generate_filename a ∧
  (native_id_format a → native_id_format b →
   _generate_filename a = _generate_filename b → a = b) ∧
  (contains_underscore a = false → contains_underscore b = false →
   _generate_filename a = _generate_filename b → a = b).
Proof.
  split_and!; try done.
  - intros i. apply replace_colon_get.
  - apply replace_colon_no_colon.
  - intros Ha Hb H. apply string_app_inj_r in H.
    apply replace_colon_inj; [by apply native_id_no_underscore.. | done].
  - intros Ha Hb H. apply string_app_inj_r in H. by apply replace_colon_inj.
Qed.

Lemma native_id_48_55 : native_id_format "48:55".
Proof. by exists "48", "55". Defined.

Lemma native_id_12_171 : native_id_format "12:171".
Proof. by exists "12", "171". Defined.

Lemma C6_filename_witness :
  native_id_format "48:55" ∧ native_id_format "12:171" ∧
  (_generate_filename "48:55" = _generate_filename "12:171" → "48:55" = "12:171").
Proof.
  split; [exact native_id_48_55 | ]. split; [exact native_id_12_171 | ].
  destruct (C6_filename_is_injective_function_of_id "48:55" "12:171" "")
    as (_ & _ & _ & _ & _ & _ & H & _).
  exact (H native_id_48_55 native_id_12_171).
Defined.

(** ** The strict classifier *)

Lemma any_solid_spec fills :
  any_solid fills = true ↔ ∃ fill, fill ∈ fills ∧ paint_type fill = Some "SOLID".
Proof.
  induction fills as [ |fill fills IH]; simpl.
  - split; [done | by intros (? & ?%elem_of_nil & _)].
  - destruct (paint_type fill) as [t| ] eqn:Ht.
    + destruct (String.eqb_spec t "SOLID") as [->|Hne].
      * split; [ | done]. intros _. exists fill. split; [left | done].
      * rewrite IH. split.
        -- intros (f & Hf & Hs). exists f. split; [by right | done].
        -- intros (f & [->|Hf]%elem_of_cons & Hs); [congruence | by exists f].
    + rewrite IH. split.
      * intros (f & Hf & Hs). exists f. split; [by right | done].
      * intros (f & [->|Hf]%elem_of_cons & Hs); [congruence | by exists f].
Qed.

Lemma get_type_Some n t : t ≠ "" → get_type n = t ↔ n_type n = Some t.
Proof.
  intros Ht. unfold get_type. destruct (n_type n) as [t'| ]; simpl.
  - split; congruence.
  - split; [congruence | done].
Qed.

Lemma get_isMask_false n : get_isMask n = false ↔ n_isMask n ≠ Some true.
Proof. unfold get_isMask. by destruct (n_isMask n) as [[ | ]| ]. Qed.

Lemma is_pure_vector_spec n :
  _is_pure_vector n = true ↔
  n_type n = Some "VECTOR" ∧
  (∃ fill, fill ∈ default [] (n_fills n) ∧ paint_type fill = Some "SOLID") ∧
  n_isMask n ≠ Some true.
Proof.
  rewrite <- get_isMask_false, <- any_solid_spec, <- get_type_Some by done.
  unfold _is_pure_vector. fold (_has_solid_fills n).
  destruct (String.eqb_spec (get_type n) "VECTOR"), (_has_solid_fills n),
    (get_isMask n); simpl; split; try done; intros (? & ? & ?); done.
Qed.

Lemma image_only_not_pure n :
  (∀ fill, fill ∈ default [] (n_fills n) → paint_type fill = Some "IMAGE") →
  _is_pure_vector n = false.
Proof.
  intros H. apply not_true_is_false. intros (_ & (f & Hf & Hs) & _)%is_pure_vector_spec.
  apply H in Hf. congruence.
Qed.

Lemma NoDup_fmap_elem_inj {A B} (f : A → B) (l : list A) x y :
  NoDup (f <$> l) → x ∈ l → y ∈ l → f x = f y → x = y.
Proof.
  induction l as [ |a l IH]; [by intros _ ?%elem_of_nil | ].
  rewrite fmap_cons. intros [Ha Hl]%NoDup_cons.
  intros [->|Hx]%elem_of_cons [->|Hy]%elem_of_cons Hf; [done | | | by apply IH].
  - exfalso. apply Ha. rewrite Hf. by apply list_elem_of_fmap_2.
  - exfalso. apply Ha. rewrite <- Hf. by apply list_elem_of_fmap_2.
Qed.

Lemma entry_in_keys {V} (k : string) (v : V) (l : list (string * V)) :
  (k, v) ∈ l → k ∈ l.*1.
Proof. intros H. apply list_elem_of_fmap. by exists (k, v). Qed.

Lemma key_has_entry {V} (k : string) (l : list (string * V)) :
  k ∈ l.*1 → ∃ v, (k, v) ∈ l.
Proof. intros ([k' v] & -> & H)%list_elem_of_fmap. by exists v. Qed.

(** Each key of either dictionary is the id of a qualifying node. *)
Lemma claimed_key_sound data k :
  k ∈ dict_keys (individual_vector_children (analysis data)) →
  ∃ m, m ∈ file_nodes data ∧ get_id m = k ∧ _is_pure_vector m = true.
Proof.
  destruct (analysis_dicts data) as [-> _]. rewrite dict_update_keys.
  intros [?%elem_of_nil|Hk]; [done | ].
  apply key_has_entry in Hk as [r Hk].
  apply claimed_entry_node in Hk as (g & path & pg & x & _ & _ & _ & Hp & Hx & Heq).
  exists x. injection Heq as -> _. done.
Qed.

Lemma standalone_key_sound data k :
  k ∈ dict_keys (standalone_vectors (analysis data)) →
  ∃ m, m ∈ file_nodes data ∧ get_id m = k ∧ _is_pure_vector m = true.
Proof.
  destruct (analysis_dicts data) as [_ ->]. rewrite dict_update_keys.
  intros [?%elem_of_nil|Hk]; [done | ].
  apply key_has_entry in Hk as [r Hk].
  apply standalone_entry_node in Hk as (n & path & _ & Hp & Hn & Heq).
  exists n. injection Heq as -> _. done.
Qed.

Lemma downloads_key_sound data k :
  k ∈ dict_keys (child_based_svg_downloads (analysis data)) →
  ∃ m, m ∈ file_nodes data ∧ get_id m = k ∧ _is_pure_vector m = true.
Proof.
  intros [H|H]%downloads_keys;
    [by apply claimed_key_sound | by apply standalone_key_sound].
Qed.

(** What a run produces, for the statements below. *)
Lemma run_produces_analysis self raw now h data :
  valid_input raw h data →
  ∃ out,
    run_produces self raw now h (analysis data) out ∧
    fd_svgDownloads out = Some (child_based_svg_downloads (analysis data)) ∧
    fd_svgMapping out =
      Some (svg_mapping_of (child_based_svg_downloads (analysis data))) ∧
    fd_document out = fd_document data.
Proof.
  intros Hv.
  destruct (preprocess_figma_json_spec self raw now h data Hv)
    as (opt & ml & ext & Hrun & _ & _ & Hout & _).
  eexists. split; [by exists opt, (h ++ ext) | done].
Qed.

(** C3. A node qualifies exactly when its type is VECTOR, one of its fills
    is SOLID and it is not a mask; the group scan appends a node to
    [vector_children] exactly when it qualifies; a VECTOR whose fills are all
    IMAGE does not qualify; every key of [_svgDownloads], of
    [individual_vector_children] and of [standalone_vectors] is the id of a
    qualifying node of the file, so that, ids being distinct, a node that does
    not qualify is in none of them. *)
Theorem C3_export_only_pure_vectors (self : preprocessor) (raw : loc)
    (now : string) (h : heap) (data : figma_file) (n : node) :
  valid_input raw h data →
  (_is_pure_vector n = true ↔
     n_type n = Some "VECTOR" ∧
     (∃ fill, fill ∈ default [] (n_fills n) ∧ paint_type fill = Some "SOLID") ∧
     n_isMask n ≠ Some true) ∧
  (∀ acc, vector_children (examine_child_rules n acc) =
          vector_children acc ++
            (if _is_pure_vector n then [descriptor_of n] else [])) ∧
  ((∀ fill, fill ∈ default [] (n_fills n) → paint_type fill = Some "IMAGE") →
   _is_pure_vector n = false) ∧
  ∃ self' out d,
    run_produces self raw now h self' out ∧ fd_svgDownloads out = Some d ∧
    (∀ k, k ∈ dict_keys d ∨ k ∈ dict_keys (individual_vector_children self')
          ∨ k ∈ dict_keys (standalone_vectors self') →
          ∃ m, m ∈ file_nodes data ∧ get_id m = k ∧ _is_pure_vector m = true) ∧
    (n ∈ file_nodes data → NoDup (get_id <$> file_nodes data) →
     _is_pure_vector n = false →
     (get_id n ∉ dict_keys d) ∧
     (get_id n ∉ dict_keys (individual_vector_children self')) ∧
     (get_id n ∉ dict_keys (standalone_vectors self'))).
Proof.
  intros Hv. split; [apply is_pure_vector_spec | ].
  split; [intros acc; apply examine_child_rules_vectors | ].
  split; [apply image_only_not_pure | ].
  destruct (run_produces_analysis self raw now h data Hv) as (out & Hrun & Hd & _).
  exists (analysis data), out, (child_based_svg_downloads (analysis data)).
  split; [done | ]. split; [done | ].
  assert (Hsound : ∀ k,
    k ∈ dict_keys (child_based_svg_downloads (analysis data))
    ∨ k ∈ dict_keys (individual_vector_children (analysis data))
    ∨ k ∈ dict_keys (standalone_vectors (analysis data)) →
    ∃ m, m ∈ file_nodes data ∧ get_id m = k ∧ _is_pure_vector m = true).
  { intros k [H|[H|H]];
      [by apply downloads_key_sound | by apply claimed_key_sound
      | by apply standalone_key_sound]. }
  split; [exact Hsound | ].
  intros Hn Hnd Hp.
  assert (Hno : ∀ P : Prop, (P → ∃ m, m ∈ file_nodes data ∧ get_id m = get_id n
                                   ∧ _is_pure_vector m = true) → ¬ P).
  { intros P HP HPp. destruct (HP HPp) as (m & Hm & Hid & Hpm).
    assert (m = n) as -> by (by eapply NoDup_fmap_elem_inj). congruence. }
  split_and!; apply Hno; intros H; apply Hsound; auto.
Qed.

(** Closed side conditions on the scenarios. *)
Ltac by_computation := apply (bool_decide_unpack _); vm_compute; exact I.

Lemma valid_input_single (f : figma_file) :
  fd_metadata f = None → valid_input 0 [ObjFile f] f.
Proof. intros H. split; [reflexivity | ]. intros ml Hml. congruence. Defined.

Lemma C3_export_only_pure_vectors_witness :
  valid_input 0 [ObjFile image_vector_file] image_vector_file ∧
  _is_pure_vector image_vector = false ∧
  ∃ self' out d,
    run_produces init 0 "2024-05-01T10:00:00" [ObjFile image_vector_file] self' out ∧
    fd_svgDownloads out = Some d ∧ get_id image_vector ∉ dict_keys d.
Proof.
  pose proof (valid_input_single image_vector_file eq_refl) as Hv.
  split; [exact Hv | ]. split; [reflexivity | ].
  destruct (C3_export_only_pure_vectors init 0 "2024-05-01T10:00:00"
              [ObjFile image_vector_file] image_vector_file image_vector Hv)
    as (_ & _ & _ & self' & out & d & Hrun & Hd & _ & Hex).
  exists self', out, d. split; [exact Hrun | ]. split; [exact Hd | ].
  apply Hex; [ | by_computation | reflexivity].
  unfold file_nodes. simpl. right. right. left.
Defined.

(** ** Exclusion reasons *)

(** C4, as the code has it.  A scanned node that does not qualify is
    recorded under a reason chosen by its type first and its mask flag second:
    TEXT under ["TEXT"] (text counter), RECTANGLE and ELLIPSE under ["SHAPE"]
    (shape counter) whether or not the node is a mask, a mask of any other
    type under ["MASK"] (shape counter), and anything else under its own type
    tag (no counter).  The scan applies these rules to every node it visits. *)
Theorem C4_exclusion_reason_type_before_mask (child : node) (acc : scan) :
  _is_pure_vector child = false →
  let r := examine_child_rules child acc in
  vector_children r = vector_children acc ∧
  (get_type child = "TEXT" →
   non_vector_children r = non_vector_children acc ++ ["TEXT"] ∧
   scan_stats r = incr_text_nodes_filtered (scan_stats acc)) ∧
  (get_type child = "RECTANGLE" ∨ get_type child = "ELLIPSE" →
   non_vector_children r = non_vector_children acc ++ ["SHAPE"] ∧
   scan_stats r = incr_image_shapes_filtered (scan_stats acc)) ∧
  (get_type child ≠ "TEXT" → get_type child ≠ "RECTANGLE" →
   get_type child ≠ "ELLIPSE" → get_isMask child = true →
   non_vector_children r = non_vector_children acc ++ ["MASK"] ∧
   scan_stats r = incr_image_shapes_filtered (scan_stats acc)) ∧
  (get_type child ≠ "TEXT" → get_type child ≠ "RECTANGLE" →
   get_type child ≠ "ELLIPSE" → get_isMask child = false →
   non_vector_children r = non_vector_children acc ++ [get_type child] ∧
   scan_stats r = scan_stats acc) ∧
  (∀ depth acc', examine_child child depth acc' =
                 foldl (λ a c, examine_child_rules c a) acc' (scanned child depth)).
Proof.
  intros Hp r. subst r. unfold examine_child_rules.
  rewrite inclusion_test_pure, Hp.
  split_and!.
  - repeat match goal with |- context [if ?b then _ else _] => destruct b end;
      reflexivity.
  - intros ->. done.
  - intros [-> | ->]; done.
  - intros H1 H2 H3 ->.
    apply String.eqb_neq in H1, H2, H3. rewrite H1, H2, H3. done.
  - intros H1 H2 H3 ->.
    apply String.eqb_neq in H1, H2, H3. rewrite H1, H2, H3. done.
  - apply examine_child_scanned.
Qed.

Lemma C4_exclusion_reason_witness :
  _is_pure_vector mask_rectangle = false ∧
  get_isMask mask_rectangle = true ∧
  non_vector_children (examine_child_rules mask_rectangle (Scan [] [] zero_stats))
  = ["SHAPE"].
Proof.
  split; [reflexivity | ]. split; [reflexivity | ].
  destruct (C4_exclusion_reason_type_before_mask mask_rectangle
              (Scan [] [] zero_stats) eq_refl) as (_ & _ & H & _).
  exact (proj1 (H (or_introl eq_refl))).
Defined.

(** C4 as stated fails: a RECTANGLE that is a mask is recorded under
    ["SHAPE"]; ["MASK"] is not recorded for it. *)
Lemma C4_mask_rectangle_counted_as_shape :
  get_type mask_rectangle = "RECTANGLE" ∧ get_isMask mask_rectangle = true ∧
  non_vector_children (examine_child mask_rectangle 0 (Scan [] [] zero_stats))
  = ["SHAPE"] ∧
  "MASK" ∉ non_vector_children
             (examine_child mask_rectangle 0 (Scan [] [] zero_stats)).
Proof.
  split; [reflexivity | ]. split; [reflexivity | ]. split; [reflexivity | ].
  simpl. intros [[=]|?%elem_of_nil]%elem_of_cons. done.
Qed.

(** ** Nodes without a ['fills'] key *)

Lemma foldl_fmap_ext {A B} (f : A → B → A) (g : B → B) (l : list B) (a : A) :
  Forall (λ x, ∀ a, f a (g x) = f a x) l → foldl f a (g <$> l) = foldl f a l.
Proof.
  intros H. revert a. induction H as [ |x l Hx _ IH]; intros a; [done | ].
  rewrite fmap_cons. cbn [foldl]. rewrite Hx. apply IH.
Qed.

Lemma absent_fills_children n :
  n_children (absent_fills_as_empty n) =
  match n_children n with
  | Some l => Some (absent_fills_as_empty <$> l)
  | None => None
  end.
Proof. destruct n as [? ? ? ? ? ? ? ? [l| ]]; reflexivity. Qed.

Lemma absent_fills_rules n acc :
  examine_child_rules (absent_fills_as_empty n) acc = examine_child_rules n acc.
Proof. destruct n as [? ? ? [fl| ] ? ? ? ? ?]; reflexivity. Qed.

Lemma absent_fills_pure n :
  _is_pure_vector (absent_fills_as_empty n) = _is_pure_vector n.
Proof. destruct n as [? ? ? [fl| ] ? ? ? ? ?]; reflexivity. Qed.

Lemma absent_fills_examine_child child :
  ∀ depth acc,
    examine_child (absent_fills_as_empty child) depth acc =
    examine_child child depth acc.
Proof.
  induction child as [child IH] using node_ind'. intros depth acc.
  rewrite !examine_child_eq, absent_fills_children, absent_fills_rules.
  destruct (5 <? depth)%nat; [done | ].
  destruct (n_children child) as [l| ]; [ | done].
  apply (foldl_fmap_ext (λ a gc, examine_child gc (S depth) a)).
  eapply Forall_impl; [exact (IH l eq_refl) | ]. intros x Hx a. apply Hx.
Qed.

Lemma absent_fills_group_content s g path :
  _analyze_group_content s (absent_fills_as_empty g) path =
  _analyze_group_content s g path.
Proof.
  unfold _analyze_group_content. rewrite absent_fills_children.
  destruct (n_children g) as [l| ]; [ | done]. cbn [default from_option id].
  rewrite (foldl_fmap_ext (λ a c, examine_child c 0 a)); [done | ].
  apply Forall_forall. intros x _ a. apply absent_fills_examine_child.
Qed.

Lemma absent_fills_analyze_node n :
  ∀ path pg self,
    analyze_node (absent_fills_as_empty n) path pg self =
    analyze_node n path pg self.
Proof.
  induction n as [n IH] using node_ind'. intros path pg self.
  rewrite !analyze_node_eq. cbv zeta.
  rewrite absent_fills_children, absent_fills_pure, absent_fills_group_content.
  replace (get_type (absent_fills_as_empty n)) with (get_type n) by by destruct n.
  replace (get_name (absent_fills_as_empty n)) with (get_name n) by by destruct n.
  replace (get_id (absent_fills_as_empty n)) with (get_id n) by by destruct n.
  replace (child_group (absent_fills_as_empty n) pg) with (child_group n pg)
    by by destruct n.
  replace (standalone_entry (absent_fills_as_empty n)) with (standalone_entry n)
    by by destruct n.
  cbv zeta. destruct (get_type n =? "GROUP"); [done | ].
  destruct (n_children n) as [l| ]; [ | done].
  apply (foldl_fmap_ext
           (λ st child, analyze_node child (join_path path (get_name n))
                                     (child_group n pg) st)).
  eapply Forall_impl; [exact (IH l eq_refl) | ]. intros x Hx a. apply Hx.
Qed.

Lemma absent_fills_analysis self data :
  _analyze_groups_for_individual_children self (file_absent_fills_as_empty data) =
  _analyze_groups_for_individual_children self data.
Proof.
  unfold _analyze_groups_for_individual_children, file_absent_fills_as_empty.
  cbn [fd_document]. destruct (fd_document data) as [document| ]; [ | done].
  cbn [fmap option_fmap option_map]. rewrite absent_fills_children.
  destruct (n_children document) as [l| ]; [ | done]. cbn [default from_option id].
  rewrite (foldl_fmap_ext (λ st page, analyze_node page "" None st)); [done | ].
  apply Forall_forall. intros x _ a. apply absent_fills_analyze_node.
Qed.

(** C8. A node without a ['fills'] key is classified as the same node with
    [fills = []]: neither has a solid fill, neither qualifies, the group scan
    treats both alike, and writing [fills = []] into every node of a file that
    lacks the key changes nothing of what the analysis records.  The
    classifier is a total function: there is no input on which it fails. *)
Theorem C8_absent_fills_is_empty_fills (n : node) (acc : scan) (depth : nat)
    (self : preprocessor) (data : figma_file) :
  _has_solid_fills (with_fills None n) = false ∧
  _has_solid_fills (with_fills (Some []) n) = false ∧
  _is_pure_vector (with_fills None n) = _is_pure_vector (with_fills (Some []) n) ∧
  examine_child_rules (with_fills None n) acc =
    examine_child_rules (with_fills (Some []) n) acc ∧
  examine_child (with_fills None n) depth acc =
    examine_child (with_fills (Some []) n) depth acc ∧
  _analyze_groups_for_individual_children self (file_absent_fills_as_empty data) =
    _analyze_groups_for_individual_children self data.
Proof.
  split_and!; try reflexivity. apply absent_fills_analysis.
Qed.

(** ** Which record a node gets *)

Lemma file_calls_page data page :
  page ∈ file_pages data → (page, "", None) ∈ file_calls data.
Proof.
  intros H. apply list_elem_of_bind. exists page. split; [ | done].
  rewrite calls_eq. left.
Qed.

Lemma calls_refl n path pg : (n, path, pg) ∈ calls n path pg.
Proof. rewrite calls_eq. left. Qed.

Lemma calls_trans n : ∀ path pg c,
  c ∈ calls n path pg → ∀ c', c' ∈ calls c.1.1 c.1.2 c.2 → c' ∈ calls n path pg.
Proof.
  induction n as [n IH] using node_ind'. intros path pg c.
  rewrite (calls_eq n). intros [->|Hc]%elem_of_cons c' Hc'.
  { cbn [fst snd] in Hc'. by rewrite <- calls_eq. }
  right. destruct (get_type n =? "GROUP"); [by apply elem_of_nil in Hc | ].
  destruct (n_children n) as [l| ]; [ | by apply elem_of_nil in Hc].
  apply list_elem_of_bind in Hc as (x & Hc & Hx). apply list_elem_of_bind.
  exists x. split; [ | done].
  specialize (IH l eq_refl). rewrite Forall_forall in IH. by eapply IH.
Qed.

(** The traversal goes from a node that is not a GROUP to each child. *)
Lemma file_calls_child data n path pg l c :
  (n, path, pg) ∈ file_calls data → get_type n ≠ "GROUP" →
  n_children n = Some l → c ∈ l →
  (c, join_path path (get_name n), child_group n pg) ∈ file_calls data.
Proof.
  intros (page & Hn & Hpage)%list_elem_of_bind Hg Hl Hc.
  apply list_elem_of_bind. exists page. split; [ | done].
  eapply calls_trans; [exact Hn | ]. cbn [fst snd].
  rewrite calls_eq. right. apply String.eqb_neq in Hg. rewrite Hg, Hl.
  apply list_elem_of_bind. exists c. split; [apply calls_refl | done].
Qed.

(** Below a node that is neither a GROUP nor a FRAME, COMPONENT or
    INSTANCE, a traversal without parent group stays without one. *)
Lemma file_calls_child_no_group data n path l c :
  (n, path, None) ∈ file_calls data →
  get_type n ≠ "GROUP" → is_container_type (get_type n) = false →
  n_children n = Some l → c ∈ l →
  (c, join_path path (get_name n), None) ∈ file_calls data.
Proof.
  intros Hn Hg Hc Hl Hin.
  pose proof (file_calls_child data n path None l c Hn Hg Hl Hin) as H.
  unfold child_group in H. by rewrite Hc in H.
Qed.

Lemma pure_vector_type n : _is_pure_vector n = true → get_type n = "VECTOR".
Proof.
  unfold _is_pure_vector. destruct (String.eqb_spec (get_type n) "VECTOR"); done.
Qed.

(** A qualifying node scanned in a group the traversal reaches gets the
    entry of that group, and no standalone entry. *)
Lemma claimed_get data g path pg x :
  NoDup (get_id <$> file_nodes data) →
  (g, path, pg) ∈ file_calls data → get_type g = "GROUP" →
  x ∈ group_scanned g → _is_pure_vector x = true →
  dict_get (get_id x) (individual_vector_children (analysis data)) =
    Some (child_entry g (join_path path (get_name g)) (descriptor_of x)).2 ∧
  dict_get (get_id x) (standalone_vectors (analysis data)) = None.
Proof.
  intros Hnd Hc Hg Hx Hp.
  destruct (file_entries_NoDup data Hnd) as (Hnd1 & Hnd2 & Hdisj).
  destruct (analysis_dicts data) as [-> ->].
  assert (Hin : child_entry g (join_path path (get_name g)) (descriptor_of x)
                ∈ file_calls data ≫= claimed_by).
  { apply list_elem_of_bind. exists (g, path, pg). split; [ | done].
    cbn [claimed_by]. apply String.eqb_eq in Hg. rewrite Hg.
    do 2 apply list_elem_of_fmap_2. by apply list_elem_of_filter. }
  split.
  - by apply dict_get_update_in.
  - rewrite dict_get_update_notin; [done | ]. apply Hdisj.
    by apply (entry_in_keys _ _ _ Hin).
Qed.

(** A qualifying node the traversal reaches with no parent group gets its
    standalone entry, and no group entry. *)
Lemma standalone_get data n path :
  NoDup (get_id <$> file_nodes data) →
  (n, path, None) ∈ file_calls data → _is_pure_vector n = true →
  dict_get (get_id n) (standalone_vectors (analysis data)) =
    Some (standalone_entry n (join_path path (get_name n))).2 ∧
  dict_get (get_id n) (individual_vector_children (analysis data)) = None.
Proof.
  intros Hnd Hc Hp.
  destruct (file_entries_NoDup data Hnd) as (Hnd1 & Hnd2 & Hdisj).
  destruct (analysis_dicts data) as [-> ->].
  assert (Hin : standalone_entry n (join_path path (get_name n))
                ∈ file_calls data ≫= standalone_by).
  { apply list_elem_of_bind. exists (n, path, None). split; [ | done].
    cbn [standalone_by]. rewrite (pure_vector_type n Hp), Hp. cbn. left. }
  split.
  - by apply dict_get_update_in.
  - rewrite dict_get_update_notin; [done | ]. intros Hk.
    by apply (Hdisj _ Hk), (entry_in_keys _ _ _ Hin).
Qed.

Lemma analysis_keys_NoDup data :
  NoDup (dict_keys (individual_vector_children (analysis data))) ∧
  NoDup (dict_keys (standalone_vectors (analysis data))).
Proof.
  destruct (analysis_dicts data) as [-> ->].
  split; apply dict_update_NoDup, NoDup_nil_2.
Qed.

Lemma downloads_analysis_get data k :
  dict_get k (child_based_svg_downloads (analysis data)) =
  match dict_get k (standalone_vectors (analysis data)) with
  | Some v => Some (standalone_download k v)
  | None => child_download k <$>
              dict_get k (individual_vector_children (analysis data))
  end.
Proof. destruct (analysis_keys_NoDup data). by apply downloads_get. Qed.

Lemma downloads_count_one self k dl :
  dict_get k (child_based_svg_downloads self) = Some dl →
  length (filter (λ kv, kv.1 = k) (child_based_svg_downloads self)) = 1.
Proof.
  intros H. rewrite dict_key_count by apply downloads_NoDup.
  rewrite decide_True; [done | ]. apply dict_get_is_Some. by eexists.
Qed.

Lemma scanned_grandchild outer inner v outer_children inner_children :
  n_children outer = Some outer_children → inner ∈ outer_children →
  n_children inner = Some inner_children → v ∈ inner_children →
  v ∈ group_scanned outer.
Proof.
  intros Ho Hi Hic Hv. unfold group_scanned. rewrite Ho. cbn [default from_option id].
  apply list_elem_of_bind. exists inner. split; [ | done].
  rewrite scanned_eq, Hic. cbn [Nat.ltb Nat.leb]. right.
  apply list_elem_of_bind. exists v. split; [ | done].
  rewrite scanned_eq. cbn [Nat.ltb Nat.leb]. left.
Qed.

(** C1, as the code has it.  When the traversal reaches a GROUP that holds
    an inner GROUP that holds a qualifying vector, ids being distinct, the run
    emits exactly one [_svgDownloads] record for the vector; it is tagged
    VECTOR_CHILD_FROM_GROUP and its [parent_group_id] and [parent_group_name]
    are those of the outer group, the one the traversal decomposes; the vector
    has no standalone record. *)
Theorem C1_nested_vector_attributed_to_outer_group
    (self : preprocessor) (raw : loc) (now : string) (h : heap)
    (data : figma_file) (outer inner v : node) (path : string)
    (pg : option (string * string)) (outer_children inner_children : list node) :
  valid_input raw h data →
  NoDup (get_id <$> file_nodes data) →
  (outer, path, pg) ∈ file_calls data →
  get_type outer = "GROUP" → n_children outer = Some outer_children →
  inner ∈ outer_children →
  get_type inner = "GROUP" → n_children inner = Some inner_children →
  v ∈ inner_children →
  _is_pure_vector v = true →
  ∃ self' out d,
    run_produces self raw now h self' out ∧ fd_svgDownloads out = Some d ∧
    dict_get (get_id v) d =
      Some (SvgDownload (get_id v) "VECTOR" false (default "Vector" (n_name v))
              (join_path path (get_name outer) +:+ "/" +:+
                 default "Vector" (n_name v))
              (_generate_filename (get_id v)) "VECTOR_CHILD_FROM_GROUP"
              (Some (get_id outer)) (Some (get_name outer)) (get_bounds v)) ∧
    length (filter (λ kv, kv.1 = get_id v) d) = 1 ∧
    dict_get (get_id v) (standalone_vectors self') = None.
Proof.
  intros Hv Hnd Hc Hgo Hco Hi Hgi Hci Hvin Hp.
  destruct (run_produces_analysis self raw now h data Hv) as (out & Hrun & Hd & _).
  exists (analysis data), out, (child_based_svg_downloads (analysis data)).
  split; [done | ]. split; [done | ].
  pose proof (scanned_grandchild _ _ _ _ _ Hco Hi Hci Hvin) as Hs.
  destruct (claimed_get data outer path pg v Hnd Hc Hgo Hs Hp) as [Hivc Hsv].
  assert (Hget : dict_get (get_id v) (child_based_svg_downloads (analysis data)) =
                 Some (child_download (get_id v)
                         (child_entry outer (join_path path (get_name outer))
                                      (descriptor_of v)).2)).
  { rewrite downloads_analysis_get, Hsv, Hivc. done. }
  split; [ | split; [by eapply downloads_count_one | done]].
  rewrite Hget. reflexivity.
Qed.

Lemma C1_nested_vector_witness :
  valid_input 0 [ObjFile nested_file] nested_file ∧
  ∃ self' out d,
    run_produces init 0 "2024-05-01T10:00:00" [ObjFile nested_file] self' out ∧
    fd_svgDownloads out = Some d ∧
    dict_get "1:3" d =
      Some (SvgDownload "1:3" "VECTOR" false "Icon" "Page 1/Outer/Icon" "1_3.svg"
              "VECTOR_CHILD_FROM_GROUP" (Some "1:1") (Some "Outer") None).
Proof.
  pose proof (valid_input_single nested_file eq_refl) as Hv.
  split; [exact Hv | ].
  destruct (C1_nested_vector_attributed_to_outer_group init 0
              "2024-05-01T10:00:00" [ObjFile nested_file] nested_file
              outer_1_1 inner_1_2 vector_1_3 "Page 1" None
              [inner_1_2] [vector_1_3] Hv)
    as (self' & out & d & Hrun & Hd & Hget & _).
  - by_computation.
  - unfold file_calls. simpl. right. left.
  - reflexivity.
  - reflexivity.
  - left.
  - reflexivity.
  - reflexivity.
  - left.
  - reflexivity.
  - exists self', out, d. split; [exact Hrun | ]. split; [exact Hd | exact Hget].
Defined.

(** C1 as stated fails: in the nested scenario the one record of vector
    ["1:3"] names the outer composite ["1:1"] as its parent, not the inner
    composite ["1:2"] that encloses it. *)
Lemma C1_parent_is_outer_not_inner :
  ∃ self' out d dl,
    run_produces init 0 "2024-05-01T10:00:00" [ObjFile nested_file] self' out ∧
    fd_svgDownloads out = Some d ∧
    d = [("1:3", dl)] ∧
    sd_extraction_reason dl = "VECTOR_CHILD_FROM_GROUP" ∧
    sd_parent_group_id dl = Some (get_id outer_1_1) ∧
    sd_parent_group_id dl ≠ Some (get_id inner_1_2) ∧
    sd_parent_group_name dl ≠ Some (get_name inner_1_2).
Proof.
  destruct (run_produces_analysis init 0 "2024-05-01T10:00:00"
              [ObjFile nested_file] nested_file
              (valid_input_single nested_file eq_refl))
    as (out & Hrun & Hd & _).
  exists (analysis nested_file), out,
    (child_based_svg_downloads (analysis nested_file)).
  exists (SvgDownload "1:3" "VECTOR" false "Icon" "Page 1/Outer/Icon" "1_3.svg"
            "VECTOR_CHILD_FROM_GROUP" (Some "1:1") (Some "Outer") None).
  split; [exact Hrun | ]. split; [exact Hd | ].
  split; [vm_compute; reflexivity | ].
  split; [reflexivity | ]. split; [reflexivity | ]. split; intros [=].
Qed.

(** C5, as the code has it.  A qualifying node that the traversal reaches
    with no parent group (none of its ancestors is a GROUP, FRAME, COMPONENT
    or INSTANCE) becomes, ids being distinct, exactly one [_svgDownloads]
    record, tagged STANDALONE_VECTOR and without parent fields, under the
    file name derived from its id; no group claims it. *)
Theorem C5_standalone_vector_outside_containers
    (self : preprocessor) (raw : loc) (now : string) (h : heap)
    (data : figma_file) (n : node) (path : string) :
  valid_input raw h data →
  NoDup (get_id <$> file_nodes data) →
  (n, path, None) ∈ file_calls data →
  _is_pure_vector n = true →
  ∃ self' out d,
    run_produces self raw now h self' out ∧ fd_svgDownloads out = Some d ∧
    dict_get (get_id n) d =
      Some (SvgDownload (get_id n) "VECTOR" false (get_name n)
              (join_path path (get_name n)) (_generate_filename (get_id n))
              "STANDALONE_VECTOR" None None (get_bounds n)) ∧
    length (filter (λ kv, kv.1 = get_id n) d) = 1 ∧
    dict_get (get_id n) (individual_vector_children self') = None.
Proof.
  intros Hv Hnd Hc Hp.
  destruct (run_produces_analysis self raw now h data Hv) as (out & Hrun & Hd & _).
  exists (analysis data), out, (child_based_svg_downloads (analysis data)).
  split; [done | ]. split; [done | ].
  destruct (standalone_get data n path Hnd Hc Hp) as [Hsv Hivc].
  assert (Hget : dict_get (get_id n) (child_based_svg_downloads (analysis data)) =
                 Some (standalone_download (get_id n)
                         (standalone_entry n (join_path path (get_name n))).2)).
  { rewrite downloads_analysis_get, Hsv. done. }
  split; [ | split; [by eapply downloads_count_one | done]].
  rewrite Hget. reflexivity.
Qed.

Lemma C5_top_level_vector_witness :
  valid_input 0 [ObjFile top_level_file] top_level_file ∧
  ∃ self' out d,
    run_produces init 0 "2024-05-01T10:00:00" [ObjFile top_level_file] self' out ∧
    fd_svgDownloads out = Some d ∧
    dict_get "20:1" d =
      Some (SvgDownload "20:1" "VECTOR" false "Logo" "Page 1/Logo" "20_1.svg"
              "STANDALONE_VECTOR" None None None) ∧
    length (filter (λ kv, kv.1 = "20:1") d) = 1.
Proof.
  pose proof (valid_input_single top_level_file eq_refl) as Hv.
  split; [exact Hv | ].
  destruct (C5_standalone_vector_outside_containers init 0
              "2024-05-01T10:00:00" [ObjFile top_level_file] top_level_file
              vector_20_1 "Page 1" Hv)
    as (self' & out & d & Hrun & Hd & Hget & Hcount & _).
  - by_computation.
  - unfold file_calls. simpl. right. left.
  - reflexivity.
  - exists self', out, d. split; [exact Hrun | ]. split; [exact Hd | ].
    split; [exact Hget | exact Hcount].
Defined.

(** C5 as stated fails: the qualifying vector ["20:1"] inside a FRAME is
    claimed by no GROUP (the file has none), and the run records nothing
    for it. *)
Lemma C5_vector_inside_frame_not_exported :
  _is_pure_vector vector_20_1 = true ∧
  vector_20_1 ∈ file_nodes framed_file ∧
  ∃ self' out,
    run_produces init 0 "2024-05-01T10:00:00" [ObjFile framed_file] self' out ∧
    individual_vector_children self' = [] ∧
    standalone_vectors self' = [] ∧
    fd_svgDownloads out = Some [].
Proof.
  split; [reflexivity | ].
  split; [unfold file_nodes; simpl; right; right; left | ].
  destruct (run_produces_analysis init 0 "2024-05-01T10:00:00"
              [ObjFile framed_file] framed_file
              (valid_input_single framed_file eq_refl))
    as (out & Hrun & Hd & _).
  exists (analysis framed_file), out.
  split; [exact Hrun | ]. split; [reflexivity | ]. split; [reflexivity | ].
  exact Hd.
Qed.

(** ** Uniqueness of records *)

Lemma claimed_reason data k r :
  (k, r) ∈ individual_vector_children (analysis data) →
  vr_id r = k ∧ vr_extraction_reason r = "VECTOR_CHILD_FROM_GROUP".
Proof.
  intros Hin. destruct (analysis_keys_NoDup data) as [Hnd _].
  apply (dict_get_elem_NoDup _ _ _ Hnd) in Hin.
  destruct (analysis_dicts data) as [Heq _]. rewrite Heq in Hin.
  apply dict_get_update_Some in Hin as [Hin|Hin]; [ | done].
  apply claimed_entry_node in Hin as (g & path & pg & x & _ & _ & _ & _ & _ & Heq').
  by injection Heq' as -> ->.
Qed.

Lemma standalone_reason data k r :
  (k, r) ∈ standalone_vectors (analysis data) →
  vr_id r = k ∧ vr_extraction_reason r = "STANDALONE_VECTOR" ∧
  vr_parent_group_id r = None ∧ vr_parent_group_name r = None.
Proof.
  intros Hin. destruct (analysis_keys_NoDup data) as [_ Hnd].
  apply (dict_get_elem_NoDup _ _ _ Hnd) in Hin.
  destruct (analysis_dicts data) as [_ Heq]. rewrite Heq in Hin.
  apply dict_get_update_Some in Hin as [Hin|Hin]; [ | done].
  apply standalone_entry_node in Hin as (n & path & _ & _ & _ & Heq').
  by injection Heq' as -> ->.
Qed.

Lemma downloads_reason data k dl :
  (k, dl) ∈ child_based_svg_downloads (analysis data) →
  sd_extraction_reason dl = "VECTOR_CHILD_FROM_GROUP" ∨
  sd_extraction_reason dl = "STANDALONE_VECTOR".
Proof.
  intros Hin. apply (dict_get_elem_NoDup _ _ _ (downloads_NoDup _)) in Hin.
  rewrite downloads_analysis_get in Hin.
  destruct (dict_get k (standalone_vectors (analysis data))) as [v| ] eqn:Hsv.
  - injection Hin as <-. right. cbn.
    by apply dict_get_Some_elem, standalone_reason in Hsv as (_ & ? & _).
  - destruct (dict_get k (individual_vector_children (analysis data)))
      as [v| ] eqn:Hivc; [ | done].
    injection Hin as <-. left. cbn.
    by apply dict_get_Some_elem, claimed_reason in Hivc as (_ & ?).
Qed.

(** C2. A run records each node id at most once: the keys of
    [individual_vector_children] (every entry tagged VECTOR_CHILD_FROM_GROUP)
    have no repetition, nor have those of [standalone_vectors] (every entry
    tagged STANDALONE_VECTOR); every id keys at most one [_svgDownloads] entry,
    which carries that id and one of the two tags; and, the node ids of the
    document being distinct, no id is in both dictionaries. *)
Theorem C2_each_node_id_recorded_once (self : preprocessor) (raw : loc)
    (now : string) (h : heap) (data : figma_file) :
  valid_input raw h data →
  ∃ self' out d,
    run_produces self raw now h self' out ∧ fd_svgDownloads out = Some d ∧
    NoDup (dict_keys (individual_vector_children self')) ∧
    NoDup (dict_keys (standalone_vectors self')) ∧
    NoDup (dict_keys d) ∧
    (∀ k r, (k, r) ∈ individual_vector_children self' →
            vr_extraction_reason r = "VECTOR_CHILD_FROM_GROUP") ∧
    (∀ k r, (k, r) ∈ standalone_vectors self' →
            vr_extraction_reason r = "STANDALONE_VECTOR") ∧
    (∀ k, (length (filter (λ kv, kv.1 = k) d) ≤ 1)%nat) ∧
    (∀ k dl dl', (k, dl) ∈ d → (k, dl') ∈ d → dl = dl') ∧
    (∀ k dl dl', (k, dl) ∈ d → (k, dl') ∈ d →
                 sd_extraction_reason dl = "VECTOR_CHILD_FROM_GROUP" →
                 sd_extraction_reason dl' ≠ "STANDALONE_VECTOR") ∧
    (∀ k dl, (k, dl) ∈ d →
             sd_node_id dl = k ∧
             (sd_extraction_reason dl = "VECTOR_CHILD_FROM_GROUP" ∨
              sd_extraction_reason dl = "STANDALONE_VECTOR")) ∧
    (NoDup (get_id <$> file_nodes data) →
     ∀ k, k ∈ dict_keys (individual_vector_children self') →
          k ∉ dict_keys (standalone_vectors self')).
Proof.
  intros Hv.
  destruct (run_produces_analysis self raw now h data Hv) as (out & Hrun & Hd & _).
  exists (analysis data), out, (child_based_svg_downloads (analysis data)).
  destruct (analysis_keys_NoDup data) as [Hnd1 Hnd2].
  pose proof (downloads_NoDup (analysis data)) as Hnd3.
  split_and!; try done.
  - intros k r Hin. by apply claimed_reason in Hin as [_ ?].
  - intros k r Hin. by apply standalone_reason in Hin as (_ & ? & _).
  - intros k. rewrite dict_key_count by done. case_decide; lia.
  - intros k dl dl' H1 H2.
    apply (dict_get_elem_NoDup _ _ _ Hnd3) in H1, H2. congruence.
  - intros k dl dl' H1 H2 Hr.
    apply (dict_get_elem_NoDup _ _ _ Hnd3) in H1, H2.
    assert (dl = dl') as <- by congruence. rewrite Hr. done.
  - intros k dl Hin. split.
    + by apply downloads_entry in Hin as (? & _).
    + by eapply downloads_reason.
  - intros Hnd k. destruct (file_entries_NoDup data Hnd) as (_ & _ & Hdisj).
    destruct (analysis_dicts data) as [-> ->]. rewrite !dict_update_keys.
    intros [?%elem_of_nil|Hk]; [done | ].
    intros [?%elem_of_nil|Hk']; [done | ]. by apply (Hdisj k).
Qed.

Lemma C2_icon_group_witness :
  valid_input 0 [ObjFile icon_file] icon_file ∧
  NoDup (get_id <$> file_nodes icon_file) ∧
  ∃ self' out d,
    run_produces init 0 "2024-05-01T10:00:00" [ObjFile icon_file] self' out ∧
    fd_svgDownloads out = Some d ∧
    NoDup (dict_keys d) ∧
    ∀ k, k ∈ dict_keys (individual_vector_children self') →
         k ∉ dict_keys (standalone_vectors self').
Proof.
  pose proof (valid_input_single icon_file eq_refl) as Hv.
  assert (Hnd : NoDup (get_id <$> file_nodes icon_file)) by by_computation.
  split; [exact Hv | ]. split; [exact Hnd | ].
  destruct (C2_each_node_id_recorded_once init 0 "2024-05-01T10:00:00"
              [ObjFile icon_file] icon_file Hv)
    as (self' & out & d & Hrun & Hd & _ & _ & Hnd3 & _ & _ & _ & _ & _ & _ & Hdisj).
  exists self', out, d. split; [exact Hrun | ]. split; [exact Hd | ].
  split; [exact Hnd3 | exact (Hdisj Hnd)].
Defined.

(** Distinct ids are needed for the last part: when two nodes carry one id,
    both dictionaries can hold it; [_svgDownloads] still has one entry for
    it, the standalone one. *)
Example duplicate_id_in_both_dictionaries :
  dict_keys (individual_vector_children (analysis duplicate_id_file)) = ["70:2"] ∧
  dict_keys (standalone_vectors (analysis duplicate_id_file)) = ["70:2"] ∧
  sd_extraction_reason <$>
    (child_based_svg_downloads (analysis duplicate_id_file)).*2
  = ["STANDALONE_VECTOR"].
Proof. split_and!; vm_compute; reflexivity. Qed.

(** The Icon Group scenario, computed: one record, for the vector. *)
Example icon_group_run :
  analysis icon_file =
  Preprocessor (Stats 2 1 1 0 1 1 0 1)
    [("10:2", VectorRecord "10:2" "Glyph" "VECTOR" "Page 1/Icon Group/Glyph" None
                (Some "10:1") (Some "Icon Group") "VECTOR_CHILD_FROM_GROUP")]
    [] ∧
  child_based_svg_downloads (analysis icon_file) =
  [("10:2", SvgDownload "10:2" "VECTOR" false "Glyph" "Page 1/Icon Group/Glyph"
              "10_2.svg" "VECTOR_CHILD_FROM_GROUP" (Some "10:1")
              (Some "Icon Group") None)].
Proof. split; vm_compute; reflexivity. Qed.

(** ** [_svgMapping] against [_svgDownloads] *)

(** C10. In the dictionary a run returns, the keys of [_svgMapping] are
    exactly the keys of [_svgDownloads] with [":"] replaced by ["_"]; every
    [_svgMapping] entry carries the [filename] and [component_name] of a
    [_svgDownloads] entry whose sanitized key it is; and looking up the
    sanitized form of a native id in [_svgMapping] gives the file name of that
    id's [_svgDownloads] entry, and its component name too when no other
    recorded id has the same sanitized form. *)
Theorem C10_mapping_consistent_with_downloads (self : preprocessor) (raw : loc)
    (now : string) (h : heap) (data : figma_file) :
  valid_input raw h data →
  ∃ self' out d m,
    run_produces self raw now h self' out ∧
    fd_svgDownloads out = Some d ∧ fd_svgMapping out = Some m ∧
    NoDup (dict_keys m) ∧
    (∀ k, k ∈ dict_keys m ↔ ∃ id, id ∈ dict_keys d ∧ k = replace_colon id) ∧
    (∀ k e, dict_get k m = Some e →
       ∃ id dl, dict_get id d = Some dl ∧ k = replace_colon id ∧
                sm_filename e = sd_filename dl ∧
                sm_component_name e = sd_component_name dl ∧
                sm_is_group e = false) ∧
    (∀ id dl, dict_get id d = Some dl →
       ∃ e, dict_get (replace_colon id) m = Some e ∧
            sm_filename e = sd_filename dl ∧
            sm_filename e = _generate_filename id ∧
            ((∀ id', id' ∈ dict_keys d → replace_colon id' = replace_colon id →
                     id' = id) →
             sm_component_name e = sd_component_name dl)).
Proof.
  intros Hv.
  destruct (run_produces_analysis self raw now h data Hv)
    as (out & Hrun & Hd & Hm & _).
  set (d := child_based_svg_downloads (analysis data)) in *.
  exists (analysis data), out, d, (svg_mapping_of d).
  pose proof (downloads_NoDup (analysis data)) as Hnd. fold d in Hnd.
  split_and!; try done.
  - apply mapping_NoDup.
  - apply mapping_keys.
  - intros k e (id & dl & Hin & -> & ->)%mapping_get_Some.
    exists id, dl. split_and!; try done. by apply dict_get_elem_NoDup.
  - intros id dl Hget.
    assert (Hk : replace_colon id ∈ dict_keys (svg_mapping_of d)).
    { apply mapping_keys. exists id. split; [ | done].
      apply dict_get_is_Some. by eexists. }
    apply dict_get_is_Some in Hk as [e He]. exists e. split; [done | ].
    apply mapping_get_Some in He as (id' & dl' & Hin' & Hid & ->).
    apply dict_get_Some_elem in Hget as Hin.
    apply downloads_entry in Hin as (_ & Hf & _).
    apply downloads_entry in Hin' as Hin''. destruct Hin'' as (_ & Hf' & _).
    cbn [sm_filename sm_component_name].
    assert (Hff : sd_filename dl' = sd_filename dl).
    { rewrite Hf, Hf'. unfold _generate_filename. by rewrite Hid. }
    split; [done | ]. split; [by rewrite Hff | ].
    intros Hinj. assert (id' = id) as ->.
    { apply Hinj; [by eapply entry_in_keys | done]. }
    apply (dict_get_elem_NoDup _ _ _ Hnd) in Hin'. congruence.
Qed.

Lemma C10_icon_group_witness :
  valid_input 0 [ObjFile icon_file] icon_file ∧
  ∃ self' out d m,
    run_produces init 0 "2024-05-01T10:00:00" [ObjFile icon_file] self' out ∧
    fd_svgDownloads out = Some d ∧ fd_svgMapping out = Some m ∧
    ∀ k, k ∈ dict_keys m ↔ ∃ id, id ∈ dict_keys d ∧ k = replace_colon id.
Proof.
  pose proof (valid_input_single icon_file eq_refl) as Hv.
  split; [exact Hv | ].
  destruct (C10_mapping_consistent_with_downloads init 0 "2024-05-01T10:00:00"
              [ObjFile icon_file] icon_file Hv)
    as (self' & out & d & m & Hrun & Hd & Hm & _ & Hkeys & _).
  exists self', out, d, m. split; [exact Hrun | ]. split; [exact Hd | ].
  split; [exact Hm | exact Hkeys].
Defined.

(** ** Running twice *)

Lemma read_file_Some l h f : read_file l h = Some f ↔ h !! l = Some (ObjFile f).
Proof.
  unfold read_file. destruct (h !! l) as [[f'|m]| ]; split; congruence.
Qed.

Lemma read_meta_Some l h m : read_meta l h = Some m ↔ h !! l = Some (ObjMeta m).
Proof.
  unfold read_meta. destruct (h !! l) as [[f'|m']| ]; split; congruence.
Qed.

Lemma read_file_ext l h ext f :
  read_file l h = Some f → read_file l (h ++ ext) = Some f.
Proof. rewrite !read_file_Some. apply lookup_ext_old. Qed.

Lemma read_meta_ext l h ext m :
  read_meta l h = Some m → read_meta l (h ++ ext) = Some m.
Proof. rewrite !read_meta_Some. apply lookup_ext_old. Qed.

Lemma valid_input_ext raw h ext data :
  valid_input raw h data →
  valid_input raw (h ++ ext) data ∧
  original_meta (h ++ ext) data = original_meta h data.
Proof.
  intros [Hf Hm]. split; [split | ].
  - by apply read_file_ext.
  - intros ml Hml. destruct (Hm ml Hml) as [m Hmm]. exists m.
    by apply read_meta_ext.
  - unfold original_meta. destruct (fd_metadata data) as [ml| ]; [ | done].
    destruct (Hm ml eq_refl) as [m Hmm].
    by rewrite Hmm, (read_meta_ext _ _ _ _ Hmm).
Qed.

Lemma snapshot_of l h f ml m :
  read_file l h = Some f → fd_metadata f = Some ml → read_meta ml h = Some m →
  snapshot l h = Some (set_metadata None f, Some m).
Proof.
  intros Hf Hml Hm. unfold snapshot. rewrite Hf. cbn [mbind option_bind].
  rewrite Hml, Hm. done.
Qed.

(** Two runs in a row, the second on what the first left. *)
Lemma rerun_spec (self : preprocessor) (raw : loc)
    (now1 now2 : string) (h : heap) (data : figma_file) :
  valid_input raw h data →
  ∃ opt1 self1 h1 opt2 self2 h2 out md,
    preprocess_figma_json self raw now1 h = Some (opt1, self1, h1) ∧
    preprocess_figma_json self1 raw now2 h1 = Some (opt2, self2, h2) ∧
    (∀ l o, h !! l = Some o → h1 !! l = Some o ∧ h2 !! l = Some o) ∧
    (∀ l o, h1 !! l = Some o → h2 !! l = Some o) ∧
    opt1 ≠ raw ∧ opt2 ≠ raw ∧ opt2 ≠ opt1 ∧
    self2 = self1 ∧
    snapshot opt1 h1 = Some (out, Some (stamped now1 (self_stats self1) md)) ∧
    snapshot opt2 h2 = Some (out, Some (stamped now2 (self_stats self1) md)) ∧
    (now1 = now2 → snapshot opt2 h2 = snapshot opt1 h1).
Proof.
  intros Hv.
  destruct (preprocess_figma_json_spec self raw now1 h data Hv)
    as (opt1 & ml1 & ext1 & Hrun1 & Hle1 & Hlm1 & Hf1 & Hm1).
  destruct (valid_input_ext raw h ext1 data Hv) as [Hv1 Hom].
  destruct (preprocess_figma_json_spec (analysis data) raw now2 (h ++ ext1) data Hv1)
    as (opt2 & ml2 & ext2 & Hrun2 & Hle2 & Hlm2 & Hf2 & Hm2).
  rewrite Hom in Hm2.
  exists opt1, (analysis data), (h ++ ext1), opt2, (analysis data),
    ((h ++ ext1) ++ ext2).
  exists (FigmaFile (fd_document data)
            (Some (child_based_svg_downloads (analysis data)))
            (Some (svg_mapping_of (child_based_svg_downloads (analysis data))))
            None (fd_other data)), (original_meta h data).
  split; [exact Hrun1 | ]. split; [exact Hrun2 | ].
  assert (Hraw : (raw < length h)%nat).
  { destruct Hv as [Hr _]. apply read_file_Some in Hr. by eapply lookup_lt_Some. }
  assert (Hopt1 : (opt1 < length (h ++ ext1))%nat).
  { apply read_file_Some in Hf1. by eapply lookup_lt_Some. }
  split_and!.
  - intros l o Hl. split; [by apply lookup_ext_old | by do 2 apply lookup_ext_old].
  - intros l o Hl. by apply lookup_ext_old.
  - lia.
  - rewrite length_app in Hle2. lia.
  - lia.
  - done.
  - exact (snapshot_of _ _ _ _ _ Hf1 eq_refl Hm1).
  - exact (snapshot_of _ _ _ _ _ Hf2 eq_refl Hm2).
  - intros ->. rewrite (snapshot_of _ _ _ _ _ Hf1 eq_refl Hm1).
    by rewrite (snapshot_of _ _ _ _ _ Hf2 eq_refl Hm2).
Qed.


(** C7, as the code has it.  Two invocations on the same input, the second
    on the object and the store the first one left, both return; neither
    changes any dictionary that existed before it (the input and its
    [_metadata] among them): each result is a new dictionary.  The object
    state after both is the same, and the two results have the same content
    except for [processed_at], which is the time of the invocation; they are
    equal when the two clock readings are. *)
Theorem C7_rerun_equal_up_to_timestamp (self : preprocessor) (raw : loc)
    (now1 now2 : string) (h : heap) (data : figma_file) :
  valid_input raw h data →
  ∃ opt1 self1 h1 opt2 self2 h2 out md,
    preprocess_figma_json self raw now1 h = Some (opt1, self1, h1) ∧
    preprocess_figma_json self1 raw now2 h1 = Some (opt2, self2, h2) ∧
    (∀ l o, h !! l = Some o → h1 !! l = Some o ∧ h2 !! l = Some o) ∧
    (∀ l o, h1 !! l = Some o → h2 !! l = Some o) ∧
    opt1 ≠ raw ∧ opt2 ≠ raw ∧ opt2 ≠ opt1 ∧
    self2 = self1 ∧
    snapshot opt1 h1 = Some (out, Some (stamped now1 (self_stats self1) md)) ∧
    snapshot opt2 h2 = Some (out, Some (stamped now2 (self_stats self1) md)) ∧
    (now1 = now2 → snapshot opt2 h2 = snapshot opt1 h1).
Proof. apply rerun_spec. Qed.

Lemma C7_rerun_witness :
  valid_input 0 [ObjFile top_level_file] top_level_file ∧
  ∃ opt1 self1 h1 opt2 self2 h2,
    preprocess_figma_json init 0 "2024-05-01T10:00:00" [ObjFile top_level_file]
      = Some (opt1, self1, h1) ∧
    preprocess_figma_json self1 0 "2024-05-01T10:00:00" h1 = Some (opt2, self2, h2) ∧
    h2 !! 0 = Some (ObjFile top_level_file) ∧
    snapshot opt2 h2 = snapshot opt1 h1.
Proof.
  pose proof (valid_input_single top_level_file eq_refl) as Hv.
  split; [exact Hv | ].
  destruct (C7_rerun_equal_up_to_timestamp init 0 "2024-05-01T10:00:00"
              "2024-05-01T10:00:00" [ObjFile top_level_file] top_level_file Hv)
    as (opt1 & self1 & h1 & opt2 & self2 & h2 & out & md & Hrun1 & Hrun2 & Hold
        & _ & _ & _ & _ & _ & _ & _ & Heq).
  exists opt1, self1, h1, opt2, self2, h2.
  split; [exact Hrun1 | ]. split; [exact Hrun2 | ].
  split; [exact (proj2 (Hold 0 _ eq_refl)) | exact (Heq eq_refl)].
Defined.

(** C7 as stated fails: two invocations on the same input one second
    apart return dictionaries of different content. *)
Lemma C7_outputs_differ_in_timestamp :
  ∃ opt1 self1 h1 opt2 self2 h2,
    preprocess_figma_json init 0 "2024-05-01T10:00:00" [ObjFile top_level_file]
      = Some (opt1, self1, h1) ∧
    preprocess_figma_json self1 0 "2024-05-01T10:00:01" h1 = Some (opt2, self2, h2) ∧
    snapshot opt1 h1 ≠ snapshot opt2 h2.
Proof.
  destruct (rerun_spec init 0 "2024-05-01T10:00:00"
              "2024-05-01T10:00:01" [ObjFile top_level_file] top_level_file
              (valid_input_single top_level_file eq_refl))
    as (opt1 & self1 & h1 & opt2 & self2 & h2 & out & md & Hrun1 & Hrun2 & _
        & _ & _ & _ & _ & _ & Hs1 & Hs2 & _).
  exists opt1, self1, h1, opt2, self2, h2.
  split; [exact Hrun1 | ]. split; [exact Hrun2 | ].
  rewrite Hs1, Hs2. unfold stamped. intros [=].
Qed.

(** ** Image references *)

Lemma traversed_eq obj cur :
  traversed obj cur =
  (obj, current_id obj cur) ::
  match n_children obj with
  | Some children => children ≫= (λ c, traversed c (current_id obj cur))
  | None => []
  end.
Proof. by destruct obj. Qed.

Lemma traverse_eq obj cur acc :
  traverse obj cur acc =
  let cur := current_id obj cur in
  let acc := match n_fills obj with
             | Some fills => scan_paints cur fills acc
             | None => acc
             end in
  let acc := match n_backgrounds obj with
             | Some bgs => scan_paints cur bgs acc
             | None => acc
             end in
  let acc := match n_children obj with
             | Some children => foldl (λ a item, traverse item cur a) acc children
             | None => acc
             end in
  foldl (λ a entry, traverse_value entry.2 cur a) acc (n_other obj).
Proof. by destruct obj. Qed.

(** Induction on the values that are not nodes. *)
Lemma jvalue_ind' (P : jvalue → Prop) :
  (∀ text, P (JScalar text)) →
  (∀ items, Forall P items → P (JList items)) →
  (∀ fills backgrounds entries,
     Forall (λ entry, P entry.2) entries → P (JDict fills backgrounds entries)) →
  ∀ v, P v.
Proof.
  intros Hs Hl Hd. fix IH 1. intros [text|items|fills backgrounds entries].
  - apply Hs.
  - apply Hl. induction items as [ |v items IHi]; constructor; [apply IH | exact IHi].
  - apply Hd.
    induction entries as [ |[k v] entries IHe]; constructor; [apply IH | exact IHe].
Qed.

Lemma exists_elem_nil {A} (Q : A → Prop) : (∃ p, p ∈ @nil A ∧ Q p) ↔ False.
Proof. split; [by intros (? & []%elem_of_nil & _) | done]. Qed.

Lemma exists_elem_app {A} (l1 l2 : list A) (Q : A → Prop) :
  (∃ p, p ∈ l1 ++ l2 ∧ Q p) ↔ (∃ p, p ∈ l1 ∧ Q p) ∨ (∃ p, p ∈ l2 ∧ Q p).
Proof.
  split.
  - intros (p & [?|?]%elem_of_app & ?); [left | right]; by exists p.
  - intros [(p & ? & ?)|(p & ? & ?)]; exists p; (split; [ | done]);
      apply elem_of_app; auto.
Qed.

Lemma exists_elem_bind {A B} (f : A → list B) (l : list A) (Q : B → Prop) :
  (∃ p, p ∈ l ≫= f ∧ Q p) ↔ ∃ c, c ∈ l ∧ ∃ p, p ∈ f c ∧ Q p.
Proof.
  split.
  - intros (p & (c & Hp & Hc)%list_elem_of_bind & HQ). exists c.
    split; [done | by exists p].
  - intros (c & Hc & p & Hp & HQ). exists p. split; [ | done].
    apply list_elem_of_bind. by exists c.
Qed.

Lemma traverse_node_eq n refs :
  traverse_node n refs =
  let refs := match n_fills n with
              | Some fills => collect_refs fills refs
              | None => refs
              end in
  let refs := match n_backgrounds n with
              | Some bgs => collect_refs bgs refs
              | None => refs
              end in
  let refs := match n_background n with
              | Some bgs => collect_refs bgs refs
              | None => refs
              end in
  match n_children n with
  | Some children => foldl (λ r child, traverse_node child r) refs children
  | None => refs
  end.
Proof. by destruct n. Qed.

Lemma scan_paints_refs cur paints acc r :
  r ∈ image_refs (scan_paints cur paints acc) ↔
  r ∈ image_refs acc ∨
  ∃ p, p ∈ paints ∧ paint_type p = Some "IMAGE" ∧ paint_imageRef p = Some r.
Proof.
  unfold scan_paints. revert acc.
  induction paints as [ |p paints IH]; intros acc; cbn [foldl].
  - split; [by left | by intros [?|(? & ?%elem_of_nil & _)]].
  - rewrite IH. clear IH.
    assert (Hstep : ∀ X, (X ∨ ∃ q, q ∈ p :: paints ∧ paint_type q = Some "IMAGE"
                                   ∧ paint_imageRef q = Some r) ↔
                         ((X ∨ (paint_type p = Some "IMAGE"
                                ∧ paint_imageRef p = Some r)) ∨
                          ∃ q, q ∈ paints ∧ paint_type q = Some "IMAGE"
                               ∧ paint_imageRef q = Some r)).
    { intros X. split.
      - intros [?|(q & [->|Hq]%elem_of_cons & Hq')]; [by left; left | by left; right | ].
        right. by exists q.
      - intros [[?|?]|(q & Hq & Hq')]; [by left | | ].
        + right. exists p. split; [left | done].
        + right. exists q. split; [by right | done]. }
    rewrite Hstep. apply or_iff_compat_r.
    destruct (paint_type p) as [t| ]; [ | split; [by left | by intros [?|[[=] _]]]].
    destruct (paint_imageRef p) as [r'| ];
      [ | split; [by left | by intros [?|[_ [=]]]]].
    destruct (String.eqb_spec t "IMAGE") as [->|Hne].
    + cbn [image_refs]. rewrite elem_of_union, elem_of_singleton.
      split; [intros [->|?]; [by right | by left] | ].
      intros [?|[_ [= ->]]]; [by right | by left].
    + split; [by left | ]. intros [?|[[= ->] _]]; done.
Qed.

Lemma scan_paints_nodes cur paints acc i :
  i ∈ image_nodes (scan_paints cur paints acc) ↔
  i ∈ image_nodes acc ∨
  (cur = Some i ∧ truthy i = true ∧
   ∃ p, p ∈ paints ∧ paint_type p = Some "IMAGE" ∧ is_Some (paint_imageRef p)).
Proof.
  unfold scan_paints. revert acc.
  induction paints as [ |p paints IH]; intros acc; cbn [foldl].
  - split; [by left | by intros [?|(_ & _ & ? & ?%elem_of_nil & _)]].
  - rewrite IH. clear IH.
    assert (Hstep : ∀ X, (X ∨ (cur = Some i ∧ truthy i = true ∧
                                ∃ q, q ∈ p :: paints ∧ paint_type q = Some "IMAGE"
                                     ∧ is_Some (paint_imageRef q))) ↔
                         ((X ∨ (cur = Some i ∧ truthy i = true ∧
                                paint_type p = Some "IMAGE"
                                ∧ is_Some (paint_imageRef p))) ∨
                          (cur = Some i ∧ truthy i = true ∧
                           ∃ q, q ∈ paints ∧ paint_type q = Some "IMAGE"
                                ∧ is_Some (paint_imageRef q)))).
    { intros X. split.
      - intros [?|(Hc & Ht & q & [->|Hq]%elem_of_cons & Hq')];
          [by left; left | by left; right | ].
        right. split_and!; try done. by exists q.
      - intros [[?|(Hc & Ht & Hp)]|(Hc & Ht & q & Hq & Hq')]; [by left | | ].
        + right. split_and!; try done. exists p. split; [left | done].
        + right. split_and!; try done. exists q. split; [by right | done]. }
    rewrite Hstep. apply or_iff_compat_r.
    destruct (paint_type p) as [t| ];
      [ | split; [by left | by intros [?|(_ & _ & [=] & _)]]].
    destruct (paint_imageRef p) as [r'| ];
      [ | split; [by left | by intros [?|(_ & _ & _ & [? [=]])]]].
    destruct (String.eqb_spec t "IMAGE") as [->|Hne].
    + cbn [image_nodes]. destruct cur as [c| ].
      * destruct (truthy c) eqn:Hc.
        -- rewrite elem_of_union, elem_of_singleton.
           split; [intros [->|?]; [right | by left] | ].
           ++ split_and!; done.
           ++ intros [?|([= ->] & _)]; [by right | by left].
        -- split; [by left | ]. intros [?|([= ->] & ? & _)]; [done | congruence].
      * split; [by left | ]. by intros [?|([=] & _)].
    + split; [by left | ]. intros [?|(_ & _ & [= ->] & _)]; done.
Qed.

Lemma foldl_elem_iff {A S} (f : S → A → S) (M : S → Prop) (Q : A → Prop)
    (l : list A) (acc : S) :
  Forall (λ c, ∀ acc, M (f acc c) ↔ M acc ∨ Q c) l →
  M (foldl f acc l) ↔ M acc ∨ ∃ c, c ∈ l ∧ Q c.
Proof.
  intros H. revert acc. induction H as [ |c l Hc _ IH]; intros acc; cbn [foldl].
  - split; [by left | by intros [?|(? & ?%elem_of_nil & _)]].
  - rewrite IH, Hc. split.
    + intros [[?|?]|(c' & Hc' & HQ)]; [by left | | ].
      * right. exists c. split; [left | done].
      * right. exists c'. split; [by right | done].
    + intros [?|(c' & [->|Hc']%elem_of_cons & HQ)];
        [by left; left | by left; right | ].
      right. by exists c'.
Qed.

Lemma exists_subtree_split obj (P : node → Prop) :
  (∃ n, n ∈ subtree obj ∧ P n) ↔
  P obj ∨ ∃ c, c ∈ default [] (n_children obj) ∧ ∃ n, n ∈ subtree c ∧ P n.
Proof.
  rewrite subtree_eq. split.
  - intros (n & [->|Hn]%elem_of_cons & HP); [by left | right].
    destruct (n_children obj) as [l| ]; [ | by apply elem_of_nil in Hn].
    apply list_elem_of_bind in Hn as (c & Hn & Hc). exists c. split; [done | ].
    by exists n.
  - intros [HP|(c & Hc & n & Hn & HP)].
    + exists obj. split; [left | done].
    + exists n. split; [ | done]. right.
      destruct (n_children obj) as [l| ]; [ | by apply elem_of_nil in Hc].
      apply list_elem_of_bind. by exists c.
Qed.

Lemma exists_traversed_split obj cur (P : node * option string → Prop) :
  (∃ x, x ∈ traversed obj cur ∧ P x) ↔
  P (obj, current_id obj cur) ∨
  ∃ c, c ∈ default [] (n_children obj) ∧
       ∃ x, x ∈ traversed c (current_id obj cur) ∧ P x.
Proof.
  rewrite traversed_eq. split.
  - intros (x & [->|Hx]%elem_of_cons & HP); [by left | right].
    destruct (n_children obj) as [l| ]; [ | by apply elem_of_nil in Hx].
    apply list_elem_of_bind in Hx as (c & Hx & Hc). exists c. split; [done | ].
    by exists x.
  - intros [HP|(c & Hc & x & Hx & HP)].
    + eexists. split; [left | done].
    + exists x. split; [ | done]. right.
      destruct (n_children obj) as [l| ]; [ | by apply elem_of_nil in Hc].
      apply list_elem_of_bind. by exists c.
Qed.

(** The paints of a node that carry an image reference [r]. *)
Lemma own_paints_refs obj cur acc r :
  r ∈ image_refs
        (match n_backgrounds obj with
         | Some bgs =>
             scan_paints cur bgs
               (match n_fills obj with
                | Some fills => scan_paints cur fills acc
                | None => acc
                end)
         | None => match n_fills obj with
                   | Some fills => scan_paints cur fills acc
                   | None => acc
                   end
         end) ↔
  r ∈ image_refs acc ∨
  ∃ p, p ∈ fills_and_backgrounds obj ∧ paint_type p = Some "IMAGE" ∧
       paint_imageRef p = Some r.
Proof.
  unfold fills_and_backgrounds.
  destruct (n_fills obj) as [fl| ], (n_backgrounds obj) as [bgs| ];
    cbn [default from_option id]; rewrite ?scan_paints_refs.
  - split.
    + intros [[?|(p & ? & ?)]|(p & ? & ?)]; [by left | | ];
        right; exists p; (split; [ | done]); apply elem_of_app; auto.
    + intros [?|(p & [?|?]%elem_of_app & ?)]; [by left; left | | ].
      * left. right. by exists p.
      * right. by exists p.
  - by rewrite app_nil_r.
  - done.
  - split; [by left | by intros [?|(? & ?%elem_of_nil & _)]].
Qed.

Lemma own_paints_nodes obj cur acc i :
  i ∈ image_nodes
        (match n_backgrounds obj with
         | Some bgs =>
             scan_paints cur bgs
               (match n_fills obj with
                | Some fills => scan_paints cur fills acc
                | None => acc
                end)
         | None => match n_fills obj with
                   | Some fills => scan_paints cur fills acc
                   | None => acc
                   end
         end) ↔
  i ∈ image_nodes acc ∨
  (cur = Some i ∧ truthy i = true ∧
   ∃ p, p ∈ fills_and_backgrounds obj ∧ paint_type p = Some "IMAGE" ∧
        is_Some (paint_imageRef p)).
Proof.
  unfold fills_and_backgrounds.
  destruct (n_fills obj) as [fl| ], (n_backgrounds obj) as [bgs| ];
    cbn [default from_option id]; rewrite ?scan_paints_nodes.
  - split.
    + intros [[?|(? & ? & p & ? & ?)]|(? & ? & p & ? & ?)]; [by left | | ];
        right; (split_and!; try done); exists p; (split; [ | done]);
        apply elem_of_app; auto.
    + intros [?|(? & ? & p & [?|?]%elem_of_app & ?)]; [by left; left | | ].
      * left. right. split_and!; try done. by exists p.
      * right. split_and!; try done. by exists p.
  - by rewrite app_nil_r.
  - done.
  - split; [by left | by intros [?|(_ & _ & ? & ?%elem_of_nil & _)]].
Qed.

(** An optional paint list: the list when the key is there, nothing when
    it is not. *)
Lemma scan_option_refs cur (paints : option (list paint)) acc r :
  r ∈ image_refs (match paints with
                  | Some l => scan_paints cur l acc
                  | None => acc
                  end) ↔
  r ∈ image_refs acc ∨
  ∃ p, p ∈ default [] paints ∧ paint_type p = Some "IMAGE" ∧
       paint_imageRef p = Some r.
Proof.
  destruct paints as [l| ]; cbn [default from_option id].
  - apply scan_paints_refs.
  - rewrite exists_elem_nil. tauto.
Qed.

Lemma scan_option_nodes cur (paints : option (list paint)) acc i :
  i ∈ image_nodes (match paints with
                   | Some l => scan_paints cur l acc
                   | None => acc
                   end) ↔
  i ∈ image_nodes acc ∨
  (cur = Some i ∧ truthy i = true ∧
   ∃ p, p ∈ default [] paints ∧ paint_type p = Some "IMAGE" ∧
        is_Some (paint_imageRef p)).
Proof.
  destruct paints as [l| ]; cbn [default from_option id].
  - apply scan_paints_nodes.
  - rewrite exists_elem_nil. tauto.
Qed.

Lemma value_paints_dict fills backgrounds entries :
  value_paints (JDict fills backgrounds entries) =
  default [] fills ++ default [] backgrounds
  ++ (entries ≫= (λ entry, value_paints entry.2)).
Proof. reflexivity. Qed.

Lemma value_paints_list items :
  value_paints (JList items) = items ≫= value_paints.
Proof. reflexivity. Qed.

Lemma traverse_value_dict fills backgrounds entries cur acc :
  traverse_value (JDict fills backgrounds entries) cur acc =
  foldl (λ a entry, traverse_value entry.2 cur a)
        (match backgrounds with
         | Some bgs =>
             scan_paints cur bgs
               (match fills with
                | Some fills => scan_paints cur fills acc
                | None => acc
                end)
         | None => match fills with
                   | Some fills => scan_paints cur fills acc
                   | None => acc
                   end
         end)
        entries.
Proof. reflexivity. Qed.

Lemma traverse_value_list items cur acc :
  traverse_value (JList items) cur acc =
  foldl (λ a item, traverse_value item cur a) acc items.
Proof. reflexivity. Qed.

(** In a value that is not a node, the walk collects the references of the
    IMAGE entries of every paint list in it. *)
Lemma traverse_value_refs v :
  ∀ cur acc r,
    r ∈ image_refs (traverse_value v cur acc) ↔
    r ∈ image_refs acc ∨
    ∃ p, p ∈ value_paints v ∧ paint_type p = Some "IMAGE" ∧
         paint_imageRef p = Some r.
Proof.
  induction v as [text|items IH|fills backgrounds entries IH] using jvalue_ind';
    intros cur acc r.
  - cbn [traverse_value value_paints]. rewrite exists_elem_nil. tauto.
  - rewrite traverse_value_list, value_paints_list, exists_elem_bind.
    apply (foldl_elem_iff (λ a item, traverse_value item cur a)
             (λ a, r ∈ image_refs a)
             (λ c, ∃ p, p ∈ value_paints c ∧ paint_type p = Some "IMAGE" ∧
                        paint_imageRef p = Some r)).
    eapply Forall_impl; [exact IH | ]. intros c Hc a. apply Hc.
  - rewrite traverse_value_dict, value_paints_dict, !exists_elem_app,
      exists_elem_bind.
    rewrite (foldl_elem_iff (λ a entry, traverse_value entry.2 cur a)
               (λ a, r ∈ image_refs a)
               (λ c, ∃ p, p ∈ value_paints c.2 ∧ paint_type p = Some "IMAGE" ∧
                          paint_imageRef p = Some r)).
    + rewrite (scan_option_refs cur backgrounds), (scan_option_refs cur fills).
      tauto.
    + eapply Forall_impl; [exact IH | ]. intros c Hc a. apply Hc.
Qed.

(** ... and records the current node id when there is such an entry. *)
Lemma traverse_value_nodes v :
  ∀ cur acc i,
    i ∈ image_nodes (traverse_value v cur acc) ↔
    i ∈ image_nodes acc ∨
    (cur = Some i ∧ truthy i = true ∧
     ∃ p, p ∈ value_paints v ∧ paint_type p = Some "IMAGE" ∧
          is_Some (paint_imageRef p)).
Proof.
  induction v as [text|items IH|fills backgrounds entries IH] using jvalue_ind';
    intros cur acc i.
  - cbn [traverse_value value_paints]. rewrite exists_elem_nil. tauto.
  - rewrite traverse_value_list, value_paints_list, exists_elem_bind.
    rewrite (foldl_elem_iff (λ a item, traverse_value item cur a)
               (λ a, i ∈ image_nodes a)
               (λ c, cur = Some i ∧ truthy i = true ∧
                     ∃ p, p ∈ value_paints c ∧ paint_type p = Some "IMAGE" ∧
                          is_Some (paint_imageRef p))).
    + apply or_iff_compat_l. split.
      * intros (c & Hc & ? & ? & Hp). split_and!; try done. by exists c.
      * intros (? & ? & c & Hc & Hp). by exists c.
    + eapply Forall_impl; [exact IH | ]. intros c Hc a. apply Hc.
  - rewrite traverse_value_dict, value_paints_dict, !exists_elem_app,
      exists_elem_bind.
    rewrite (foldl_elem_iff (λ a entry, traverse_value entry.2 cur a)
               (λ a, i ∈ image_nodes a)
               (λ c, cur = Some i ∧ truthy i = true ∧
                     ∃ p, p ∈ value_paints c.2 ∧ paint_type p = Some "IMAGE" ∧
                          is_Some (paint_imageRef p))).
    + rewrite (scan_option_nodes cur backgrounds), (scan_option_nodes cur fills).
      split.
      * intros [[[?|(? & ? & ?)]|(? & ? & ?)]|(c & Hc & ? & ? & Hp)].
        -- by left.
        -- right. split_and!; try done. by left.
        -- right. split_and!; try done. right. by left.
        -- right. split_and!; try done. right. right. by exists c.
      * intros [?|(? & ? & [?|[?|(c & Hc & Hp)]])].
        -- by left; left; left.
        -- left. left. right. done.
        -- left. right. done.
        -- right. by exists c.
    + eapply Forall_impl; [exact IH | ]. intros c Hc a. apply Hc.
Qed.

(** The walk through the values a node holds under its other keys. *)
Lemma traverse_other_refs (entries : list (string * jvalue)) cur acc r :
  r ∈ image_refs (foldl (λ a entry, traverse_value entry.2 cur a) acc entries) ↔
  r ∈ image_refs acc ∨
  ∃ p, p ∈ entries ≫= (λ entry, value_paints entry.2) ∧
       paint_type p = Some "IMAGE" ∧ paint_imageRef p = Some r.
Proof.
  rewrite exists_elem_bind.
  apply (foldl_elem_iff (λ a entry, traverse_value entry.2 cur a)
           (λ a, r ∈ image_refs a)
           (λ c, ∃ p, p ∈ value_paints c.2 ∧ paint_type p = Some "IMAGE" ∧
                      paint_imageRef p = Some r)).
  apply Forall_forall. intros c _ a. apply traverse_value_refs.
Qed.

Lemma traverse_other_nodes (entries : list (string * jvalue)) cur acc i :
  i ∈ image_nodes (foldl (λ a entry, traverse_value entry.2 cur a) acc entries) ↔
  i ∈ image_nodes acc ∨
  (cur = Some i ∧ truthy i = true ∧
   ∃ p, p ∈ entries ≫= (λ entry, value_paints entry.2) ∧
        paint_type p = Some "IMAGE" ∧ is_Some (paint_imageRef p)).
Proof.
  rewrite exists_elem_bind.
  rewrite (foldl_elem_iff (λ a entry, traverse_value entry.2 cur a)
             (λ a, i ∈ image_nodes a)
             (λ c, cur = Some i ∧ truthy i = true ∧
                   ∃ p, p ∈ value_paints c.2 ∧ paint_type p = Some "IMAGE" ∧
                        is_Some (paint_imageRef p))).
  - apply or_iff_compat_l. split.
    + intros (c & Hc & ? & ? & Hp). split_and!; try done. by exists c.
    + intros (? & ? & c & Hc & Hp). by exists c.
  - apply Forall_forall. intros c _ a. apply traverse_value_nodes.
Qed.

Lemma traverse_refs obj :
  ∀ cur acc r,
    r ∈ image_refs (traverse obj cur acc) ↔
    r ∈ image_refs acc ∨
    ∃ n, n ∈ subtree obj ∧
         ∃ p, p ∈ paints_read n ∧ paint_type p = Some "IMAGE" ∧
              paint_imageRef p = Some r.
Proof.
  induction obj as [obj IH] using node_ind'. intros cur acc r.
  rewrite traverse_eq, exists_subtree_split. cbv zeta.
  rewrite traverse_other_refs. unfold paints_read at 1, other_paints.
  rewrite exists_elem_app.
  destruct (n_children obj) as [l| ]; cbn [default from_option id].
  - rewrite (foldl_elem_iff (λ a item, traverse item (current_id obj cur) a)
               (λ a, r ∈ image_refs a)
               (λ c, ∃ n, n ∈ subtree c ∧
                     ∃ p, p ∈ paints_read n ∧
                          paint_type p = Some "IMAGE" ∧ paint_imageRef p = Some r)).
    + rewrite own_paints_refs. tauto.
    + eapply Forall_impl; [exact (IH l eq_refl) | ]. intros c Hc a. apply Hc.
  - rewrite own_paints_refs, exists_elem_nil. tauto.
Qed.

Lemma traverse_nodes obj :
  ∀ cur acc i,
    i ∈ image_nodes (traverse obj cur acc) ↔
    i ∈ image_nodes acc ∨
    ∃ x, x ∈ traversed obj cur ∧
         x.2 = Some i ∧ truthy i = true ∧
         ∃ p, p ∈ paints_read x.1 ∧ paint_type p = Some "IMAGE" ∧
              is_Some (paint_imageRef p).
Proof.
  induction obj as [obj IH] using node_ind'. intros cur acc i.
  rewrite traverse_eq,
    (exists_traversed_split obj cur
       (λ x, x.2 = Some i ∧ truthy i = true ∧
             ∃ p, p ∈ paints_read x.1 ∧ paint_type p = Some "IMAGE" ∧
                  is_Some (paint_imageRef p))).
  cbv zeta. cbn [fst snd].
  rewrite traverse_other_nodes. unfold paints_read at 1, other_paints.
  rewrite exists_elem_app.
  destruct (n_children obj) as [l| ]; cbn [default from_option id].
  - rewrite (foldl_elem_iff (λ a item, traverse item (current_id obj cur) a)
               (λ a, i ∈ image_nodes a)
               (λ c, ∃ x, x ∈ traversed c (current_id obj cur) ∧
                     x.2 = Some i ∧ truthy i = true ∧
                     ∃ p, p ∈ paints_read x.1 ∧
                          paint_type p = Some "IMAGE" ∧
                          is_Some (paint_imageRef p))).
    + rewrite own_paints_nodes. tauto.
    + eapply Forall_impl; [exact (IH l eq_refl) | ]. intros c Hc a. apply Hc.
  - rewrite own_paints_nodes, exists_elem_nil. tauto.
Qed.

(** A current node id is the id of the node or of an ancestor, and
    contains a colon. *)
Lemma traversed_current obj :
  ∀ cur x i, x ∈ traversed obj cur → x.2 = Some i →
             cur = Some i ∨ contains_colon i = true.
Proof.
  induction obj as [obj IH] using node_ind'. intros cur x i.
  rewrite traversed_eq.
  assert (Hown : ∀ j, current_id obj cur = Some j →
                      cur = Some j ∨ contains_colon j = true).
  { intros j. unfold current_id. destruct (n_id obj) as [k| ]; [ | by left].
    destruct (contains_colon k) eqn:Hk; [ | by left]. intros [= <-]. by right. }
  intros [->|Hx]%elem_of_cons Hi; [by apply Hown | ].
  destruct (n_children obj) as [l| ]; [ | by apply elem_of_nil in Hx].
  apply list_elem_of_bind in Hx as (c & Hx & Hc).
  specialize (IH l eq_refl). rewrite Forall_forall in IH.
  destruct (IH c Hc _ _ _ Hx Hi) as [Hcur|?]; [by apply Hown | by right].
Qed.

Lemma contains_colon_truthy i : contains_colon i = true → truthy i = true.
Proof. by destruct i. Qed.

Lemma truthy_iff s : truthy s = true ↔ s ≠ "".
Proof. by destruct s. Qed.

Lemma collect_refs_spec paints refs r :
  r ∈ collect_refs paints refs ↔
  r ∈ refs ∨
  ∃ p, p ∈ paints ∧ paint_type p = Some "IMAGE" ∧ paint_imageRef p = Some r ∧
       truthy r = true.
Proof.
  unfold collect_refs.
  apply (foldl_elem_iff _ (λ s : gset string, r ∈ s)
           (λ p, paint_type p = Some "IMAGE" ∧ paint_imageRef p = Some r ∧
                 truthy r = true)).
  apply Forall_forall. intros p _ acc.
  destruct (paint_type p) as [t| ]; [ | split; [by left | by intros [?|[[=] _]]]].
  destruct (String.eqb_spec t "IMAGE") as [->|Hne];
    [ | split; [by left | intros [?|[[= ->] _]]; done]].
  destruct (paint_imageRef p) as [r'| ];
    [ | split; [by left | by intros [?|(_ & [=] & _)]]].
  destruct (truthy r') eqn:Hr'.
  - rewrite elem_of_union, elem_of_singleton.
    split; [intros [->|?]; [by right | by left] | ].
    intros [?|(_ & [= ->] & _)]; [by right | by left].
  - split; [by left | ]. intros [?|(_ & [= ->] & ?)]; [done | congruence].
Qed.

Lemma own_collect_refs n refs r :
  r ∈ match n_background n with
      | Some bgs =>
          collect_refs bgs
            (match n_backgrounds n with
             | Some bgs' =>
                 collect_refs bgs'
                   (match n_fills n with
                    | Some fills => collect_refs fills refs
                    | None => refs
                    end)
             | None => match n_fills n with
                       | Some fills => collect_refs fills refs
                       | None => refs
                       end
             end)
      | None =>
          match n_backgrounds n with
          | Some bgs' =>
              collect_refs bgs'
                (match n_fills n with
                 | Some fills => collect_refs fills refs
                 | None => refs
                 end)
          | None => match n_fills n with
                    | Some fills => collect_refs fills refs
                    | None => refs
                    end
          end
      end ↔
  r ∈ refs ∨
  ∃ p, p ∈ all_paint_lists n ∧ paint_type p = Some "IMAGE" ∧
       paint_imageRef p = Some r ∧ truthy r = true.
Proof.
  assert (Hsplit : ∀ l1 l2 l3 : list paint,
    (∃ p, p ∈ l1 ++ l2 ++ l3 ∧ paint_type p = Some "IMAGE" ∧
          paint_imageRef p = Some r ∧ truthy r = true) ↔
    (∃ p, p ∈ l1 ∧ paint_type p = Some "IMAGE" ∧
          paint_imageRef p = Some r ∧ truthy r = true) ∨
    (∃ p, p ∈ l2 ∧ paint_type p = Some "IMAGE" ∧
          paint_imageRef p = Some r ∧ truthy r = true) ∨
    (∃ p, p ∈ l3 ∧ paint_type p = Some "IMAGE" ∧
          paint_imageRef p = Some r ∧ truthy r = true)).
  { intros l1 l2 l3. split.
    - intros (p & [?|[?|?]%elem_of_app]%elem_of_app & ?);
        [left | right; left | right; right]; by exists p.
    - intros [(p & ? & ?)|[(p & ? & ?)|(p & ? & ?)]]; exists p;
        (split; [ | done]); rewrite !elem_of_app; auto. }
  assert (Hnil : (∃ p, p ∈ @nil paint ∧ paint_type p = Some "IMAGE" ∧
                       paint_imageRef p = Some r ∧ truthy r = true) ↔ False).
  { split; [by intros (? & []%elem_of_nil & _) | done]. }
  unfold all_paint_lists. rewrite Hsplit.
  destruct (n_fills n) as [fl| ], (n_backgrounds n) as [bgs| ],
    (n_background n) as [bg| ]; cbn [default from_option id];
    rewrite ?collect_refs_spec, ?Hnil; tauto.
Qed.

Lemma traverse_node_refs n :
  ∀ refs r,
    r ∈ traverse_node n refs ↔
    r ∈ refs ∨
    ∃ m, m ∈ subtree n ∧
         ∃ p, p ∈ all_paint_lists m ∧ paint_type p = Some "IMAGE" ∧
              paint_imageRef p = Some r ∧ truthy r = true.
Proof.
  induction n as [n IH] using node_ind'. intros refs r.
  rewrite traverse_node_eq, exists_subtree_split. cbv zeta.
  destruct (n_children n) as [l| ]; cbn [default from_option id].
  - rewrite (foldl_elem_iff (λ r child, traverse_node child r)
               (λ s : gset string, r ∈ s)
               (λ c, ∃ m, m ∈ subtree c ∧
                     ∃ p, p ∈ all_paint_lists m ∧ paint_type p = Some "IMAGE" ∧
                          paint_imageRef p = Some r ∧ truthy r = true)).
    + rewrite own_collect_refs. tauto.
    + eapply Forall_impl; [exact (IH l eq_refl) | ]. intros c Hc a. apply Hc.
  - rewrite own_collect_refs. split; [intros [?|?]; auto | ].
    intros [?|[?|(? & []%elem_of_nil & _)]]; auto.
Qed.

(** C9, as the code has it.  [find_image_references_and_nodes] returns two
    sets.  The first holds the [imageRef] of every IMAGE entry of a [fills]
    or [backgrounds] list, be it the list of a node or of a dictionary held
    under another key of a node, such as an entry of a [styleOverrideTable]
    (the legacy [background] list is not read).  The second holds, for every
    node with such an entry, the nearest id with a colon at or above it.
    [_extract_image_references] returns one set, the non-empty [imageRef]s of
    the IMAGE entries of the [fills], [backgrounds] and [background] lists
    of the nodes themselves.  Being sets, they hold each value once. *)
Theorem C9_image_reference_sets (data : figma_file) (r i : string) :
  (r ∈ image_refs (find_image_references_and_nodes data) ↔
   ∃ n p, n ∈ document_nodes data ∧ p ∈ paints_read n ∧
          paint_type p = Some "IMAGE" ∧ paint_imageRef p = Some r) ∧
  (i ∈ image_nodes (find_image_references_and_nodes data) ↔
   ∃ n p, (n, Some i) ∈ document_traversed data ∧ p ∈ paints_read n ∧
          paint_type p = Some "IMAGE" ∧ is_Some (paint_imageRef p)) ∧
  (r ∈ _extract_image_references data ↔
   r ≠ "" ∧
   ∃ n p, n ∈ document_nodes data ∧ p ∈ all_paint_lists n ∧
          paint_type p = Some "IMAGE" ∧ paint_imageRef p = Some r) ∧
  NoDup (elements (image_refs (find_image_references_and_nodes data))) ∧
  NoDup (elements (image_nodes (find_image_references_and_nodes data))) ∧
  NoDup (elements (_extract_image_references data)).
Proof.
  unfold find_image_references_and_nodes, _extract_image_references,
    document_nodes, document_traversed.
  split_and!; try apply NoDup_elements.
  - destruct (fd_document data) as [document| ].
    + rewrite traverse_refs. cbn [image_refs]. split.
      * intros [[]%not_elem_of_empty|(n & Hn & p & Hp)]. by exists n, p.
      * intros (n & p & Hn & Hp). right. exists n. split; [done | by exists p].
    + cbn [image_refs]. split; [by intros []%not_elem_of_empty | ].
      by intros (? & ? & []%elem_of_nil & _).
  - destruct (fd_document data) as [document| ].
    + rewrite traverse_nodes. cbn [image_nodes]. split.
      * intros [[]%not_elem_of_empty|([n c] & Hx & Hc & _ & p & Hp)].
        cbn [fst snd] in *. subst c. by exists n, p.
      * intros (n & p & Hn & Hp). right. exists (n, Some i).
        split; [done | ]. split; [done | ]. split; [ | by exists p].
        destruct (traversed_current document None (n, Some i) i Hn eq_refl)
          as [[=]|Hc].
        by apply contains_colon_truthy.
    + cbn [image_nodes]. split; [by intros []%not_elem_of_empty | ].
      by intros (? & ? & []%elem_of_nil & _).
  - rewrite traverse_node_refs, <- truthy_iff.
    destruct (fd_document data) as [document| ]; cbn [default from_option id].
    + split.
      * intros [[]%not_elem_of_empty|(n & Hn & p & Hp & Ht & Hr & Hrt)].
        split; [done | ]. by exists n, p.
      * intros (Hrt & n & p & Hn & Hp & Ht & Hr). right. exists n.
        split; [done | ]. by exists p.
    + split.
      * intros [[]%not_elem_of_empty|(n & Hn & p & Hp & _)].
        apply list_elem_of_singleton in Hn as ->. by apply elem_of_nil in Hp.
      * by intros (_ & ? & ? & []%elem_of_nil & _).
Qed.

(** C9 as stated fails: the frame ["50:1"] has an IMAGE entry with
    reference ["img9"] in its legacy [background] list, and
    [find_image_references_and_nodes], the one extraction that also returns
    node ids, returns neither the reference nor the node. *)
Lemma C9_legacy_background_not_collected :
  (∃ n p, n ∈ document_nodes legacy_background_file ∧
          p ∈ default [] (n_background n) ∧
          paint_type p = Some "IMAGE" ∧ paint_imageRef p = Some "img9") ∧
  ("img9" ∉ image_refs (find_image_references_and_nodes legacy_background_file)) ∧
  ("50:1" ∉ image_nodes (find_image_references_and_nodes legacy_background_file)) ∧
  "img9" ∈ _extract_image_references legacy_background_file.
Proof.
  split_and!.
  - eexists _, (image_fill "img9"). split_and!; try reflexivity.
    + unfold document_nodes. simpl. right. right. left.
    + simpl. left.
  - vm_compute. intros [=].
  - vm_compute. intros [=].
  - vm_compute. reflexivity.
Qed.

(** One image used by three nodes is one reference, and three node ids. *)
Example shared_image_once :
  elements (image_refs (find_image_references_and_nodes shared_image_file))
    = ["img7"] ∧
  elements (_extract_image_references shared_image_file) = ["img7"] ∧
  size (image_nodes (find_image_references_and_nodes shared_image_file)) = 3.
Proof. split_and!; vm_compute; reflexivity. Qed.

(** * The preprocessor: what is exported, how deep, and what is counted *)

(** ** The depth of the content scan *)

Lemma level_subtree k : ∀ n x, x ∈ level k n → x ∈ subtree n.
Proof.
  induction k as [ |k IH]; intros n x; cbn [level]; rewrite subtree_eq.
  - intros ->%list_elem_of_singleton. left.
  - intros (c & Hx & Hc)%list_elem_of_bind. right.
    destruct (n_children n) as [l| ]; [ | by apply elem_of_nil in Hc].
    apply list_elem_of_bind. exists c. split; [by apply IH | done].
Qed.

Lemma level_below k n x : x ∈ level (S k) n → x ∈ below n.
Proof.
  cbn [level]. unfold below. intros (c & Hx & Hc)%list_elem_of_bind.
  destruct (n_children n) as [l| ]; [ | by apply elem_of_nil in Hc].
  apply list_elem_of_bind. exists c. split; [by eapply level_subtree | done].
Qed.

Lemma scanned_levels child :
  ∀ depth x,
    x ∈ scanned child depth ↔ ∃ k, (depth + k ≤ 5)%nat ∧ x ∈ level k child.
Proof.
  induction child as [child IH] using node_ind'. intros depth x.
  rewrite scanned_eq. destruct (Nat.ltb_spec 5 depth) as [Hd|Hd].
  - split; [by intros ?%elem_of_nil | intros (k & ? & _); lia].
  - rewrite elem_of_cons. split.
    + intros [->|Hx].
      * exists 0. split; [lia | left].
      * destruct (n_children child) as [l| ] eqn:Hl; [ | by apply elem_of_nil in Hx].
        apply list_elem_of_bind in Hx as (c & Hx & Hc).
        specialize (IH l eq_refl). rewrite Forall_forall in IH.
        apply IH in Hx as (k & Hk & Hx); [ | done].
        exists (S k). split; [lia | ]. cbn [level]. rewrite Hl.
        apply list_elem_of_bind. by exists c.
    + intros (k & Hk & Hx). destruct k as [ |k]; cbn [level] in Hx.
      * left. by apply list_elem_of_singleton in Hx.
      * right. destruct (n_children child) as [l| ] eqn:Hl;
          [ | by apply elem_of_nil in Hx].
        cbn [default from_option id] in Hx.
        apply list_elem_of_bind in Hx as (c & Hx & Hc).
        apply list_elem_of_bind. exists c. split; [ | done].
        specialize (IH l eq_refl). rewrite Forall_forall in IH.
        apply IH; [done | ]. exists k. split; [lia | done].
Qed.

Lemma group_scanned_levels g x :
  x ∈ group_scanned g ↔ ∃ k, (1 ≤ k ≤ 6)%nat ∧ x ∈ level k g.
Proof.
  unfold group_scanned. rewrite list_elem_of_bind. split.
  - intros (c & (k & Hk & Hx)%scanned_levels & Hc).
    exists (S k). split; [lia | ]. cbn [level]. apply list_elem_of_bind. by exists c.
  - intros (k & Hk & Hx). destruct k as [ |k]; [lia | ]. cbn [level] in Hx.
    apply list_elem_of_bind in Hx as (c & Hx & Hc). exists c. split; [ | done].
    apply scanned_levels. exists k. split; [lia | done].
Qed.


(** ** Which ids are exported *)

Lemma claimed_keys_iff data k :
  k ∈ (file_calls data ≫= claimed_by).*1 ↔
  ∃ g path pg x, (g, path, pg) ∈ file_calls data ∧ get_type g = "GROUP" ∧
                 x ∈ group_scanned g ∧ _is_pure_vector x = true ∧ get_id x = k.
Proof.
  split.
  - intros [r Hr]%key_has_entry.
    apply claimed_entry_node in Hr as (g & path & pg & x & Hc & Hg & Hx & Hp & _ & [=]).
    subst. by exists g, path, pg, x.
  - intros (g & path & pg & x & Hc & Hg & Hx & Hp & <-).
    apply list_elem_of_fmap.
    exists (child_entry g (join_path path (get_name g)) (descriptor_of x)).
    split; [done | ]. apply list_elem_of_bind. exists (g, path, pg).
    split; [ | done]. cbn [claimed_by]. rewrite Hg. cbn.
    apply list_elem_of_fmap_2, list_elem_of_fmap_2, list_elem_of_filter. done.
Qed.

Lemma standalone_keys_iff data k :
  k ∈ (file_calls data ≫= standalone_by).*1 ↔
  ∃ n path, (n, path, None) ∈ file_calls data ∧ _is_pure_vector n = true ∧
            get_id n = k.
Proof.
  split.
  - intros [r Hr]%key_has_entry.
    apply standalone_entry_node in Hr as (n & path & Hc & Hp & _ & [=]).
    subst. by exists n, path.
  - intros (n & path & Hc & Hp & <-).
    apply list_elem_of_fmap. exists (standalone_entry n (join_path path (get_name n))).
    split; [done | ]. apply list_elem_of_bind. exists (n, path, None).
    split; [ | done]. cbn [standalone_by].
    apply pure_vector_type in Hp as Ht. rewrite Ht, Hp. cbn. left.
Qed.

Lemma exported_keys_iff data k :
  k ∈ dict_keys (child_based_svg_downloads (analysis data)) ↔
  ∃ x, get_id x = k ∧ _is_pure_vector x = true ∧
       ((∃ path, (x, path, None) ∈ file_calls data) ∨
        (∃ g path pg j, (g, path, pg) ∈ file_calls data ∧ get_type g = "GROUP" ∧
                        (1 ≤ j ≤ 6)%nat ∧ x ∈ level j g)).
Proof.
  rewrite downloads_keys. destruct (analysis_dicts data) as [-> ->].
  rewrite !dict_update_keys, claimed_keys_iff, standalone_keys_iff.
  unfold dict_keys. cbn [fmap list_fmap]. rewrite !elem_of_nil. split.
  - intros [[[]|(g & path & pg & x & Hc & Hg & Hx & Hp & Hk)]
           |[[]|(n & path & Hc & Hp & Hk)]].
    + exists x. split_and!; [done | done | right].
      apply group_scanned_levels in Hx as (j & Hj & Hx). by exists g, path, pg, j.
    + exists n. split_and!; [done | done | left]. by exists path.
  - intros (x & Hk & Hp & [(path & Hc)|(g & path & pg & j & Hc & Hg & Hj & Hx)]).
    + right. right. by exists x, path.
    + left. right. exists g, path, pg, x. split_and!; try done.
      apply group_scanned_levels. by exists j.
Qed.

(** X1. The ids of [_svgDownloads] after a run are exactly the ids of the
    nodes that qualify under [_is_pure_vector] and that are either reached
    by [analyze_node] with no parent group, or lie one to six levels below a
    GROUP that [analyze_node] reaches.  Nothing else is exported, and every
    such node is. *)
Theorem X1_exported_ids_characterised (self : preprocessor) (raw : loc)
    (now : string) (h : heap) (data : figma_file) :
  valid_input raw h data →
  ∃ self' out d,
    run_produces self raw now h self' out ∧ fd_svgDownloads out = Some d ∧
    ∀ k, k ∈ dict_keys d ↔
         ∃ x, get_id x = k ∧ _is_pure_vector x = true ∧
              ((∃ path, (x, path, None) ∈ file_calls data) ∨
               (∃ g path pg j,
                   (g, path, pg) ∈ file_calls data ∧ get_type g = "GROUP" ∧
                   (1 ≤ j ≤ 6)%nat ∧ x ∈ level j g)).
Proof.
  intros Hv. destruct (run_produces_analysis self raw now h data Hv)
    as (out & Hrun & Hd & _ & _).
  exists (analysis data), out, (child_based_svg_downloads (analysis data)).
  split_and!; [done | done | ]. apply exported_keys_iff.
Qed.

Lemma X1_exported_ids_witness :
  valid_input 0 [ObjFile nested_file] nested_file ∧
  ∃ self' out d,
    run_produces init 0 "2024-05-01T10:00:00" [ObjFile nested_file] self' out ∧
    fd_svgDownloads out = Some d ∧
    ("1:3" ∈ dict_keys d ↔
     ∃ x, get_id x = "1:3" ∧ _is_pure_vector x = true ∧
          ((∃ path, (x, path, None) ∈ file_calls nested_file) ∨
           (∃ g path pg j,
               (g, path, pg) ∈ file_calls nested_file ∧ get_type g = "GROUP" ∧
               (1 ≤ j ≤ 6)%nat ∧ x ∈ level j g))).
Proof.
  pose proof (valid_input_single nested_file eq_refl) as Hv.
  split; [exact Hv | ].
  destruct (X1_exported_ids_characterised init 0 "2024-05-01T10:00:00"
              [ObjFile nested_file] nested_file Hv)
    as (self' & out & d & Hrun & Hd & Hk).
  exists self', out, d. split_and!; [done | done | apply Hk].
Defined.

(** ** Nodes inside groups *)

(** The nodes [analyze_node] is called on and the nodes inside the groups
    it decomposes are, together, the nodes of the tree. *)
Lemma calls_partition n :
  ∀ path pg,
    (calls n path pg).*1.*1 ++ inside_groups (calls n path pg) ≡ₚ subtree n.
Proof.
  induction n as [n IH] using node_ind'. intros path pg.
  rewrite calls_eq, subtree_eq. unfold inside_groups.
  rewrite bind_cons, !fmap_cons. cbn [fst].
  destruct (get_type n =? "GROUP") eqn:Hg.
  - rewrite list_bind_nil, app_nil_r. done.
  - rewrite app_nil_l. cbn [app]. f_equiv.
    destruct (n_children n) as [l| ]; [ | done].
    specialize (IH l eq_refl). clear -IH.
    induction IH as [ |c l Hc _ IHl]; [done | ].
    rewrite !bind_cons, !fmap_app, bind_app, app_interleave.
    f_equiv; [apply Hc | apply IHl].
Qed.

Lemma file_calls_partition data :
  (file_calls data).*1.*1 ++ inside_groups (file_calls data) ≡ₚ file_nodes data.
Proof.
  unfold file_calls, file_nodes, inside_groups.
  induction (file_pages data) as [ |page l IH]; [done | ].
  rewrite !bind_cons, !fmap_app, bind_app, app_interleave.
  f_equiv; [apply calls_partition | apply IH].
Qed.

Lemma NoDup_fmap_app_disjoint {A B} (f : A → B) (l1 l2 : list A) x y :
  NoDup (f <$> (l1 ++ l2)) → x ∈ l1 → y ∈ l2 → f x ≠ f y.
Proof.
  rewrite fmap_app. intros (_ & Hd & _)%NoDup_app Hx Hy Heq.
  apply (Hd (f x)); [by apply list_elem_of_fmap_2 | ].
  rewrite Heq. by apply list_elem_of_fmap_2.
Qed.

Lemma NoDup_fmap_bind_part {A B C} (f : B → C) (h : A → list B) (l : list A) a :
  NoDup (f <$> (l ≫= h)) → a ∈ l → NoDup (f <$> h a).
Proof.
  induction l as [ |a' l IH]; [by intros _ ?%elem_of_nil | ].
  rewrite bind_cons, fmap_app. intros (H1 & _ & H2)%NoDup_app [->|Ha]%elem_of_cons;
    [done | by apply IH].
Qed.

Lemma NoDup_fmap_bind_same {A B C} (f : B → C) (h : A → list B) (l : list A)
    a b x y :
  NoDup (f <$> (l ≫= h)) → a ∈ l → b ∈ l → x ∈ h a → y ∈ h b → f x = f y → a = b.
Proof.
  induction l as [ |a' l IH]; [by intros _ ?%elem_of_nil | ].
  rewrite bind_cons. intros Hnd Ha Hb Hx Hy Heq.
  apply elem_of_cons in Ha as [->|Ha]; apply elem_of_cons in Hb as [->|Hb];
    try done.
  - exfalso. eapply (NoDup_fmap_app_disjoint f); [exact Hnd | exact Hx | | exact Heq].
    apply list_elem_of_bind. by exists b.
  - exfalso. eapply (NoDup_fmap_app_disjoint f); [exact Hnd | exact Hy | | by symmetry].
    apply list_elem_of_bind. by exists a.
  - rewrite fmap_app in Hnd. apply NoDup_app in Hnd as (_ & _ & Hnd).
    by apply IH.
Qed.

(** In a tree with distinct ids, an id occurs at one level only. *)
Lemma level_unique n :
  ∀ j k x y,
    NoDup (get_id <$> subtree n) → x ∈ level j n → y ∈ level k n →
    get_id x = get_id y → j = k.
Proof.
  induction n as [n IH] using node_ind'. intros j k x y Hnd Hx Hy Hid.
  rewrite subtree_eq, fmap_cons in Hnd. apply NoDup_cons in Hnd as [Hn Hnd].
  destruct j as [ |j], k as [ |k]; [done | | | ].
  - exfalso. apply Hn. apply list_elem_of_singleton in Hx as ->. rewrite Hid.
    apply list_elem_of_fmap_2. by apply level_below in Hy.
  - exfalso. apply Hn. apply list_elem_of_singleton in Hy as ->. rewrite <- Hid.
    apply list_elem_of_fmap_2. by apply level_below in Hx.
  - f_equal. cbn [level] in Hx, Hy.
    destruct (n_children n) as [l| ] eqn:Hl; [ | by apply elem_of_nil in Hx].
    cbn [default from_option id] in Hx, Hy.
    apply list_elem_of_bind in Hx as (c1 & Hx & Hc1).
    apply list_elem_of_bind in Hy as (c2 & Hy & Hc2).
    assert (c1 = c2) as <-.
    { eapply (NoDup_fmap_bind_same get_id subtree l c1 c2 x y); try done.
      - by eapply level_subtree.
      - by eapply level_subtree. }
    specialize (IH l eq_refl). rewrite Forall_forall in IH.
    eapply (IH c1 Hc1 j k x y); try done.
    by eapply NoDup_fmap_bind_part.
Qed.

Lemma deep_vector_not_exported data g path pg v k :
  NoDup (get_id <$> file_nodes data) →
  (g, path, pg) ∈ file_calls data → get_type g = "GROUP" →
  (6 < k)%nat → v ∈ level k g →
  get_id v ∉ dict_keys (child_based_svg_downloads (analysis data)).
Proof.
  intros Hnd Hc Hg Hk Hv Hin.
  rewrite <- (file_calls_partition data) in Hnd.
  assert (Hinside : ∀ g' path' pg' j y,
            (g', path', pg') ∈ file_calls data → get_type g' = "GROUP" →
            y ∈ level (S j) g' →
            y ∈ (λ c : call, if get_type c.1.1 =? "GROUP" then below c.1.1 else [])
                  (g', path', pg')).
  { intros g' path' pg' j y _ Hg' Hy. cbn [fst]. rewrite Hg'. cbn.
    by eapply level_below. }
  assert (Hvin : ∀ g' path' pg' j y,
            (g', path', pg') ∈ file_calls data → get_type g' = "GROUP" →
            y ∈ level (S j) g' → y ∈ inside_groups (file_calls data)).
  { intros g' path' pg' j y Hc' Hg' Hy. apply list_elem_of_bind.
    exists (g', path', pg'). split; [by eapply Hinside | done]. }
  assert (Hcn : ∀ g' path' pg', (g', path', pg') ∈ file_calls data →
                                g' ∈ (file_calls data).*1.*1).
  { intros g' path' pg' Hc'. apply list_elem_of_fmap. exists (g', path').
    split; [done | ]. apply list_elem_of_fmap. by exists (g', path', pg'). }
  destruct k as [ |k]; [lia | ].
  apply exported_keys_iff in Hin
    as (x & Hid & Hp & [(path' & Hc')|(g' & path' & pg' & j & Hc' & Hg' & Hj & Hx)]).
  - eapply (NoDup_fmap_app_disjoint get_id); [exact Hnd | | | exact Hid].
    + by eapply Hcn.
    + eapply Hvin; [exact Hc | exact Hg | exact Hv].
  - destruct j as [ |j]; [lia | ].
    assert (Hnd2 : NoDup (get_id <$> inside_groups (file_calls data))).
    { rewrite fmap_app in Hnd. by apply NoDup_app in Hnd as (_ & _ & ?). }
    assert ((g', path', pg') = (g, path, pg)) as [= -> -> ->].
    { eapply (NoDup_fmap_bind_same get_id _ (file_calls data) _ _ x v);
        [exact Hnd2 | done | done | by eapply (Hinside g' path' pg' j)
         | by eapply (Hinside g path pg k) | done]. }
    assert (Hg_nd : NoDup (get_id <$> subtree g)).
    { rewrite subtree_eq, fmap_cons. apply NoDup_cons. split.
      - intros (y & Hy & Hyin)%list_elem_of_fmap.
        eapply (NoDup_fmap_app_disjoint get_id); [exact Hnd | | | exact Hy].
        + by eapply Hcn.
        + apply list_elem_of_bind. exists (g, path, pg). split; [ | done].
          cbn [fst]. by rewrite Hg.
      - pose proof (NoDup_fmap_bind_part get_id _ _ _ Hnd2 Hc) as Hb.
        cbn [fst] in Hb. by rewrite Hg in Hb. }
    pose proof (level_unique g (S j) (S k) x v Hg_nd Hx Hv Hid). lia.
Qed.

(** X3. In a document with distinct node ids, a node that lies seven or
    more levels below a GROUP which [analyze_node] reaches is not exported:
    its id is no key of [_svgDownloads], whatever its type and fills.  The
    depth limit of [examine_child] drops it, and [analyze_node] does not
    descend into the group. *)
Theorem X3_vector_below_scan_depth_is_dropped (self : preprocessor) (raw : loc)
    (now : string) (h : heap) (data : figma_file) (g v : node) (path : string)
    (pg : option (string * string)) (k : nat) :
  valid_input raw h data →
  NoDup (get_id <$> file_nodes data) →
  (g, path, pg) ∈ file_calls data → get_type g = "GROUP" →
  (6 < k)%nat → v ∈ level k g →
  ∃ self' out d,
    run_produces self raw now h self' out ∧ fd_svgDownloads out = Some d ∧
    (get_id v ∉ dict_keys d) ∧
    (get_id v ∉ dict_keys (individual_vector_children self')) ∧
    (get_id v ∉ dict_keys (standalone_vectors self')).
Proof.
  intros Hv Hnd Hc Hg Hk Hlv.
  destruct (run_produces_analysis self raw now h data Hv)
    as (out & Hrun & Hd & _ & _).
  exists (analysis data), out, (child_based_svg_downloads (analysis data)).
  pose proof (deep_vector_not_exported data g path pg v k Hnd Hc Hg Hk Hlv) as Hno.
  split_and!; [done | done | done | | ];
    intros Hin; apply Hno, downloads_keys; auto.
Qed.

Lemma X3_deep_vector_witness :
  valid_input 0 [ObjFile deep_file] deep_file ∧
  _is_pure_vector deep_vector = true ∧
  ∃ self' out d,
    run_produces init 0 "2024-05-01T10:00:00" [ObjFile deep_file] self' out ∧
    fd_svgDownloads out = Some d ∧ "80:8" ∉ dict_keys d.
Proof.
  pose proof (valid_input_single deep_file eq_refl) as Hv.
  split; [exact Hv | ]. split; [reflexivity | ].
  destruct (X3_vector_below_scan_depth_is_dropped init 0 "2024-05-01T10:00:00"
              [ObjFile deep_file] deep_file deep_group deep_vector "Page 1" None 7 Hv)
    as (self' & out & d & Hrun & Hd & Hno & _).
  - by_computation.
  - unfold file_calls. simpl. right. left.
  - reflexivity.
  - lia.
  - simpl. left.
  - exists self', out, d. split; [exact Hrun | ]. split; [exact Hd | exact Hno].
Defined.

(** With distinct ids, a node is the subject of one call only. *)
Lemma file_calls_same_node data c c' :
  NoDup (get_id <$> file_nodes data) →
  c ∈ file_calls data → c' ∈ file_calls data → get_id c.1.1 = get_id c'.1.1 →
  c = c'.
Proof.
  intros Hnd Hc Hc' Hid. rewrite <- (file_calls_partition data), fmap_app in Hnd.
  apply NoDup_app in Hnd as (Hnd & _ & _).
  rewrite <- !list_fmap_compose in Hnd.
  by eapply (NoDup_fmap_elem_inj _ (file_calls data) c c' Hnd).
Qed.

Lemma contained_vector_not_exported data n path pg :
  NoDup (get_id <$> file_nodes data) →
  (n, path, Some pg) ∈ file_calls data →
  get_id n ∉ dict_keys (child_based_svg_downloads (analysis data)).
Proof.
  intros Hnd Hc Hin.
  apply exported_keys_iff in Hin
    as (x & Hid & Hp & [(path' & Hc')|(g' & path' & pg' & j & Hc' & Hg' & Hj & Hx)]).
  - by pose proof (file_calls_same_node data _ _ Hnd Hc' Hc Hid) as [=].
  - rewrite <- (file_calls_partition data) in Hnd.
    eapply (NoDup_fmap_app_disjoint get_id _ _ n x Hnd); [ | | done].
    + apply list_elem_of_fmap. exists (n, path). split; [done | ].
      apply list_elem_of_fmap. by exists (n, path, Some pg).
    + apply list_elem_of_bind. exists (g', path', pg'). split; [ | done].
      cbn [fst]. rewrite Hg'. cbn. destruct j as [ |j]; [lia | ].
      by eapply level_below.
Qed.

(** X4. In a document with distinct node ids, a node that [analyze_node]
    reaches with a parent group set, that is below a FRAME, COMPONENT or
    INSTANCE and not inside a GROUP, is never exported, even when it
    qualifies under [_is_pure_vector]: only [parent_group is None] makes a
    standalone record, and only a GROUP is scanned for vector children. *)
Theorem X4_vector_under_container_is_not_exported (self : preprocessor)
    (raw : loc) (now : string) (h : heap) (data : figma_file) (n : node)
    (path : string) (pg : string * string) :
  valid_input raw h data →
  NoDup (get_id <$> file_nodes data) →
  (n, path, Some pg) ∈ file_calls data →
  ∃ self' out d,
    run_produces self raw now h self' out ∧ fd_svgDownloads out = Some d ∧
    (get_id n ∉ dict_keys d) ∧
    (get_id n ∉ dict_keys (individual_vector_children self')) ∧
    (get_id n ∉ dict_keys (standalone_vectors self')).
Proof.
  intros Hv Hnd Hc.
  destruct (run_produces_analysis self raw now h data Hv)
    as (out & Hrun & Hd & _ & _).
  exists (analysis data), out, (child_based_svg_downloads (analysis data)).
  pose proof (contained_vector_not_exported data n path pg Hnd Hc) as Hno.
  split_and!; [done | done | done | | ];
    intros Hin; apply Hno, downloads_keys; auto.
Qed.

Lemma X4_framed_vector_witness :
  valid_input 0 [ObjFile framed_file] framed_file ∧
  _is_pure_vector vector_20_1 = true ∧
  ∃ self' out d,
    run_produces init 0 "2024-05-01T10:00:00" [ObjFile framed_file] self' out ∧
    fd_svgDownloads out = Some d ∧ "20:1" ∉ dict_keys d.
Proof.
  pose proof (valid_input_single framed_file eq_refl) as Hv.
  split; [exact Hv | ]. split; [reflexivity | ].
  destruct (X4_vector_under_container_is_not_exported init 0 "2024-05-01T10:00:00"
              [ObjFile framed_file] framed_file vector_20_1 "Page 1/Header"
              ("5:1", "Header") Hv)
    as (self' & out & d & Hrun & Hd & Hno & _).
  - by_computation.
  - unfold file_calls. simpl. right. right. left.
  - exists self', out, d. split; [exact Hrun | ]. split; [exact Hd | exact Hno].
Defined.

(** ** The counters *)

Ltac stats_eq :=
  repeat match goal with s : stats |- _ => destruct s end;
  unfold stats_plus, incr_total_nodes_scanned, incr_groups_analyzed,
    incr_vector_children_found, incr_individual_vectors_found,
    incr_text_nodes_filtered, incr_image_shapes_filtered,
    incr_empty_groups_skipped;
  cbn; f_equal; lia.

Lemma stats_plus_assoc a b c :
  stats_plus (stats_plus a b) c = stats_plus a (stats_plus b c).
Proof. stats_eq. Qed.

Lemma stats_plus_zero a : stats_plus a zero_stats = a.
Proof. unfold zero_stats. stats_eq. Qed.

Lemma scan_delta_app l1 l2 :
  scan_delta (l1 ++ l2) = stats_plus (scan_delta l1) (scan_delta l2).
Proof.
  unfold scan_delta, stats_plus. cbn. by rewrite !filter_app, !length_app.
Qed.

Lemma rules_stats x acc :
  scan_stats (examine_child_rules x acc) =
  stats_plus (scan_stats acc) (scan_delta [x]).
Proof.
  unfold examine_child_rules, scan_delta. rewrite inclusion_test_pure.
  rewrite !filter_cons, !filter_nil. unfold counted_as_text, counted_as_shape.
  destruct (_is_pure_vector x) eqn:Hp.
  - apply pure_vector_type in Hp as Ht. rewrite Ht. cbn [negb andb scan_stats].
    change ("VECTOR" =? "TEXT") with false.
    rewrite !(decide_False (P := false = true)) by done.
    generalize (scan_stats acc). intros s. stats_eq.
  - cbn [negb andb].
    destruct (get_type x =? "TEXT"); cbn [negb andb orb scan_stats];
      [ | destruct (get_type x =? "RECTANGLE"); cbn [negb andb orb scan_stats];
          [ | destruct (get_type x =? "ELLIPSE"); cbn [negb andb orb scan_stats];
              [ | destruct (get_isMask x); cbn [scan_stats] ] ] ];
      rewrite ?(decide_True (P := true = true)) by done;
      rewrite ?(decide_False (P := false = true)) by done;
      generalize (scan_stats acc); intros s; stats_eq.
Qed.

Lemma foldl_rules_stats l :
  ∀ acc, scan_stats (foldl (λ a c, examine_child_rules c a) acc l) =
         stats_plus (scan_stats acc) (scan_delta l).
Proof.
  induction l as [ |c l IH]; intros acc; cbn [foldl].
  - unfold scan_delta. cbn. generalize (scan_stats acc). intros s. stats_eq.
  - rewrite IH, rules_stats, stats_plus_assoc.
    by rewrite <- scan_delta_app.
Qed.

Lemma analyze_group_content_stats s g path :
  (_analyze_group_content s g path).2 = stats_plus s (scan_delta (group_scanned g)).
Proof.
  unfold _analyze_group_content, group_scanned. cbn [snd].
  rewrite (foldl_bind (λ a c, examine_child_rules c a) _ (λ c, scanned c 0)).
  - by rewrite foldl_rules_stats.
  - apply Forall_forall. intros x _ a. apply examine_child_scanned.
Qed.

Lemma foldl_store_stats g_id g_name current_path vcs :
  ∀ self,
    self_stats (foldl (store_vector_child g_id g_name current_path) self vcs) =
    stats_plus (self_stats self) (Stats 0 0 (length vcs) 0 0 0 0 0).
Proof.
  induction vcs as [ |vc vcs IH]; intros self; cbn [foldl].
  - generalize (self_stats self). intros s. stats_eq.
  - rewrite IH. cbn [store_vector_child self_stats length].
    generalize (self_stats self). intros s. stats_eq.
Qed.

Lemma calls_stats_app l1 l2 :
  calls_stats (l1 ++ l2) = stats_plus (calls_stats l1) (calls_stats l2).
Proof.
  unfold calls_stats, stats_plus, scanned_of. cbn.
  by rewrite !bind_app, !filter_app, !length_app.
Qed.

Lemma calls_stats_group n path pg :
  get_type n = "GROUP" →
  calls_stats [(n, path, pg)] =
  stats_plus
    (Stats 1 1 (length (filter (λ x, _is_pure_vector x = true) (group_scanned n))) 0
           0 0
           (if bool_decide (filter (λ x, _is_pure_vector x = true) (group_scanned n)
                            = [])
            then 1 else 0) 0)
    (scan_delta (group_scanned n)).
Proof.
  intros Hg. unfold calls_stats, scanned_of, is_group_call, is_empty_group_call,
    scan_delta, stats_plus.
  rewrite !bind_cons, !list_bind_nil, !app_nil_r, !filter_cons, !filter_nil.
  cbn [fst snd claimed_by standalone_by]. rewrite Hg.
  change ("GROUP" =? "GROUP") with true. cbn [andb].
  rewrite (decide_True (P := true = true)) by done.
  rewrite !length_fmap. cbn [length total_nodes_scanned groups_analyzed
    vector_children_found individual_vectors_found text_nodes_filtered
    image_shapes_filtered empty_groups_skipped total_vector_exports].
  f_equal; try lia. case_bool_decide as He.
  - by rewrite decide_True.
  - by rewrite decide_False.
Qed.

Lemma calls_stats_other n path pg :
  (get_type n =? "GROUP") = false →
  calls_stats [(n, path, pg)] =
  Stats 1 0 0 (if _is_pure_vector n && bool_decide (pg = None) then 1 else 0)
        0 0 0 0.
Proof.
  intros Hg. unfold calls_stats, scanned_of, is_group_call, is_empty_group_call.
  rewrite !bind_cons, !list_bind_nil, !app_nil_r, !filter_cons, !filter_nil.
  cbn [fst snd claimed_by standalone_by]. rewrite Hg. cbn [andb].
  rewrite (decide_False (P := false = true)) by done.
  rewrite !filter_nil. cbn [length]. f_equal.
  by destruct (_is_pure_vector n && bool_decide (pg = None)).
Qed.

(** The counters after [analyze_node]. *)
Lemma analyze_node_stats n :
  ∀ path pg self,
    self_stats (analyze_node n path pg self) =
    stats_plus (self_stats self) (calls_stats (calls n path pg)).
Proof.
  induction n as [n IH] using node_ind'. intros path pg self.
  rewrite analyze_node_eq, calls_eq. cbv zeta.
  destruct (String.eqb_spec (get_type n) "GROUP") as [Hg|Hg].
  - rewrite (calls_stats_group _ _ _ Hg).
    destruct (_analyze_group_content _ n (join_path path (get_name n)))
      as [ga s] eqn:Hga.
    pose proof (analyze_group_content_vectors
                  (self_stats (with_stats incr_groups_analyzed
                     (with_stats incr_total_nodes_scanned self)))
                  n (join_path path (get_name n))) as Hv.
    pose proof (analyze_group_content_stats
                  (self_stats (with_stats incr_groups_analyzed
                     (with_stats incr_total_nodes_scanned self)))
                  n (join_path path (get_name n))) as Hs.
    rewrite Hga in Hv, Hs. cbn [fst snd] in Hv, Hs.
    assert (Hlen : length (ga_vector_children ga) =
                   length (filter (λ x, _is_pure_vector x = true) (group_scanned n)))
      by (by rewrite Hv, length_fmap).
    destruct (ga_vector_children ga) as [ |vc vcs] eqn:Hvcs.
    + symmetry in Hv. apply fmap_nil_inv in Hv. rewrite Hv.
      rewrite bool_decide_eq_true_2 by done. cbn [with_stats self_stats length].
      rewrite Hs. cbn [with_stats self_stats].
      generalize (scan_delta (group_scanned n)), (self_stats self). intros d s0.
      stats_eq.
    + rewrite foldl_store_stats, Hlen. cbn [with_stats self_stats].
      rewrite Hs. cbn [with_stats self_stats].
      rewrite bool_decide_eq_false_2.
      2:{ intros He. rewrite He in Hlen. done. }
      generalize (scan_delta (group_scanned n)), (self_stats self),
        (length (filter (λ x, _is_pure_vector x = true) (group_scanned n))).
      intros d s0 m. stats_eq.
  - apply String.eqb_neq in Hg.
    change ((n, path, pg) :: ?l) with ([(n, path, pg)] ++ l).
    rewrite calls_stats_app, (calls_stats_other _ _ _ Hg), <- stats_plus_assoc.
    set (self1 := if _is_pure_vector n && bool_decide (pg = None) then _ else _).
    assert (H1 : self_stats self1 =
                 stats_plus (self_stats self)
                   (Stats 1 0 0
                      (if _is_pure_vector n && bool_decide (pg = None) then 1 else 0)
                      0 0 0 0)).
    { subst self1. destruct (_is_pure_vector n && bool_decide (pg = None));
        cbn [with_stats self_stats]; generalize (self_stats self); intros s0;
        stats_eq. }
    rewrite <- H1. destruct (n_children n) as [l| ].
    + specialize (IH l eq_refl). generalize self1. clear -IH.
      induction IH as [ |c l Hc _ IHl]; intros self1; cbn [foldl].
      * rewrite list_bind_nil. symmetry. apply stats_plus_zero.
      * rewrite bind_cons, calls_stats_app, <- stats_plus_assoc, <- Hc. apply IHl.
    + symmetry. apply stats_plus_zero.
Qed.

Lemma analysis_stats data :
  self_stats (analysis data) =
  set_total_vector_exports
    (length (individual_vector_children (analysis data)) +
     length (standalone_vectors (analysis data)))
    (calls_stats (file_calls data)).
Proof.
  unfold analysis, _analyze_groups_for_individual_children, file_calls, file_pages.
  cbn [with_stats self_stats individual_vector_children standalone_vectors].
  f_equal.
  destruct (fd_document data) as [document| ]; [ | done].
  assert (H : ∀ l self,
             self_stats (foldl (λ st page, analyze_node page "" None st) self l) =
             stats_plus (self_stats self)
               (calls_stats (l ≫= λ page, calls page "" None))).
  { induction l as [ |page l IH]; intros self; cbn [foldl].
    - symmetry. apply stats_plus_zero.
    - rewrite bind_cons, calls_stats_app, <- stats_plus_assoc,
        <- analyze_node_stats. apply IH. }
  rewrite H. cbn [_reset_stats self_stats].
  generalize (calls_stats (default [] (n_children document) ≫=
                             λ page, calls page "" None)).
  intros s. unfold zero_stats. stats_eq.
Qed.

Lemma claimed_by_length l :
  length (l ≫= claimed_by) =
  length (filter (λ x, _is_pure_vector x = true) (scanned_of l)).
Proof.
  unfold scanned_of. induction l as [ |[[n path] pg] l IH]; [done | ].
  rewrite !bind_cons, filter_app, !length_app, IH. f_equal.
  cbn [claimed_by fst]. destruct (get_type n =? "GROUP"); [ | done].
  by rewrite !length_fmap.
Qed.

Lemma standalone_by_length l :
  length (l ≫= standalone_by) =
  length (filter (λ c, is_standalone_call c = true) l).
Proof.
  induction l as [ |[[n path] pg] l IH]; [done | ].
  rewrite bind_cons, filter_cons, length_app, IH.
  change (is_standalone_call (n, path, pg))
    with (_is_pure_vector n && bool_decide (pg = None)).
  cbn [standalone_by fst snd].
  destruct (String.eqb_spec (get_type n) "GROUP") as [Hg|Hg].
  - destruct (_is_pure_vector n) eqn:Hp.
    + apply pure_vector_type in Hp. congruence.
    + cbn [andb]. by rewrite decide_False.
  - destruct (_is_pure_vector n && bool_decide (pg = None)).
    + by rewrite decide_True.
    + by rewrite decide_False.
Qed.

(** X5. What the eight counters of [self.stats] hold after a run:
    [total_nodes_scanned] is the number of [analyze_node] calls (nodes inside
    a GROUP are not counted), [groups_analyzed] the number of calls on a
    GROUP, [vector_children_found] the number of qualifying nodes the content
    scans examine, [individual_vectors_found] the number of calls that record
    a standalone vector, [text_nodes_filtered] and [image_shapes_filtered]
    the numbers of TEXT nodes and of non-qualifying RECTANGLE, ELLIPSE or
    mask nodes the scans examine, [empty_groups_skipped] the number of
    GROUP calls whose scan finds no qualifying node, and
    [total_vector_exports] the sum of the sizes of the two dictionaries. *)
Theorem X5_counters_count_the_traversal (self : preprocessor) (raw : loc)
    (now : string) (h : heap) (data : figma_file) :
  valid_input raw h data →
  ∃ self' out,
    run_produces self raw now h self' out ∧
    let s := get_preprocessing_stats self' in
    total_nodes_scanned s = length (file_calls data) ∧
    groups_analyzed s =
      length (filter (λ c, is_group_call c = true) (file_calls data)) ∧
    vector_children_found s =
      length (filter (λ x, _is_pure_vector x = true)
                     (scanned_of (file_calls data))) ∧
    individual_vectors_found s =
      length (filter (λ c, is_standalone_call c = true) (file_calls data)) ∧
    text_nodes_filtered s =
      length (filter (λ x, counted_as_text x = true)
                     (scanned_of (file_calls data))) ∧
    image_shapes_filtered s =
      length (filter (λ x, counted_as_shape x = true)
                     (scanned_of (file_calls data))) ∧
    empty_groups_skipped s =
      length (filter (λ c, is_empty_group_call c = true) (file_calls data)) ∧
    total_vector_exports s =
      length (individual_vector_children self') + length (standalone_vectors self').
Proof.
  intros Hv. destruct (run_produces_analysis self raw now h data Hv)
    as (out & Hrun & _).
  exists (analysis data), out. split; [done | ].
  unfold get_preprocessing_stats. cbv zeta. rewrite analysis_stats.
  cbn [set_total_vector_exports calls_stats total_nodes_scanned groups_analyzed
       vector_children_found individual_vectors_found text_nodes_filtered
       image_shapes_filtered empty_groups_skipped total_vector_exports].
  rewrite claimed_by_length, standalone_by_length. done.
Qed.

Lemma X5_counters_witness :
  valid_input 0 [ObjFile icon_file] icon_file ∧
  ∃ self' out,
    run_produces init 0 "2024-05-01T10:00:00" [ObjFile icon_file] self' out ∧
    get_preprocessing_stats self' = Stats 2 1 1 0 1 1 0 1.
Proof.
  pose proof (valid_input_single icon_file eq_refl) as Hv.
  split; [exact Hv | ].
  destruct (X5_counters_count_the_traversal init 0 "2024-05-01T10:00:00"
              [ObjFile icon_file] icon_file Hv)
    as (self' & out & Hrun & H1 & H2 & H3 & H4 & H5 & H6 & H7 & H8).
  exists self', out. split; [exact Hrun | ].
  destruct Hrun as (opt & h' & Hrun & _).
  vm_compute in Hrun. injection Hrun as _ <- _. reflexivity.
Defined.

(** ** Sizes *)

Lemma dict_set_length {V} (k : string) (v : V) (d : pydict V) :
  length (dict_set k v d) =
  if decide (k ∈ dict_keys d) then length d else S (length d).
Proof.
  induction d as [ |[k' v'] d IH]; [done | ]. cbn [dict_set].
  unfold dict_keys in *. rewrite fmap_cons. cbn [fst].
  destruct (String.eqb_spec k' k) as [->|Hne].
  - rewrite decide_True by left. done.
  - cbn [length]. rewrite IH. destruct (decide (k ∈ d.*1)) as [Hin|Hin].
    + rewrite decide_True by (by right). done.
    + rewrite decide_False; [done | ]. intros [->|?]%elem_of_cons; done.
Qed.

Lemma dict_update_length_le {V} (d : pydict V) (l : list (string * V)) :
  (length (dict_update d l) ≤ length d + length l)%nat.
Proof.
  revert d. induction l as [ |[k v] l IH]; intros d; cbn [dict_update foldl].
  - cbn. lia.
  - etrans; [apply IH | ]. cbn [fst snd length]. rewrite dict_set_length.
    destruct (decide (k ∈ dict_keys d)); lia.
Qed.

Lemma dict_update_length_eq {V} (d : pydict V) (l : list (string * V)) :
  NoDup l.*1 → (∀ k, k ∈ l.*1 → k ∉ dict_keys d) →
  length (dict_update d l) = length d + length l.
Proof.
  revert d. induction l as [ |[k v] l IH]; intros d Hnd Hd; cbn [dict_update foldl].
  - cbn. lia.
  - rewrite fmap_cons in Hnd. cbn [fst] in Hnd. apply NoDup_cons in Hnd as [Hk Hnd].
    change (foldl _ ?d0 l) with (dict_update d0 l). cbn [fst snd].
    rewrite IH; [ | done | ].
    + rewrite dict_set_length, decide_False; [cbn [length]; lia | ].
      apply Hd. rewrite fmap_cons. left.
    + intros k' Hk'. rewrite dict_keys_set.
      assert (k' ∉ dict_keys d) by (apply Hd; rewrite fmap_cons; by right).
      destruct (decide (k ∈ dict_keys d)); [done | ].
      intros [?|Hs]%elem_of_app; [done | ].
      apply list_elem_of_singleton in Hs as ->. done.
Qed.

Lemma downloads_length_le self :
  (length (child_based_svg_downloads self) ≤
   length (individual_vector_children self) + length (standalone_vectors self))%nat.
Proof.
  rewrite child_based_svg_downloads_eq.
  etrans; [apply dict_update_length_le | ]. rewrite length_fmap.
  pose proof (dict_update_length_le (V := svg_download) []
                ((λ kv, (kv.1, child_download kv.1 kv.2)) <$>
                   individual_vector_children self)) as H.
  rewrite length_fmap in H. cbn [length] in H. lia.
Qed.

Lemma downloads_length_eq self :
  NoDup (dict_keys (individual_vector_children self)) →
  NoDup (dict_keys (standalone_vectors self)) →
  (∀ k, k ∈ dict_keys (individual_vector_children self) →
        k ∉ dict_keys (standalone_vectors self)) →
  length (child_based_svg_downloads self) =
  length (individual_vector_children self) + length (standalone_vectors self).
Proof.
  intros H1 H2 H3. rewrite child_based_svg_downloads_eq.
  assert (Hk : ∀ {V W} (f : string → V → W) (l : pydict V),
             ((λ kv, (kv.1, f kv.1 kv.2)) <$> l).*1 = dict_keys l).
  { intros V W f l. unfold dict_keys. rewrite <- list_fmap_compose.
    by apply list_fmap_ext. }
  rewrite dict_update_length_eq.
  - rewrite dict_update_length_eq.
    + rewrite !length_fmap. cbn [length]. lia.
    + by rewrite Hk.
    + intros k _. unfold dict_keys. cbn. apply not_elem_of_nil.
  - by rewrite Hk.
  - intros k. rewrite Hk. intros Hin Hin2.
    apply dict_update_keys in Hin2 as [[]%elem_of_nil|Hin2].
    rewrite Hk in Hin2. by eapply H3.
Qed.

Lemma filter_length_impl {A} (P Q : A → Prop) `{!∀ x, Decision (P x)}
    `{!∀ x, Decision (Q x)} (l : list A) :
  (∀ x, P x → Q x) → (length (filter P l) ≤ length (filter Q l))%nat.
Proof.
  intros HPQ. induction l as [ |x l IH]; [done | ]. rewrite !filter_cons.
  destruct (decide (P x)) as [HP|HP].
  - rewrite decide_True by auto. cbn [length]. lia.
  - destruct (decide (Q x)); cbn [length]; lia.
Qed.

Lemma analysis_sizes data :
  (length (individual_vector_children (analysis data)) ≤
   length (file_calls data ≫= claimed_by))%nat ∧
  (length (standalone_vectors (analysis data)) ≤
   length (file_calls data ≫= standalone_by))%nat ∧
  (NoDup (get_id <$> file_nodes data) →
   length (individual_vector_children (analysis data)) =
     length (file_calls data ≫= claimed_by) ∧
   length (standalone_vectors (analysis data)) =
     length (file_calls data ≫= standalone_by) ∧
   ∀ k, k ∈ dict_keys (individual_vector_children (analysis data)) →
        k ∉ dict_keys (standalone_vectors (analysis data))).
Proof.
  destruct (analysis_dicts data) as [-> ->]. split_and!.
  - apply (dict_update_length_le []).
  - apply (dict_update_length_le []).
  - intros Hnd. destruct (file_entries_NoDup data Hnd) as (H1 & H2 & H3).
    split_and!.
    + rewrite dict_update_length_eq; [done | done | ].
      intros k _. apply not_elem_of_nil.
    + rewrite dict_update_length_eq; [done | done | ].
      intros k _. apply not_elem_of_nil.
    + intros k [[]%elem_of_nil|Hk]%dict_update_keys
               [[]%elem_of_nil|Hk']%dict_update_keys.
      by eapply H3.
Qed.

(** X6. Relations between the counters that hold after every run: no
    more empty groups than groups, no more groups than scanned nodes; the
    scanned nodes and the nodes inside the decomposed groups are together
    all nodes below the document; [_svgDownloads] has at most
    [total_vector_exports] entries, which is at most
    [vector_children_found + individual_vectors_found].  With distinct node
    ids the last two are equalities. *)
Theorem X6_counter_relations (self : preprocessor) (raw : loc)
    (now : string) (h : heap) (data : figma_file) :
  valid_input raw h data →
  ∃ self' out d,
    run_produces self raw now h self' out ∧ fd_svgDownloads out = Some d ∧
    let s := get_preprocessing_stats self' in
    (empty_groups_skipped s ≤ groups_analyzed s)%nat ∧
    (groups_analyzed s ≤ total_nodes_scanned s)%nat ∧
    total_nodes_scanned s + length (inside_groups (file_calls data)) =
      length (file_nodes data) ∧
    (length d ≤ total_vector_exports s)%nat ∧
    (total_vector_exports s ≤
     vector_children_found s + individual_vectors_found s)%nat ∧
    (NoDup (get_id <$> file_nodes data) →
     length d = total_vector_exports s ∧
     total_vector_exports s = vector_children_found s + individual_vectors_found s).
Proof.
  intros Hv. destruct (run_produces_analysis self raw now h data Hv)
    as (out & Hrun & Hd & _).
  exists (analysis data), out, (child_based_svg_downloads (analysis data)).
  split; [done | ]. split; [done | ].
  unfold get_preprocessing_stats. cbv zeta. rewrite analysis_stats.
  cbn [set_total_vector_exports calls_stats total_nodes_scanned groups_analyzed
       vector_children_found individual_vectors_found text_nodes_filtered
       image_shapes_filtered empty_groups_skipped total_vector_exports].
  destruct (analysis_sizes data) as (Hl1 & Hl2 & Heq).
  split_and!.
  - apply filter_length_impl. intros c. unfold is_empty_group_call, is_group_call.
    by intros [? _]%andb_prop.
  - apply length_filter.
  - rewrite <- (file_calls_partition data), length_app, !length_fmap. done.
  - apply downloads_length_le.
  - lia.
  - intros Hnd. destruct (Heq Hnd) as (E1 & E2 & Hdisj).
    destruct (analysis_keys_NoDup data) as [N1 N2].
    split; [by apply downloads_length_eq | lia].
Qed.

Lemma X6_counter_relations_witness :
  valid_input 0 [ObjFile icon_file] icon_file ∧
  NoDup (get_id <$> file_nodes icon_file) ∧
  ∃ self' out d,
    run_produces init 0 "2024-05-01T10:00:00" [ObjFile icon_file] self' out ∧
    fd_svgDownloads out = Some d ∧
    length d = total_vector_exports (get_preprocessing_stats self').
Proof.
  pose proof (valid_input_single icon_file eq_refl) as Hv.
  split; [exact Hv | ]. split; [by_computation | ].
  destruct (X6_counter_relations init 0 "2024-05-01T10:00:00"
              [ObjFile icon_file] icon_file Hv)
    as (self' & out & d & Hrun & Hd & _ & _ & _ & _ & _ & Heq).
  exists self', out, d. split; [exact Hrun | ]. split; [exact Hd | ].
  apply Heq. by_computation.
Defined.

(** ** The returned dictionary *)

Lemma analysis_document a b : fd_document a = fd_document b → analysis a = analysis b.
Proof.
  intros H. unfold analysis, _analyze_groups_for_individual_children. by rewrite H.
Qed.

(** X7. The dictionary [preprocess_figma_json] returns keeps the
    [document] tree of the input unchanged (nothing is filtered out of the
    tree) and every other top-level key; [_svgDownloads] and [_svgMapping]
    are replaced whatever the input held there; [_metadata] is a dictionary
    of its own that keeps the other entries of the input's [_metadata], has
    [preprocessing_applied = True] and records the time of the call and the
    counters of the run.  The input dictionary is left as it was. *)
Theorem X7_output_keeps_document_and_keys (self : preprocessor) (raw : loc)
    (now : string) (h : heap) (data : figma_file) :
  valid_input raw h data →
  ∃ opt self' h' out ml md info,
    preprocess_figma_json self raw now h = Some (opt, self', h') ∧
    read_file opt h' = Some out ∧
    fd_document out = fd_document data ∧
    fd_other out = fd_other data ∧
    fd_svgDownloads out = Some (child_based_svg_downloads self') ∧
    fd_svgMapping out = Some (svg_mapping_of (child_based_svg_downloads self')) ∧
    fd_metadata out = Some ml ∧ fd_metadata data ≠ Some ml ∧
    read_meta ml h' = Some md ∧
    md_other md = md_other (original_meta h data) ∧
    md_preprocessing_applied md = Some true ∧
    md_preprocessing md = Some info ∧
    processed_at info = now ∧
    statistics info = get_preprocessing_stats self' ∧
    opt ≠ raw ∧ read_file raw h' = Some data.
Proof.
  intros Hv.
  destruct (preprocess_figma_json_spec self raw now h data Hv)
    as (opt & ml & ext & Hrun & Hopt & Hml & Hf & Hm).
  destruct Hv as [Hraw Hmeta].
  assert (Hlt : ∀ l f, read_file l h = Some f → (l < length h)%nat).
  { intros l f Hl. apply read_file_Some in Hl. by eapply lookup_lt_Some. }
  eexists opt, (analysis data), (h ++ ext), _, ml, _, _.
  split_and!; try done; try reflexivity.
  - intros Hmd. destruct (Hmeta ml Hmd) as [m Hr].
    apply read_meta_Some, lookup_lt_Some in Hr. lia.
  - apply Hlt in Hraw. lia.
  - by apply read_file_ext.
Qed.

Lemma X7_output_witness :
  valid_input 0 [ObjFile icon_file] icon_file ∧
  ∃ opt self' h' out,
    preprocess_figma_json init 0 "2024-05-01T10:00:00" [ObjFile icon_file]
      = Some (opt, self', h') ∧
    read_file opt h' = Some out ∧ fd_document out = fd_document icon_file ∧
    read_file 0 h' = Some icon_file.
Proof.
  pose proof (valid_input_single icon_file eq_refl) as Hv.
  split; [exact Hv | ].
  destruct (X7_output_keeps_document_and_keys init 0 "2024-05-01T10:00:00"
              [ObjFile icon_file] icon_file Hv)
    as (opt & self' & h' & out & ml & md & info & Hrun & Hout & Hdoc & H).
  exists opt, self', h', out. split_and!; [exact Hrun | exact Hout | exact Hdoc | ].
  apply H.
Defined.

(** X8. Preprocessing is idempotent on its own output: running
    [preprocess_figma_json] on the dictionary a run returned gives a
    dictionary with the same [document], the same other keys, the same
    [_svgDownloads] and [_svgMapping] and the same counters; the export
    sections of the input are never read. *)
Theorem X8_preprocessing_own_output (self : preprocessor) (raw : loc)
    (now1 now2 : string) (h : heap) (data : figma_file) :
  valid_input raw h data →
  ∃ opt1 self1 h1 out1 opt2 self2 h2 out2,
    preprocess_figma_json self raw now1 h = Some (opt1, self1, h1) ∧
    read_file opt1 h1 = Some out1 ∧
    preprocess_figma_json self1 opt1 now2 h1 = Some (opt2, self2, h2) ∧
    read_file opt2 h2 = Some out2 ∧
    opt2 ≠ opt1 ∧
    self2 = self1 ∧
    fd_document out2 = fd_document out1 ∧
    fd_other out2 = fd_other out1 ∧
    fd_svgDownloads out2 = fd_svgDownloads out1 ∧
    fd_svgMapping out2 = fd_svgMapping out1 ∧
    read_file opt1 h2 = Some out1.
Proof.
  intros Hv.
  destruct (preprocess_figma_json_spec self raw now1 h data Hv)
    as (opt1 & ml1 & ext1 & Hrun1 & Hopt1 & Hml1 & Hf1 & Hm1).
  set (out1 := FigmaFile (fd_document data)
                 (Some (child_based_svg_downloads (analysis data)))
                 (Some (svg_mapping_of (child_based_svg_downloads (analysis data))))
                 (Some ml1) (fd_other data)) in *.
  assert (Hv1 : valid_input opt1 (h ++ ext1) out1).
  { split; [done | ]. intros ml [= <-]. by eexists. }
  destruct (preprocess_figma_json_spec (analysis data) opt1 now2 (h ++ ext1) out1 Hv1)
    as (opt2 & ml2 & ext2 & Hrun2 & Hopt2 & Hml2 & Hf2 & Hm2).
  assert (Ha : analysis out1 = analysis data) by (by apply analysis_document).
  rewrite Ha in Hrun2, Hf2.
  eexists opt1, (analysis data), (h ++ ext1), out1,
          opt2, (analysis data), ((h ++ ext1) ++ ext2), _.
  split_and!; try done; try reflexivity.
  - apply read_file_Some, lookup_lt_Some in Hf1. lia.
  - by apply read_file_ext.
Qed.

Lemma X8_own_output_witness :
  valid_input 0 [ObjFile icon_file] icon_file ∧
  ∃ opt1 self1 h1 out1 opt2 self2 h2 out2,
    preprocess_figma_json init 0 "2024-05-01T10:00:00" [ObjFile icon_file]
      = Some (opt1, self1, h1) ∧
    read_file opt1 h1 = Some out1 ∧
    preprocess_figma_json self1 opt1 "2024-05-01T10:00:05" h1
      = Some (opt2, self2, h2) ∧
    read_file opt2 h2 = Some out2 ∧
    fd_svgDownloads out2 = fd_svgDownloads out1.
Proof.
  pose proof (valid_input_single icon_file eq_refl) as Hv.
  split; [exact Hv | ].
  destruct (X8_preprocessing_own_output init 0 "2024-05-01T10:00:00"
              "2024-05-01T10:00:05" [ObjFile icon_file] icon_file Hv)
    as (opt1 & self1 & h1 & out1 & opt2 & self2 & h2 & out2
        & H1 & H2 & H3 & H4 & _ & _ & _ & _ & H5 & _).
  exists opt1, self1, h1, out1, opt2, self2, h2, out2.
  split_and!; assumption.
Defined.

(** ** The structure report *)

Lemma filter_ext_in {A} (P Q : A → Prop) `{!∀ x, Decision (P x)}
    `{!∀ x, Decision (Q x)} (l : list A) :
  (∀ x, x ∈ l → P x ↔ Q x) → filter P l = filter Q l.
Proof.
  induction l as [ |x l IH]; intros Hext; [done | ]. rewrite !filter_cons.
  rewrite IH by (intros y Hy; apply Hext; by right).
  destruct (decide (P x)) as [HP|HP].
  - rewrite decide_True; [done | ]. apply Hext; [left | done].
  - rewrite decide_False; [done | ]. intros HQ. apply HP, Hext; [left | done].
Qed.

Lemma filter_all {A} (P : A → Prop) `{!∀ x, Decision (P x)} (l : list A) :
  (∀ x, P x) → filter P l = l.
Proof.
  intros HP. induction l as [ |x l IH]; [done | ].
  by rewrite filter_cons, decide_True, IH.
Qed.

Lemma filter_all_in {A} (P : A → Prop) `{!∀ x, Decision (P x)} (l : list A) :
  (∀ x, x ∈ l → P x) → filter P l = l.
Proof.
  induction l as [ |x l IH]; intros HP; [done | ].
  rewrite filter_cons, decide_True by (apply HP; left).
  rewrite IH; [done | ]. intros y Hy. apply HP. by right.
Qed.

(** The keys after an update, in order: the old keys, then the new ones. *)
Lemma dict_update_keys_list {V} (l : list (string * V)) :
  ∀ d, NoDup l.*1 →
       dict_keys (dict_update d l) =
       dict_keys d ++ filter (λ k, k ∉ dict_keys d) l.*1.
Proof.
  induction l as [ |[k v] l IH]; intros d Hnd.
  - cbn. by rewrite app_nil_r.
  - rewrite fmap_cons in Hnd. cbn [fst] in Hnd. apply NoDup_cons in Hnd as [Hk Hnd].
    change (dict_update d ((k, v) :: l)) with (dict_update (dict_set k v d) l).
    rewrite IH by done. rewrite fmap_cons, filter_cons. cbn [fst].
    rewrite dict_keys_set. destruct (decide (k ∈ dict_keys d)) as [Hin|Hin].
    + rewrite decide_False by auto. done.
    + rewrite decide_True by done. rewrite <- app_assoc. cbn [app]. do 2 f_equal.
      apply filter_ext_in. intros k' Hk'. rewrite elem_of_app, list_elem_of_singleton.
      split; [tauto | ]. intros Hn [?|Heq]; [done | ]. by subst k'.
Qed.

Lemma downloads_keys_list self :
  NoDup (dict_keys (individual_vector_children self)) →
  NoDup (dict_keys (standalone_vectors self)) →
  dict_keys (child_based_svg_downloads self) =
  dict_keys (individual_vector_children self) ++
  filter (λ k, k ∉ dict_keys (individual_vector_children self))
         (dict_keys (standalone_vectors self)).
Proof.
  intros H1 H2. rewrite child_based_svg_downloads_eq.
  assert (Hk : ∀ {V W} (f : string → V → W) (l : pydict V),
             ((λ kv, (kv.1, f kv.1 kv.2)) <$> l).*1 = dict_keys l).
  { intros V W f l. unfold dict_keys. rewrite <- list_fmap_compose.
    by apply list_fmap_ext. }
  rewrite dict_update_keys_list by (by rewrite Hk).
  assert (E : dict_keys (dict_update (V := svg_download) []
                ((λ kv, (kv.1, child_download kv.1 kv.2)) <$>
                   individual_vector_children self)) =
              dict_keys (individual_vector_children self)).
  { rewrite dict_update_keys_list by (by rewrite Hk).
    rewrite filter_all by (intros k; apply not_elem_of_nil). by rewrite Hk. }
  rewrite E, Hk. done.
Qed.

Lemma claimed_parent_name data k r :
  (k, r) ∈ individual_vector_children (analysis data) →
  ∃ g path pg, (g, path, pg) ∈ file_calls data ∧ get_type g = "GROUP" ∧
               vr_parent_group_id r = Some (get_id g) ∧
               vr_parent_group_name r = Some (get_name g).
Proof.
  destruct (analysis_dicts data) as [-> _]. intros Hin.
  assert (Hin' : (k, r) ∈ file_calls data ≫= claimed_by).
  { destruct (analysis_keys_NoDup data) as [Hnd _].
    destruct (analysis_dicts data) as [E _]. rewrite E in Hnd.
    apply dict_get_elem_NoDup in Hin; [ | done].
    apply dict_get_update_Some in Hin as [?|[=]]. done. }
  apply claimed_entry_node in Hin'
    as (g & path & pg & x & Hc & Hg & _ & _ & _ & [= -> ->]).
  by exists g, path, pg.
Qed.

(** X9. [get_filtered_structure_info] after a run: [total_svg_exports] is
    the counter [total_vector_exports], the sum of the two detail lists;
    every detail carries the filename [_generate_filename] gives its id, the
    same as the [_svgDownloads] entry of that id; the ['parent_group'] of a
    vector child is the name of a GROUP the traversal reached (the default
    ['None'] is never used); and the keys of [_svgDownloads], in order, are
    the ids of the vector children followed by the ids of the standalone
    vectors that are not also vector children. *)
Theorem X9_structure_info_matches_downloads (self : preprocessor) (raw : loc)
    (now : string) (h : heap) (data : figma_file) :
  valid_input raw h data →
  ∃ self' out d,
    run_produces self raw now h self' out ∧ fd_svgDownloads out = Some d ∧
    let info := get_filtered_structure_info self' in
    let child_ids := vcd_id <$> si_vector_children_details info in
    let standalone_ids := sdt_id <$> si_standalone_details info in
    si_total_svg_exports info = total_vector_exports (get_preprocessing_stats self') ∧
    si_total_svg_exports info =
      length (si_vector_children_details info) + length (si_standalone_details info) ∧
    dict_keys d = child_ids ++ filter (λ k, k ∉ child_ids) standalone_ids ∧
    (∀ v, v ∈ si_vector_children_details info →
          vcd_filename v = _generate_filename (vcd_id v) ∧
          (∃ dl, dict_get (vcd_id v) d = Some dl ∧ sd_filename dl = vcd_filename v) ∧
          ∃ g path pg, (g, path, pg) ∈ file_calls data ∧ get_type g = "GROUP" ∧
                       vcd_parent_group v = get_name g) ∧
    (∀ v, v ∈ si_standalone_details info →
          sdt_filename v = _generate_filename (sdt_id v) ∧
          ∃ dl, dict_get (sdt_id v) d = Some dl ∧ sd_filename dl = sdt_filename v).
Proof.
  intros Hv. destruct (run_produces_analysis self raw now h data Hv)
    as (out & Hrun & Hd & _).
  exists (analysis data), out, (child_based_svg_downloads (analysis data)).
  split; [done | ]. split; [done | ]. cbv zeta.
  unfold get_filtered_structure_info, get_preprocessing_stats.
  cbn [si_total_svg_exports si_vector_children_details si_standalone_details].
  destruct (analysis_keys_NoDup data) as [N1 N2].
  assert (Hget : ∀ k, k ∈ dict_keys (child_based_svg_downloads (analysis data)) →
            ∃ dl, dict_get k (child_based_svg_downloads (analysis data)) = Some dl ∧
                  sd_filename dl = _generate_filename k).
  { intros k [dl Hk]%dict_get_is_Some. exists dl. split; [done | ].
    by apply dict_get_Some_elem, downloads_entry in Hk as (_ & ? & _). }
  split_and!.
  - by rewrite analysis_stats.
  - by rewrite !length_fmap.
  - rewrite <- !list_fmap_compose. by apply downloads_keys_list.
  - intros v (kv & -> & Hkv)%list_elem_of_fmap.
    cbn [vcd_filename vcd_id vcd_parent_group]. split_and!; [done | | ].
    + apply Hget, downloads_keys. left. by apply list_elem_of_fmap_2.
    + destruct kv as [k r].
      apply claimed_parent_name in Hkv as (g & path & pg & Hc & Hg & _ & Hn).
      exists g, path, pg. cbn [snd]. by rewrite Hn.
  - intros v (kv & -> & Hkv)%list_elem_of_fmap.
    cbn [sdt_filename sdt_id]. split; [done | ].
    apply Hget, downloads_keys. right. by apply list_elem_of_fmap_2.
Qed.

Lemma X9_structure_info_witness :
  valid_input 0 [ObjFile icon_file] icon_file ∧
  ∃ self' out d,
    run_produces init 0 "2024-05-01T10:00:00" [ObjFile icon_file] self' out ∧
    fd_svgDownloads out = Some d ∧
    si_total_svg_exports (get_filtered_structure_info self') =
      total_vector_exports (get_preprocessing_stats self').
Proof.
  pose proof (valid_input_single icon_file eq_refl) as Hv.
  split; [exact Hv | ].
  destruct (X9_structure_info_matches_downloads init 0 "2024-05-01T10:00:00"
              [ObjFile icon_file] icon_file Hv)
    as (self' & out & d & Hrun & Hd & Ht & _).
  exists self', out, d. split; [exact Hrun | ]. split; [exact Hd | exact Ht].
Defined.

(** * The searches of the enhanced extractor *)

Lemma reach_eq cap child depth :
  reach cap child depth =
  if (cap <? depth)%nat then []
  else child :: match n_children child with
                | Some grandchildren =>
                    grandchildren ≫= (λ gc, reach cap gc (S depth))
                | None => []
                end.
Proof. by destruct child. Qed.

Lemma find_vectors_eq n depth acc :
  find_vectors n depth acc =
  if (10 <? depth)%nat then acc
  else
    let acc := if is_vector_type (get_type n) then acc ++ [vector_child_of n]
               else acc in
    match n_children n with
    | Some children =>
        foldl (λ a child, find_vectors child (S depth) a) acc children
    | None => acc
    end.
Proof. by destruct n. Qed.

Lemma visits_eq n path pgs :
  visits n path pgs =
  (n, path, pgs) ::
  match n_children n with
  | Some children =>
      children ≫= (λ c, visits c (join_path path (get_name n))
                                (next_parent_groups n pgs))
  | None => []
  end.
Proof. by destruct n. Qed.

Lemma reach_levels cap child :
  ∀ depth x,
    x ∈ reach cap child depth ↔ ∃ k, (depth + k ≤ cap)%nat ∧ x ∈ level k child.
Proof.
  induction child as [child IH] using node_ind'. intros depth x.
  rewrite reach_eq. destruct (Nat.ltb_spec cap depth) as [Hd|Hd].
  - split; [by intros ?%elem_of_nil | intros (k & ? & _); lia].
  - rewrite elem_of_cons. split.
    + intros [->|Hx].
      * exists 0. split; [lia | left].
      * destruct (n_children child) as [l| ] eqn:Hl; [ | by apply elem_of_nil in Hx].
        apply list_elem_of_bind in Hx as (c & Hx & Hc).
        specialize (IH l eq_refl). rewrite Forall_forall in IH.
        apply IH in Hx as (k & Hk & Hx); [ | done].
        exists (S k). split; [lia | ]. cbn [level]. rewrite Hl.
        apply list_elem_of_bind. by exists c.
    + intros (k & Hk & Hx). destruct k as [ |k]; cbn [level] in Hx.
      * left. by apply list_elem_of_singleton in Hx.
      * right. destruct (n_children child) as [l| ] eqn:Hl;
          [ | by apply elem_of_nil in Hx].
        cbn [default from_option id] in Hx.
        apply list_elem_of_bind in Hx as (c & Hx & Hc).
        apply list_elem_of_bind. exists c. split; [ | done].
        specialize (IH l eq_refl). rewrite Forall_forall in IH.
        apply IH; [done | ]. exists k. split; [lia | done].
Qed.

Lemma foldl_app_bind {A B} (f : list B → A → list B) (g : A → list B) (l : list A) :
  Forall (λ x, ∀ acc, f acc x = acc ++ g x) l →
  ∀ acc, foldl f acc l = acc ++ (l ≫= g).
Proof.
  induction 1 as [ |x l Hx _ IH]; intros acc; cbn [foldl].
  - by rewrite list_bind_nil, app_nil_r.
  - by rewrite IH, Hx, bind_cons, app_assoc.
Qed.

Lemma bind_fmap_filter {A B C} (h : B → C) (P : B → Prop) `{!∀ x, Decision (P x)}
    (r : A → list B) (l : list A) :
  l ≫= (λ c, h <$> filter P (r c)) = h <$> filter P (l ≫= r).
Proof.
  induction l as [ |x l IH]; [done | ].
  by rewrite !bind_cons, filter_app, fmap_app, IH.
Qed.


Lemma find_vectors_spec n :
  ∀ depth acc,
    find_vectors n depth acc =
    acc ++ (vector_child_of <$>
              filter (λ x, is_vector_type (get_type x) = true) (reach 10 n depth)).
Proof.
  induction n as [n IH] using node_ind'. intros depth acc.
  rewrite find_vectors_eq, reach_eq. destruct (10 <? depth)%nat.
  { by rewrite filter_nil, fmap_nil, app_nil_r. }
  cbv zeta. rewrite filter_cons.
  set (acc1 := if is_vector_type (get_type n) then acc ++ [vector_child_of n]
               else acc).
  assert (H1 : ∀ rest,
             acc ++ (vector_child_of <$>
                       (if decide (is_vector_type (get_type n) = true)
                        then n :: rest else rest)) =
             acc1 ++ (vector_child_of <$> rest)).
  { intros rest. subst acc1. destruct (is_vector_type (get_type n)).
    - rewrite decide_True by done. by rewrite fmap_cons, <- app_assoc.
    - by rewrite decide_False. }
  rewrite H1. destruct (n_children n) as [l| ].
  - specialize (IH l eq_refl).
    rewrite (foldl_app_bind _
               (λ c, vector_child_of <$>
                       filter (λ x, is_vector_type (get_type x) = true)
                              (reach 10 c (S depth)))).
    + by rewrite bind_fmap_filter.
    + eapply Forall_impl; [exact IH | ]. intros x Hx a. apply Hx.
  - by rewrite filter_nil, fmap_nil, app_nil_r.
Qed.

Lemma get_vector_children_spec g :
  _get_vector_children g = vector_child_of <$> vector_members g.
Proof.
  unfold _get_vector_children, vector_members.
  rewrite (foldl_app_bind _
             (λ c, vector_child_of <$>
                     filter (λ x, is_vector_type (get_type x) = true)
                            (reach 10 c 0))).
  - by rewrite bind_fmap_filter.
  - apply Forall_forall. intros x _ acc. apply find_vectors_spec.
Qed.

Lemma vector_members_levels g x :
  x ∈ vector_members g ↔
  is_vector_type (get_type x) = true ∧ ∃ k, (1 ≤ k ≤ 11)%nat ∧ x ∈ level k g.
Proof.
  unfold vector_members. rewrite list_elem_of_filter, list_elem_of_bind.
  apply and_iff_compat_l. split.
  - intros (c & (k & Hk & Hx)%reach_levels & Hc).
    exists (S k). split; [lia | ]. cbn [level]. apply list_elem_of_bind. by exists c.
  - intros (k & Hk & Hx). destruct k as [ |k]; [lia | ]. cbn [level] in Hx.
    apply list_elem_of_bind in Hx as (c & Hx & Hc). exists c. split; [ | done].
    apply reach_levels. exists k. split; [lia | done].
Qed.

Lemma pure_vector_is_vector_type x :
  _is_pure_vector x = true → is_vector_type (get_type x) = true.
Proof. intros Hp. apply pure_vector_type in Hp. by rewrite Hp. Qed.


Lemma groups_traverse_node_eq n path pgs vg :
  FindGroups.traverse_node n path pgs vg =
  let vg := if is_vector_group n then vg ++ [group_info_of (n, path, pgs)]
            else vg in
  match n_children n with
  | Some children =>
      foldl (λ vg child,
               FindGroups.traverse_node child (join_path path (get_name n))
                 (next_parent_groups n pgs) vg)
            vg children
  | None => vg
  end.
Proof.
  destruct n as [ty i nm fl bgs bg mask bb ch ot].
  unfold next_parent_groups, is_vector_group, group_info_of.
  cbn [FindGroups.traverse_node].
  set (n := Node ty i nm fl bgs bg mask bb ch ot).
  cbn [n_children].
  destruct (get_type n =? "GROUP"); cbn [andb]; [ | done].
  by destruct (_get_vector_children n).
Qed.

Lemma groups_traverse_node_spec n :
  ∀ path pgs vg,
    FindGroups.traverse_node n path pgs vg =
    vg ++ (group_info_of <$>
             filter (λ v : visit, is_vector_group v.1.1 = true) (visits n path pgs)).
Proof.
  induction n as [n IH] using node_ind'. intros path pgs vg.
  rewrite groups_traverse_node_eq, visits_eq. cbv zeta. rewrite filter_cons.
  cbn [fst].
  set (vg1 := if is_vector_group n then vg ++ [group_info_of (n, path, pgs)]
              else vg).
  assert (H1 : ∀ rest,
             vg ++ (group_info_of <$>
                      (if decide (is_vector_group n = true)
                       then (n, path, pgs) :: rest else rest)) =
             vg1 ++ (group_info_of <$> rest)).
  { intros rest. subst vg1. destruct (is_vector_group n).
    - rewrite decide_True by done. by rewrite fmap_cons, <- app_assoc.
    - by rewrite decide_False. }
  rewrite H1. destruct (n_children n) as [l| ].
  - specialize (IH l eq_refl).
    rewrite (foldl_app_bind _
               (λ c, group_info_of <$>
                       filter (λ v : visit, is_vector_group v.1.1 = true)
                         (visits c (join_path path (get_name n))
                                 (next_parent_groups n pgs)))).
    + by rewrite bind_fmap_filter.
    + eapply Forall_impl; [exact IH | ]. intros x Hx a. apply Hx.
  - by rewrite filter_nil, fmap_nil, app_nil_r.
Qed.

Lemma file_pages_document data :
  default [] (n_children (default empty_node (fd_document data))) = file_pages data.
Proof. unfold file_pages. by destruct (fd_document data). Qed.

Lemma find_groups_with_vectors_spec data :
  find_groups_with_vectors data =
  group_info_of <$>
    filter (λ v : visit, is_vector_group v.1.1 = true) (file_visits data).
Proof.
  unfold find_groups_with_vectors, file_visits. cbv zeta.
  rewrite file_pages_document.
  rewrite (foldl_app_bind _
             (λ page, group_info_of <$>
                        filter (λ v : visit, is_vector_group v.1.1 = true)
                               (visits page "" []))).
  - by rewrite bind_fmap_filter.
  - apply Forall_forall. intros x _ acc. apply groups_traverse_node_spec.
Qed.

Lemma visits_nodes n : ∀ path pgs, (visits n path pgs).*1.*1 = subtree n.
Proof.
  induction n as [n IH] using node_ind'. intros path pgs.
  rewrite visits_eq, subtree_eq, !fmap_cons. cbn [fst]. f_equal.
  destruct (n_children n) as [l| ]; [ | done].
  specialize (IH l eq_refl). induction IH as [ |c l Hc _ IHl]; [done | ].
  by rewrite !bind_cons, !fmap_app, Hc, IHl.
Qed.

Lemma file_visits_nodes data : (file_visits data).*1.*1 = file_nodes data.
Proof.
  unfold file_visits, file_nodes.
  induction (file_pages data) as [ |page l IH]; [done | ].
  by rewrite !bind_cons, !fmap_app, visits_nodes, IH.
Qed.

Lemma fmap_filter_comm {A B} (f : A → B) (P : B → Prop) `{!∀ x, Decision (P x)}
    (l : list A) :
  f <$> filter (λ x, P (f x)) l = filter P (f <$> l).
Proof.
  induction l as [ |x l IH]; [done | ]. rewrite fmap_cons, !filter_cons.
  destruct (decide (P (f x))); by rewrite ?fmap_cons, IH.
Qed.

(** Every parent group of a visit was given to the walk or is a vector
    group the walk visits. *)
Lemma visits_parents n :
  ∀ path pgs v p,
    v ∈ visits n path pgs → p ∈ v.2 →
    p ∈ pgs ∨ ∃ v', v' ∈ visits n path pgs ∧ is_vector_group v'.1.1 = true ∧
                    get_id v'.1.1 = p.
Proof.
  induction n as [n IH] using node_ind'. intros path pgs v p.
  rewrite visits_eq. intros [->|Hv]%elem_of_cons Hp; [by left | ].
  destruct (n_children n) as [l| ]; [ | by apply elem_of_nil in Hv].
  apply list_elem_of_bind in Hv as (c & Hv & Hc).
  specialize (IH l eq_refl). rewrite Forall_forall in IH.
  destruct (IH c Hc _ _ v p Hv Hp) as [Hin|(v' & Hv' & Hg & Hid)].
  - unfold next_parent_groups in Hin.
    destruct (is_vector_group n) eqn:Hn; [ | by left].
    apply elem_of_app in Hin as [?|Hin]; [by left | ].
    apply list_elem_of_singleton in Hin as ->. right.
    exists (n, path, pgs). split_and!; [left | done | done].
  - right. exists v'. split_and!; [ | done | done]. right.
    apply list_elem_of_bind. by exists c.
Qed.

Lemma vector_group_members n :
  is_vector_group n = true ↔
  get_type n = "GROUP" ∧ ∃ x, x ∈ vector_members n.
Proof.
  unfold is_vector_group. rewrite get_vector_children_spec, andb_true_iff.
  rewrite String.eqb_eq. apply and_iff_compat_l.
  destruct (vector_members n) as [ |x l]; cbn.
  - split; [done | by intros [? ?%elem_of_nil]].
  - split; [ | done]. intros _. exists x. left.
Qed.

(** X11. [find_groups_with_vectors] lists, in document order, every GROUP
    below the document that has at least one vector member, whether or not
    it lies inside another listed group; [vector_count] is the length of
    [vector_children], never zero; every id in [parent_groups] is the id of
    a listed group.  Every GROUP that the preprocessor decomposes into at
    least one export is listed. *)
Theorem X11_vector_groups_found (data : figma_file) :
  let found := find_groups_with_vectors data in
  gi_id <$> found =
    get_id <$> filter (λ n, is_vector_group n = true) (file_nodes data) ∧
  (∀ n, is_vector_group n = true ↔
        get_type n = "GROUP" ∧ _get_vector_children n ≠ []) ∧
  (∀ gi, gi ∈ found →
         gi_vector_children gi ≠ [] ∧
         gi_vector_count gi = length (gi_vector_children gi) ∧
         (∃ n, n ∈ file_nodes data ∧ get_type n = "GROUP" ∧
               gi_id gi = get_id n ∧ gi_name gi = get_name n ∧
               gi_bounds gi = get_bounds n ∧
               gi_vector_children gi = _get_vector_children n) ∧
         ∀ p, p ∈ gi_parent_groups gi → p ∈ gi_id <$> found) ∧
  (∀ g path pg x,
      (g, path, pg) ∈ file_calls data → get_type g = "GROUP" →
      x ∈ group_scanned g → _is_pure_vector x = true →
      get_id g ∈ gi_id <$> found).
Proof.
  cbv zeta.
  assert (Hvg : ∀ n, is_vector_group n = true ↔
                     get_type n = "GROUP" ∧ _get_vector_children n ≠ []).
  { intros n. unfold is_vector_group. rewrite andb_true_iff, String.eqb_eq.
    apply and_iff_compat_l. by destruct (_get_vector_children n). }
  assert (Hids : gi_id <$> find_groups_with_vectors data =
                 get_id <$> filter (λ n, is_vector_group n = true) (file_nodes data)).
  { rewrite find_groups_with_vectors_spec, <- file_visits_nodes.
    rewrite <- list_fmap_compose.
    rewrite <- (list_fmap_compose fst fst).
    rewrite <- (fmap_filter_comm (fst ∘ fst) (λ n, is_vector_group n = true)).
    rewrite <- list_fmap_compose. apply list_fmap_ext. by intros _ [[n path] pgs] _. }
  split_and!; [exact Hids | exact Hvg | | ].
  - intros gi. rewrite find_groups_with_vectors_spec at 1.
    intros ([[n path] pgs] & -> & [Hg Hv]%list_elem_of_filter)%list_elem_of_fmap.
    cbn [fst] in Hg. cbn [group_info_of gi_vector_children gi_vector_count
      gi_parent_groups gi_id gi_name gi_bounds].
    apply Hvg in Hg as Hg'. destruct Hg' as [Ht Hne]. split_and!; try done.
    + exists n. split_and!; try done. rewrite <- file_visits_nodes.
      apply list_elem_of_fmap. exists (n, path). split; [done | ].
      apply list_elem_of_fmap. by exists (n, path, pgs).
    + intros p Hp. unfold file_visits in Hv.
      apply list_elem_of_bind in Hv as (page & Hv & Hpage).
      destruct (visits_parents page "" [] _ p Hv Hp)
        as [[]%elem_of_nil|([[n' path'] pgs'] & Hv' & Hg' & Hid')].
      rewrite find_groups_with_vectors_spec. apply list_elem_of_fmap.
      exists (group_info_of (n', path', pgs')). split; [by rewrite <- Hid' | ].
      apply list_elem_of_fmap_2, list_elem_of_filter. split; [done | ].
      apply list_elem_of_bind. by exists page.
  - intros g path pg x Hc Ht Hx Hp. rewrite Hids.
    apply list_elem_of_fmap_2, list_elem_of_filter. split.
    + apply vector_group_members. split; [done | ]. exists x.
      apply vector_members_levels. split; [by apply pure_vector_is_vector_type | ].
      apply group_scanned_levels in Hx as (k & Hk & Hx). exists k. split; [lia | done].
    + by apply file_calls_nodes in Hc.
Qed.

Lemma collect_group_members_eq n ids :
  collect_group_members n ids =
  let ids := if get_type n =? "GROUP" then
               foldl (λ ids vector_child, {[vc_id vector_child]} ∪ ids) ids
                     (_get_vector_children n)
             else ids in
  match n_children n with
  | Some children => foldl (λ ids child, collect_group_members child ids) ids children
  | None => ids
  end.
Proof. by destruct n. Qed.

Lemma find_standalone_vectors_eq ids n path ivs :
  find_standalone_vectors ids n path ivs =
  let ivs := if is_vector_type (get_type n) then
               if bool_decide (Some (get_id n) ∉ ids) then
                 ivs ++ [individual_vector_of (n, path, None)]
               else ivs
             else ivs in
  if negb (get_type n =? "GROUP") then
    match n_children n with
    | Some children =>
        foldl (λ ivs child,
                 find_standalone_vectors ids child (join_path path (get_name n)) ivs)
              ivs children
    | None => ivs
    end
  else ivs.
Proof. by destruct n. Qed.

Lemma add_members_elem (l : list vector_child) :
  ∀ (ids : gset (option string)) i,
    i ∈ foldl (λ ids vector_child, {[vc_id vector_child]} ∪ ids) ids l ↔
    i ∈ ids ∨ i ∈ vc_id <$> l.
Proof.
  induction l as [ |vc l IH]; intros ids i; cbn [foldl].
  - rewrite fmap_nil, elem_of_nil. tauto.
  - rewrite IH, fmap_cons, elem_of_cons, elem_of_union, elem_of_singleton. tauto.
Qed.

Lemma collect_group_members_spec n :
  ∀ ids i,
    i ∈ collect_group_members n ids ↔
    i ∈ ids ∨ ∃ g, g ∈ subtree n ∧
                   (get_type g = "GROUP" ∧ i ∈ vc_id <$> _get_vector_children g).
Proof.
  induction n as [n IH] using node_ind'. intros ids i.
  rewrite collect_group_members_eq, exists_subtree_split. cbv zeta.
  set (ids1 := if get_type n =? "GROUP" then _ else ids).
  assert (H1 : i ∈ ids1 ↔
               i ∈ ids ∨ (get_type n = "GROUP" ∧
                          i ∈ vc_id <$> _get_vector_children n)).
  { subst ids1. destruct (String.eqb_spec (get_type n) "GROUP") as [Hg|Hg].
    - rewrite add_members_elem. tauto.
    - tauto. }
  destruct (n_children n) as [l| ]; cbn [default from_option id].
  - specialize (IH l eq_refl).
    rewrite (foldl_elem_iff _ (λ s, i ∈ s)
               (λ c, ∃ g, g ∈ subtree c ∧
                          (get_type g = "GROUP" ∧
                           i ∈ vc_id <$> _get_vector_children g))).
    + rewrite H1. tauto.
    + eapply Forall_impl; [exact IH | ]. intros c Hc acc. apply Hc.
  - rewrite H1. split; [tauto | ].
    intros [?|[?|(c & []%elem_of_nil & _)]]; tauto.
Qed.

Lemma group_member_ids_spec data i :
  i ∈ group_member_ids_of data ↔
  ∃ g x, g ∈ file_nodes data ∧ get_type g = "GROUP" ∧
         x ∈ vector_members g ∧ n_id x = i.
Proof.
  unfold group_member_ids_of, file_nodes. cbv zeta. rewrite file_pages_document.
  rewrite (foldl_elem_iff _ (λ s, i ∈ s)
             (λ c, ∃ g, g ∈ subtree c ∧
                        (get_type g = "GROUP" ∧
                         i ∈ vc_id <$> _get_vector_children g))).
  - split.
    + intros [[]%not_elem_of_empty|(page & Hpage & g & Hg & Ht & Hi)].
      rewrite get_vector_children_spec, <- list_fmap_compose in Hi.
      apply list_elem_of_fmap in Hi as (x & -> & Hx).
      exists g, x. split_and!; try done. apply list_elem_of_bind. by exists page.
    + intros (g & x & (page & Hg & Hpage)%list_elem_of_bind & Ht & Hx & <-).
      right. exists page. split; [done | ]. exists g. split_and!; try done.
      rewrite get_vector_children_spec, <- list_fmap_compose.
      by apply (list_elem_of_fmap_2 (vc_id ∘ vector_child_of)).
  - apply Forall_forall. intros c _ acc. apply collect_group_members_spec.
Qed.

Lemma find_standalone_vectors_spec ids n :
  ∀ path pg ivs,
    find_standalone_vectors ids n path ivs =
    ivs ++ (individual_vector_of <$>
              filter (λ c : call, is_vector_type (get_type c.1.1) = true ∧
                                  Some (get_id c.1.1) ∉ ids)
                     (calls n path pg)).
Proof.
  induction n as [n IH] using node_ind'. intros path pg ivs.
  rewrite find_standalone_vectors_eq, calls_eq. cbv zeta. rewrite filter_cons.
  cbn [fst].
  set (ivs1 := if is_vector_type (get_type n) then _ else ivs).
  assert (H1 : ∀ rest,
             ivs ++ (individual_vector_of <$>
                       (if decide (is_vector_type (get_type n) = true ∧
                                   Some (get_id n) ∉ ids)
                        then (n, path, pg) :: rest else rest)) =
             ivs1 ++ (individual_vector_of <$> rest)).
  { intros rest. subst ivs1. destruct (is_vector_type (get_type n)).
    - case_bool_decide as Hin.
      + rewrite decide_True by done. by rewrite fmap_cons, <- app_assoc.
      + rewrite decide_False by tauto. done.
    - rewrite decide_False; [done | ]. by intros [? _]. }
  rewrite H1. destruct (get_type n =? "GROUP"); cbn [negb].
  { by rewrite filter_nil, fmap_nil, app_nil_r. }
  destruct (n_children n) as [l| ].
  - specialize (IH l eq_refl).
    rewrite (foldl_app_bind _
               (λ c, individual_vector_of <$>
                       filter (λ c : call, is_vector_type (get_type c.1.1) = true ∧
                                           Some (get_id c.1.1) ∉ ids)
                         (calls c (join_path path (get_name n))
                                (child_group n pg)))).
    + by rewrite bind_fmap_filter.
    + eapply Forall_impl; [exact IH | ]. intros x Hx a. apply Hx.
  - by rewrite filter_nil, fmap_nil, app_nil_r.
Qed.

Lemma find_individual_vectors_spec data :
  find_individual_vectors data =
  individual_vector_of <$>
    filter (λ c : call, is_vector_type (get_type c.1.1) = true ∧
                        Some (get_id c.1.1) ∉ group_member_ids_of data)
           (file_calls data).
Proof.
  unfold find_individual_vectors, file_calls. cbv zeta. rewrite file_pages_document.
  rewrite (foldl_app_bind _
             (λ page, individual_vector_of <$>
                        filter (λ c : call, is_vector_type (get_type c.1.1) = true ∧
                                            Some (get_id c.1.1) ∉
                                              group_member_ids_of data)
                               (calls page "" None))).
  - by rewrite bind_fmap_filter.
  - apply Forall_forall. intros x _ acc. apply find_standalone_vectors_spec.
Qed.

(** X12. [find_individual_vectors] returns, in document order, one entry
    for every node of a vector type that is not inside a GROUP and whose id
    is not a group member id; the group member ids are the ids of the vector
    members of all GROUPs of the document, nested ones included.  No id it
    returns is the id of a vector child of a group that
    [find_groups_with_vectors] returns. *)
Theorem X12_individual_vectors_found (data : figma_file) :
  (∀ i, i ∈ group_member_ids_of data ↔
        ∃ g x, g ∈ file_nodes data ∧ get_type g = "GROUP" ∧
               x ∈ vector_members g ∧ n_id x = i) ∧
  (∀ g x, x ∈ vector_members g ↔
          is_vector_type (get_type x) = true ∧
          ∃ k, (1 ≤ k ≤ 11)%nat ∧ x ∈ level k g) ∧
  find_individual_vectors data =
    (λ c : call, IndividualVector (get_id c.1.1) (get_name c.1.1) (get_type c.1.1)
                   (join_path c.1.2 (get_name c.1.1)) (get_bounds c.1.1)) <$>
      filter (λ c : call, is_vector_type (get_type c.1.1) = true ∧
                          Some (get_id c.1.1) ∉ group_member_ids_of data)
             (file_calls data) ∧
  (∀ iv gi vc, iv ∈ find_individual_vectors data →
               gi ∈ find_groups_with_vectors data →
               vc ∈ gi_vector_children gi → vc_id vc ≠ Some (iv_id iv)).
Proof.
  split_and!.
  - apply group_member_ids_spec.
  - apply vector_members_levels.
  - rewrite find_individual_vectors_spec. apply list_fmap_ext.
    by intros _ [[n path] pg] _.
  - intros iv gi vc. rewrite find_individual_vectors_spec, find_groups_with_vectors_spec.
    intros ([[n path] pg] & -> & [[_ Hn] _]%list_elem_of_filter)%list_elem_of_fmap.
    intros ([[g path'] pgs] & -> & [Hg Hv]%list_elem_of_filter)%list_elem_of_fmap.
    cbn [group_info_of gi_vector_children individual_vector_of iv_id fst] in *.
    rewrite get_vector_children_spec.
    intros (x & -> & Hx)%list_elem_of_fmap Hid. cbn [vector_child_of vc_id] in Hid.
    apply Hn, group_member_ids_spec. exists g, x. split_and!; try done.
    + rewrite <- file_visits_nodes. apply list_elem_of_fmap. exists (g, path').
      split; [done | ]. apply list_elem_of_fmap. by exists (g, path', pgs).
    + by apply vector_group_members in Hg as [? _].
Qed.






(** The converse of X13 fails: the vector inside a frame is an individual
    vector for the enhanced extractor and no export of the preprocessor. *)
Example framed_vector_only_in_legacy_search :
  iv_id <$> find_individual_vectors framed_file = ["20:1"] ∧
  child_based_svg_downloads (analysis framed_file) = [].
Proof. split; vm_compute; reflexivity. Qed.

(** * The image reference of one node *)

Lemma find_traverse_eq t obj :
  FindImageRef.traverse t obj =
  match own_image_ref t obj with
  | Some r => Some r
  | None =>
      match n_children obj with
      | Some children => first_truthy (FindImageRef.traverse t <$> children)
      | None => None
      end
  end.
Proof. by destruct obj. Qed.

Lemma first_image_ref_Some paints r :
  first_image_ref paints = Some r →
  ∃ p, p ∈ paints ∧ paint_type p = Some "IMAGE" ∧ paint_imageRef p = Some r.
Proof.
  induction paints as [ |p paints IH]; [done | ]. cbn [first_image_ref].
  destruct (paint_type p) as [ty| ] eqn:Hty.
  - destruct (paint_imageRef p) as [r'| ] eqn:Hr.
    + destruct (String.eqb_spec ty "IMAGE") as [->|Hne].
      * intros [= ->]. exists p. split_and!; [left | done | done].
      * intros (q & Hq & H)%IH. exists q. split; [by right | done].
    + intros (q & Hq & H)%IH. exists q. split; [by right | done].
  - intros (q & Hq & H)%IH. exists q. split; [by right | done].
Qed.

Lemma own_image_ref_Some t obj r :
  own_image_ref t obj = Some r →
  n_id obj = Some t ∧
  ∃ p, p ∈ fills_and_backgrounds obj ∧ paint_type p = Some "IMAGE" ∧
       paint_imageRef p = Some r.
Proof.
  unfold own_image_ref, fills_and_backgrounds. case_bool_decide as Hid; [ | done].
  intros H. split; [done | ].
  destruct (n_fills obj) as [fills| ]; cbn [default from_option id].
  - destruct (first_image_ref fills) as [r'| ] eqn:Hf.
    + injection H as ->. apply first_image_ref_Some in Hf as (p & Hp & H).
      exists p. split; [ | done]. apply elem_of_app. by left.
    + destruct (n_backgrounds obj) as [bgs| ]; [ | done].
      apply first_image_ref_Some in H as (p & Hp & H).
      exists p. split; [ | done]. apply elem_of_app. by right.
  - destruct (n_backgrounds obj) as [bgs| ]; [ | done].
    apply first_image_ref_Some in H as (p & Hp & H).
    exists p. split; [ | done]. apply elem_of_app. by right.
Qed.

Lemma first_truthy_Some results r :
  first_truthy results = Some r → truthy r = true ∧ Some r ∈ results.
Proof.
  induction results as [ |[r'| ] results IH]; [done | | ]; cbn [first_truthy].
  - destruct (truthy r') eqn:Ht.
    + intros [= ->]. split; [done | left].
    + intros [? ?]%IH. split; [done | by right].
  - intros [? ?]%IH. split; [done | by right].
Qed.

Lemma find_traverse_sound t obj :
  ∀ r, FindImageRef.traverse t obj = Some r →
       ∃ n, n ∈ subtree obj ∧ n_id n = Some t ∧
            ∃ p, p ∈ fills_and_backgrounds n ∧ paint_type p = Some "IMAGE" ∧
                 paint_imageRef p = Some r.
Proof.
  induction obj as [obj IH] using node_ind'. intros r.
  rewrite find_traverse_eq, subtree_eq.
  destruct (own_image_ref t obj) as [r'| ] eqn:Hown.
  - intros [= ->]. apply own_image_ref_Some in Hown as [Hid Hp].
    exists obj. split; [left | done].
  - destruct (n_children obj) as [l| ]; [ | done].
    intros [_ Hin]%first_truthy_Some.
    apply list_elem_of_fmap in Hin as (c & Hc & Hcl).
    specialize (IH l eq_refl). rewrite Forall_forall in IH.
    destruct (IH c Hcl r (eq_sym Hc)) as (n & Hn & H).
    exists n. split; [ | done]. right. apply list_elem_of_bind. by exists c.
Qed.

(** X14. When [_find_image_ref_for_node] returns a reference, the
    reference is a non-empty string, it is the [imageRef] of an IMAGE entry
    in the [fills] or [backgrounds] of a node whose ['id'] is the target,
    and it is one of the references [find_image_references_and_nodes]
    collects for the same file. *)
Theorem X14_image_ref_of_node_is_sound (data : figma_file) (target r : string) :
  _find_image_ref_for_node data target = Some r →
  truthy r = true ∧
  (∃ n p, n ∈ document_nodes data ∧ n_id n = Some target ∧
          p ∈ fills_and_backgrounds n ∧ paint_type p = Some "IMAGE" ∧
          paint_imageRef p = Some r) ∧
  r ∈ image_refs (find_image_references_and_nodes data).
Proof.
  unfold _find_image_ref_for_node, document_nodes, find_image_references_and_nodes.
  destruct (fd_document data) as [document| ]; [ | done].
  intros [Ht Hin]%first_truthy_Some. apply list_elem_of_singleton in Hin.
  symmetry in Hin. apply find_traverse_sound in Hin as (n & Hn & Hid & p & Hp & H).
  split_and!; [done | by exists n, p | ].
  apply traverse_refs. right. exists n. split; [done | ]. exists p.
  split; [ | done]. unfold paints_read. apply elem_of_app. by left.
Qed.

Lemma X14_image_ref_witness :
  _find_image_ref_for_node shared_image_file "60:3" = Some "img7" ∧
  "img7" ∈ image_refs (find_image_references_and_nodes shared_image_file).
Proof.
  split; [reflexivity | ].
  apply (X14_image_ref_of_node_is_sound shared_image_file "60:3" "img7").
  reflexivity.
Defined.

Lemma own_image_ref_other t obj : n_id obj ≠ Some t → own_image_ref t obj = None.
Proof. intros H. unfold own_image_ref. by rewrite bool_decide_eq_false_2. Qed.

(** No node of the tree has the target id: nothing is found. *)
Lemma find_traverse_absent t obj :
  (∀ m, m ∈ subtree obj → n_id m ≠ Some t) → FindImageRef.traverse t obj = None.
Proof.
  induction obj as [obj IH] using node_ind'. intros Hno.
  rewrite find_traverse_eq, own_image_ref_other
    by (apply Hno; rewrite subtree_eq; left).
  destruct (n_children obj) as [l| ] eqn:Hl; [ | done].
  specialize (IH l eq_refl).
  assert (Hall : Forall (λ c, FindImageRef.traverse t c = None) l).
  { rewrite Forall_forall in IH. apply Forall_forall. intros c Hc.
    apply IH; [done | ]. intros m Hm. apply Hno. rewrite subtree_eq, Hl. right.
    apply list_elem_of_bind. by exists c. }
  clear -Hall. induction Hall as [ |c l Hc _ IHl]; [done | ].
  rewrite fmap_cons, Hc. done.
Qed.

Lemma first_truthy_cons o rest :
  first_truthy (o :: rest) =
  match first_truthy [o] with Some r => Some r | None => first_truthy rest end.
Proof. destruct o as [r| ]; [ | done]. cbn. by destruct (truthy r). Qed.

Lemma first_truthy_idemp results :
  first_truthy [first_truthy results] = first_truthy results.
Proof.
  destruct (first_truthy results) as [r| ] eqn:H; [ | done].
  apply first_truthy_Some in H as [Ht _]. cbn. by rewrite Ht.
Qed.

Lemma first_truthy_all_none results :
  Forall (λ o, first_truthy [o] = None) results → first_truthy results = None.
Proof.
  induction 1 as [ |o results Ho _ IH]; [done | ].
  by rewrite first_truthy_cons, Ho.
Qed.

Lemma first_truthy_one_value results v :
  Forall (λ o, first_truthy [o] = None ∨ first_truthy [o] = v) results →
  Exists (λ o, first_truthy [o] = v) results →
  first_truthy results = v.
Proof.
  destruct v as [r| ].
  - induction 1 as [ |o results Ho _ IH]; [by intros ?%Exists_nil | ].
    intros Hex. rewrite first_truthy_cons. destruct Ho as [Ho|Ho].
    + rewrite Ho. apply Exists_cons in Hex as [Hex|Hex]; [congruence | by apply IH].
    + by rewrite Ho.
  - intros Hall _. apply first_truthy_all_none.
    eapply Forall_impl; [exact Hall | ]. by intros o [?|?].
Qed.

(** When every node with the target id is the node [n], the walk finds
    nothing or what [n] itself holds; the latter when it meets [n]. *)
Lemma find_traverse_unique t n obj :
  n_id n = Some t →
  (∀ m, m ∈ subtree obj → n_id m = Some t → m = n) →
  (first_truthy [FindImageRef.traverse t obj] = None ∨
   first_truthy [FindImageRef.traverse t obj] = first_truthy [own_image_ref t n]) ∧
  (n ∈ subtree obj →
   first_truthy [FindImageRef.traverse t obj] = first_truthy [own_image_ref t n]).
Proof.
  intros Hn. induction obj as [obj IH] using node_ind'. intros Huniq.
  rewrite find_traverse_eq.
  assert (Hkids : ∀ l, n_children obj = Some l →
            Forall (λ o, first_truthy [o] = None ∨
                         first_truthy [o] = first_truthy [own_image_ref t n])
                   (FindImageRef.traverse t <$> l) ∧
            ∀ c, c ∈ l → n ∈ subtree c →
                 first_truthy [FindImageRef.traverse t c] =
                 first_truthy [own_image_ref t n]).
  { intros l Hl. specialize (IH l Hl). rewrite Forall_forall in IH.
    assert (Hc : ∀ c, c ∈ l → ∀ m, m ∈ subtree c → n_id m = Some t → m = n).
    { intros c Hc m Hm. apply Huniq. rewrite subtree_eq, Hl. right.
      apply list_elem_of_bind. by exists c. }
    split.
    - apply Forall_fmap, Forall_forall. intros c Hcl.
      by apply (IH c Hcl (Hc c Hcl)).
    - intros c Hcl. by apply (IH c Hcl (Hc c Hcl)). }
  destruct (decide (n_id obj = Some t)) as [Hid|Hid].
  - assert (obj = n) as -> by (apply Huniq; [rewrite subtree_eq; left | done]).
    destruct (own_image_ref t n) as [r| ] eqn:Hown; [by split; [right | ] | ].
    assert (first_truthy
              [match n_children n with
               | Some children => first_truthy (FindImageRef.traverse t <$> children)
               | None => None
               end] = None) as ->; [ | by split; [left | ]].
    destruct (n_children n) as [l| ]; [ | done].
    rewrite first_truthy_idemp. apply first_truthy_all_none.
    destruct (Hkids l eq_refl) as [Hall _].
    eapply Forall_impl; [exact Hall | ]. by intros o [?|?].
  - rewrite own_image_ref_other by done.
    destruct (n_children obj) as [l| ] eqn:Hl.
    + destruct (Hkids l eq_refl) as [Hall Hin]. rewrite first_truthy_idemp. split.
      * destruct (decide (Exists (λ o, first_truthy [o] =
                                       first_truthy [own_image_ref t n])
                                 (FindImageRef.traverse t <$> l))) as [Hex|Hex].
        -- right. by apply first_truthy_one_value.
        -- left. apply first_truthy_all_none.
           apply Forall_forall. intros o Ho. rewrite Forall_forall in Hall.
           destruct (Hall o Ho) as [?|Hv]; [done | ].
           exfalso. apply Hex, Exists_exists. by exists o.
      * rewrite subtree_eq, Hl. intros [->|Hsub]%elem_of_cons; [done | ].
        apply list_elem_of_bind in Hsub as (c & Hsub & Hc).
        apply first_truthy_one_value; [done | ].
        apply Exists_exists. exists (FindImageRef.traverse t c).
        split; [by apply list_elem_of_fmap_2 | by apply Hin].
    + split; [by left | ].
      rewrite subtree_eq, Hl. intros [->|[]%elem_of_nil]%elem_of_cons. done.
Qed.

(** X15. [_find_image_ref_for_node] returns [None] when no node of the
    document has the target id.  When the node [n] is the only node with
    the target id, the result is what [n] itself holds: the reference of the
    first IMAGE entry with an ['imageRef'] key in its [fills], else of the
    first such entry in its [backgrounds], provided that reference is not
    the empty string; and [None] otherwise. *)
Theorem X15_image_ref_of_unique_node (data : figma_file) (target : string)
    (n : node) :
  ((∀ m, m ∈ document_nodes data → n_id m ≠ Some target) →
   _find_image_ref_for_node data target = None) ∧
  (n ∈ document_nodes data → n_id n = Some target →
   (∀ m, m ∈ document_nodes data → n_id m = Some target → m = n) →
   _find_image_ref_for_node data target =
   first_truthy
     [match first_image_ref (default [] (n_fills n)) with
      | Some r => Some r
      | None => first_image_ref (default [] (n_backgrounds n))
      end]).
Proof.
  unfold _find_image_ref_for_node, document_nodes.
  destruct (fd_document data) as [document| ].
  - split.
    + intros Hno. by rewrite find_traverse_absent.
    + intros Hin Hid Huniq.
      destruct (find_traverse_unique target n document Hid Huniq) as [_ ->];
        [ | done].
      unfold own_image_ref. rewrite bool_decide_eq_true_2 by done.
      by destruct (n_fills n), (n_backgrounds n).
  - split; [done | by intros ?%elem_of_nil].
Qed.

Lemma X15_unique_node_witness :
  _find_image_ref_for_node shared_image_file "60:3" = Some "img7" ∧
  _find_image_ref_for_node shared_image_file "9:9" = None.
Proof.
  split.
  - pose (n := Node (Some "FRAME") (Some "60:3") (Some "C") None
                    (Some [image_fill "img7"]) None None None None []).
    destruct (X15_image_ref_of_unique_node shared_image_file "60:3" n)
      as [_ H].
    rewrite H; [reflexivity | | reflexivity | ].
    + unfold document_nodes. simpl. right. right. right. right. left.
    + intros m Hm Hid. unfold document_nodes in Hm. simpl in Hm.
      repeat (apply elem_of_cons in Hm as [->|Hm]; [try done; discriminate Hid | ]).
      by apply elem_of_nil in Hm.
  - destruct (X15_image_ref_of_unique_node shared_image_file "9:9" empty_node)
      as [H _].
    apply H. intros m Hm. unfold document_nodes in Hm. simpl in Hm.
    repeat (apply elem_of_cons in Hm as [->|Hm]; [discriminate | ]).
    by apply elem_of_nil in Hm.
Defined.

(** * File names *)

Lemma replace_invalid_no_invalid s : no_invalid_char (replace_invalid s) = true.
Proof.
  induction s as [ |c s IH]; [done | ]. cbn [replace_invalid no_invalid_char].
  rewrite IH, andb_true_r. by destruct (is_invalid_char c) eqn:E; [ | rewrite E].
Qed.

Lemma replace_invalid_id s : no_invalid_char s = true → replace_invalid s = s.
Proof.
  induction s as [ |c s IH]; [done | ]. cbn [replace_invalid no_invalid_char].
  intros [Hc Hs]%andb_prop. rewrite IH by done.
  by destruct (is_invalid_char c).
Qed.

Lemma collapse_head s :
  starts_with_underscore (collapse_underscores s) = starts_with_underscore s.
Proof.
  induction s as [ |c s IH]; [done | ]. cbn [collapse_underscores].
  destruct (Ascii.eqb_spec c "_") as [->|Hc].
  - destruct s as [ |c' s]; [done | ].
    destruct (Ascii.eqb_spec c' "_") as [->|Hc']; [ | done].
    by rewrite IH.
  - cbn. by apply Ascii.eqb_neq in Hc as ->.
Qed.

Lemma collapse_truthy s : truthy (collapse_underscores s) = truthy s.
Proof.
  induction s as [ |c s IH]; [done | ]. cbn [collapse_underscores].
  destruct (c =? "_")%char; [ | done].
  destruct s as [ |c' s]; [done | ]. by destruct (c' =? "_")%char.
Qed.

Lemma collapse_no_invalid s :
  no_invalid_char s = true → no_invalid_char (collapse_underscores s) = true.
Proof.
  induction s as [ |c s IH]; [done | ].
  cbn [collapse_underscores no_invalid_char]. intros [Hc Hs]%andb_prop.
  specialize (IH Hs).
  destruct (c =? "_")%char.
  - destruct s as [ |c' s]; [by cbn; rewrite Hc | ].
    destruct (c' =? "_")%char; [done | ].
    cbn [no_invalid_char]. by rewrite Hc, IH.
  - cbn [no_invalid_char]. by rewrite Hc, IH.
Qed.

Lemma collapse_no_double s : no_double_underscore (collapse_underscores s) = true.
Proof.
  induction s as [ |c s IH]; [done | ]. cbn [collapse_underscores].
  destruct (Ascii.eqb_spec c "_") as [->|Hc].
  - destruct s as [ |c' s]; [done | ].
    destruct (Ascii.eqb_spec c' "_") as [->|Hc']; [done | ].
    cbn [no_double_underscore]. rewrite IH, collapse_head. cbn.
    by apply Ascii.eqb_neq in Hc' as ->.
  - cbn [no_double_underscore]. rewrite IH.
    by apply Ascii.eqb_neq in Hc as ->.
Qed.

Lemma collapse_id s : no_double_underscore s = true → collapse_underscores s = s.
Proof.
  induction s as [ |c s IH]; [done | ].
  cbn [collapse_underscores no_double_underscore]. intros [Hc Hs]%andb_prop.
  rewrite IH by done. destruct (c =? "_")%char; [ | done].
  destruct s as [ |c' s]; [done | ]. cbn in Hc. by destruct (c' =? "_")%char.
Qed.

Lemma lstrip_no_invalid s :
  no_invalid_char s = true → no_invalid_char (lstrip_underscores s) = true.
Proof.
  induction s as [ |c s IH]; [done | ]. cbn [lstrip_underscores].
  destruct (c =? "_")%char; [ | done].
  cbn [no_invalid_char]. intros [_ Hs]%andb_prop. by apply IH.
Qed.

Lemma lstrip_no_double s :
  no_double_underscore s = true → no_double_underscore (lstrip_underscores s) = true.
Proof.
  induction s as [ |c s IH]; [done | ]. cbn [lstrip_underscores].
  destruct (c =? "_")%char; [ | done].
  cbn [no_double_underscore]. intros [_ Hs]%andb_prop. by apply IH.
Qed.

Lemma lstrip_head s : starts_with_underscore (lstrip_underscores s) = false.
Proof.
  induction s as [ |c s IH]; [done | ]. cbn [lstrip_underscores].
  by destruct (c =? "_")%char eqn:E.
Qed.

Lemma lstrip_id s : starts_with_underscore s = false → lstrip_underscores s = s.
Proof. destruct s as [ |c s]; [done | ]. cbn. by intros ->. Qed.

Lemma rstrip_eq c rest :
  rstrip_underscores (String c rest) =
  if truthy (rstrip_underscores rest) then String c (rstrip_underscores rest)
  else if (c =? "_")%char then EmptyString else String c EmptyString.
Proof. cbn [rstrip_underscores]. by destruct (rstrip_underscores rest). Qed.

Lemma rstrip_head s :
  truthy (rstrip_underscores s) = true →
  starts_with_underscore (rstrip_underscores s) = starts_with_underscore s.
Proof.
  destruct s as [ |c s]; [done | ]. rewrite rstrip_eq.
  destruct (truthy (rstrip_underscores s)); [done | ].
  by destruct (c =? "_")%char.
Qed.

Lemma rstrip_head_false s :
  starts_with_underscore s = false →
  starts_with_underscore (rstrip_underscores s) = false.
Proof.
  intros H. destruct (truthy (rstrip_underscores s)) eqn:Ht.
  - by rewrite rstrip_head.
  - by destruct (rstrip_underscores s).
Qed.

Lemma rstrip_no_invalid s :
  no_invalid_char s = true → no_invalid_char (rstrip_underscores s) = true.
Proof.
  induction s as [ |c s IH]; [done | ]. rewrite rstrip_eq.
  cbn [no_invalid_char]. intros [Hc Hs]%andb_prop. specialize (IH Hs).
  destruct (truthy (rstrip_underscores s)).
  - cbn [no_invalid_char]. by rewrite Hc, IH.
  - destruct (c =? "_")%char; [done | ]. cbn. by rewrite Hc.
Qed.

Lemma rstrip_no_double s :
  no_double_underscore s = true → no_double_underscore (rstrip_underscores s) = true.
Proof.
  induction s as [ |c s IH]; [done | ]. rewrite rstrip_eq.
  cbn [no_double_underscore]. intros [Hc Hs]%andb_prop. specialize (IH Hs).
  destruct (truthy (rstrip_underscores s)) eqn:Ht.
  - cbn [no_double_underscore]. by rewrite rstrip_head, Hc, IH.
  - destruct (c =? "_")%char eqn:E; [done | ]. cbn. by rewrite E.
Qed.

Lemma rstrip_tail s : ends_with_underscore (rstrip_underscores s) = false.
Proof.
  induction s as [ |c s IH]; [done | ]. rewrite rstrip_eq.
  destruct (rstrip_underscores s) as [ |c' r] eqn:Hr; cbn [truthy].
  - by destruct (c =? "_")%char eqn:E; [ | cbn; rewrite E].
  - done.
Qed.

Lemma rstrip_id s : ends_with_underscore s = false → rstrip_underscores s = s.
Proof.
  induction s as [ |c s IH]; [done | ]. rewrite rstrip_eq.
  destruct s as [ |c' s].
  - cbn. by intros ->.
  - intros H. rewrite IH by done. done.
Qed.

Lemma py_take_no_invalid n :
  ∀ s, no_invalid_char s = true → no_invalid_char (py_take n s) = true.
Proof.
  induction n as [ |n IH]; intros [ |c s]; try done.
  cbn [py_take no_invalid_char]. intros [Hc Hs]%andb_prop. by rewrite Hc, IH.
Qed.

Lemma py_take_head n s :
  starts_with_underscore s = false → starts_with_underscore (py_take n s) = false.
Proof. destruct n, s; done. Qed.

Lemma py_take_no_double n :
  ∀ s, no_double_underscore s = true → no_double_underscore (py_take n s) = true.
Proof.
  induction n as [ |n IH]; intros [ |c s]; try done.
  cbn [py_take no_double_underscore]. intros [Hc Hs]%andb_prop.
  rewrite IH by done. rewrite andb_true_r.
  destruct (c =? "_")%char; [ | done]. cbn [andb] in *.
  apply negb_true_iff in Hc. apply negb_true_iff. by apply py_take_head.
Qed.

Lemma py_take_length n : ∀ s, String.length (py_take n s) = min n (String.length s).
Proof.
  induction n as [ |n IH]; intros [ |c s]; try done. cbn. by rewrite IH.
Qed.

Lemma py_take_truthy n s : truthy s = true → truthy (py_take (S n) s) = true.
Proof. by destruct s. Qed.

Lemma no_invalid_char_get s :
  no_invalid_char s = true →
  ∀ i c, String.get i s = Some c → is_invalid_char c = false.
Proof.
  induction s as [ |c' s IH]; [done | ]. cbn [no_invalid_char].
  intros [Hc Hs]%andb_prop [ |i] c; cbn [String.get].
  - intros [= <-]. by apply negb_true_iff.
  - by apply IH.
Qed.

Lemma starts_with_underscore_get s :
  starts_with_underscore s = false → String.get 0 s ≠ Some "_"%char.
Proof.
  destruct s as [ |c s]; [done | ]. cbn. intros Hc [= ->]. done.
Qed.

Lemma no_double_underscore_get s :
  no_double_underscore s = true →
  ∀ i, String.get i s = Some "_"%char → String.get (S i) s ≠ Some "_"%char.
Proof.
  induction s as [ |c s IH]; [done | ]. cbn [no_double_underscore].
  intros [Hc Hs]%andb_prop [ |i].
  - cbn [String.get]. intros [= ->]. cbn [Ascii.eqb Bool.eqb andb] in Hc.
    apply negb_true_iff in Hc. by apply starts_with_underscore_get.
  - cbn [String.get]. by apply IH.
Qed.

Lemma ends_with_underscore_get s :
  ends_with_underscore s = false →
  String.get (String.length s - 1) s ≠ Some "_"%char.
Proof.
  induction s as [ |c s IH]; [done | ]. destruct s as [ |c' s].
  - cbn. intros Hc [= ->]. done.
  - intros H. specialize (IH H).
    replace (String.length (String c (String c' s)) - 1)
      with (S (String.length (String c' s) - 1)) by (cbn [String.length]; lia).
    exact IH.
Qed.

Lemma strip_collapse_clean s :
  let r := strip_underscores (collapse_underscores (replace_invalid s)) in
  no_invalid_char r = true ∧ no_double_underscore r = true ∧
  starts_with_underscore r = false ∧ ends_with_underscore r = false.
Proof.
  cbv zeta. unfold strip_underscores. split_and!.
  - apply rstrip_no_invalid, lstrip_no_invalid, collapse_no_invalid,
      replace_invalid_no_invalid.
  - apply rstrip_no_double, lstrip_no_double, collapse_no_double.
  - apply rstrip_head_false, lstrip_head.
  - apply rstrip_tail.
Qed.

Lemma strip_collapse_id s :
  no_invalid_char s = true → no_double_underscore s = true →
  starts_with_underscore s = false → ends_with_underscore s = false →
  strip_underscores (collapse_underscores (replace_invalid s)) = s.
Proof.
  intros H1 H2 H3 H4. unfold strip_underscores.
  by rewrite replace_invalid_id, collapse_id, lstrip_id, rstrip_id.
Qed.

Lemma sanitize_filename_clean s : clean_name (sanitize_filename s) = true.
Proof.
  unfold sanitize_filename. cbv zeta.
  destruct (strip_collapse_clean s) as (H1 & H2 & H3 & H4). cbv zeta in *.
  destruct (truthy _) eqn:Ht; cbn [negb]; [ | reflexivity].
  unfold clean_name. by rewrite Ht, H1, H2, H3, H4.
Qed.

Lemma sanitize_filename_id s : clean_name s = true → sanitize_filename s = s.
Proof.
  unfold clean_name.
  intros [[[[Ht H1]%andb_prop H2]%andb_prop H3%negb_true_iff]%andb_prop
            H4%negb_true_iff]%andb_prop.
  unfold sanitize_filename. cbv zeta. rewrite strip_collapse_id by done.
  by rewrite Ht.
Qed.

(** X16. [sanitize_filename] of [utils] always returns a usable name: not
    empty, without any of the ten invalid characters, without two
    underscores in a row, and neither starting nor ending with an
    underscore.  A name that already has this shape is returned unchanged,
    so the function is idempotent; a name that sanitizes to nothing becomes
    [figma_export]. *)
Theorem X16_sanitize_filename_shape (filename : string) :
  let r := sanitize_filename filename in
  r ≠ "" ∧
  (∀ i c, String.get i r = Some c → is_invalid_char c = false) ∧
  (∀ i, String.get i r = Some "_"%char → String.get (S i) r ≠ Some "_"%char) ∧
  String.get 0 r ≠ Some "_"%char ∧
  String.get (String.length r - 1) r ≠ Some "_"%char ∧
  (clean_name filename = true → r = filename) ∧
  sanitize_filename r = r ∧
  (strip_underscores (collapse_underscores (replace_invalid filename)) = "" →
   r = "figma_export").
Proof.
  cbv zeta. pose proof (sanitize_filename_clean filename) as Hc.
  unfold clean_name in Hc.
  apply andb_prop in Hc as [[[[Ht H1]%andb_prop H2]%andb_prop
                               H3%negb_true_iff]%andb_prop H4%negb_true_iff].
  split_and!.
  - intros E. by rewrite E in Ht.
  - by apply no_invalid_char_get.
  - by apply no_double_underscore_get.
  - by apply starts_with_underscore_get.
  - by apply ends_with_underscore_get.
  - apply sanitize_filename_id.
  - apply sanitize_filename_id, sanitize_filename_clean.
  - unfold sanitize_filename. cbv zeta. by intros ->.
Qed.

Lemma X16_sanitize_filename_witness :
  sanitize_filename "Design: v2/final" = "Design_ v2_final" ∧
  sanitize_filename "Design_ v2_final" = "Design_ v2_final" ∧
  sanitize_filename "???" = "figma_export".
Proof.
  split_and!.
  - reflexivity.
  - destruct (X16_sanitize_filename_shape "Design_ v2_final")
      as (_ & _ & _ & _ & _ & Hid & _). apply Hid. reflexivity.
  - destruct (X16_sanitize_filename_shape "???")
      as (_ & _ & _ & _ & _ & _ & _ & Hdef). apply Hdef. reflexivity.
Defined.

(** X17. [_sanitize_filename] of the enhanced extractor returns a name of
    at most 50 characters, not empty, without invalid characters, without
    two underscores in a row and not starting with an underscore; it is
    the first 50 characters of what [sanitize_filename] computes, with
    [unnamed] as the name of last resort.  It ends with an underscore only
    when the cut at 50 characters falls right after one. *)
Theorem X17_enhanced_sanitize_filename_shape (filename : string) :
  let r := _sanitize_filename filename in
  let full := if negb (truthy (strip_underscores
                                 (collapse_underscores (replace_invalid filename))))
              then "unnamed"
              else strip_underscores
                     (collapse_underscores (replace_invalid filename)) in
  r ≠ "" ∧
  (String.length r ≤ 50)%nat ∧
  r = py_take 50 full ∧
  (∀ i c, String.get i r = Some c → is_invalid_char c = false) ∧
  (∀ i, String.get i r = Some "_"%char → String.get (S i) r ≠ Some "_"%char) ∧
  String.get 0 r ≠ Some "_"%char ∧
  ((String.length full ≤ 50)%nat →
   r = full ∧ String.get (String.length r - 1) r ≠ Some "_"%char) ∧
  (clean_name filename = true → (String.length filename ≤ 50)%nat →
   r = filename).
Proof.
  cbv zeta. unfold _sanitize_filename. cbv zeta.
  destruct (strip_collapse_clean filename) as (H1 & H2 & H3 & H4). cbv zeta in *.
  set (stripped := strip_underscores
                     (collapse_underscores (replace_invalid filename))) in *.
  set (full := if negb (truthy stripped) then "unnamed" else stripped).
  assert (Hfull : truthy full = true ∧ no_invalid_char full = true ∧
                  no_double_underscore full = true ∧
                  starts_with_underscore full = false ∧
                  ends_with_underscore full = false).
  { subst full. destruct (truthy stripped) eqn:Ht; cbn [negb]; [done | ].
    by split_and!. }
  destruct Hfull as (F0 & F1 & F2 & F3 & F4).
  assert (Htake : ∀ s, (String.length s ≤ 50)%nat → py_take 50 s = s).
  { generalize 50. intros n s. revert n. induction s as [ |c s IH]; intros [ |n];
      cbn [py_take String.length]; try done; try lia.
    intros ?. rewrite IH; [done | lia]. }
  assert (Hr : (if (50 <? String.length full)%nat then py_take 50 full else full) =
               py_take 50 full).
  { destruct (Nat.ltb_spec 50 (String.length full)); [done | ].
    by rewrite Htake. }
  rewrite Hr. split_and!.
  - intros E. pose proof (py_take_truthy 49 full F0) as Ht. by rewrite E in Ht.
  - rewrite py_take_length. lia.
  - done.
  - by apply no_invalid_char_get, py_take_no_invalid.
  - by apply no_double_underscore_get, py_take_no_double.
  - by apply starts_with_underscore_get, py_take_head.
  - intros Hlen. rewrite Htake by done. split; [done | ].
    by apply ends_with_underscore_get.
  - unfold clean_name.
    intros [[[[Ht C1]%andb_prop C2]%andb_prop C3%negb_true_iff]%andb_prop
              C4%negb_true_iff]%andb_prop Hlen.
    subst full stripped. rewrite strip_collapse_id by done.
    rewrite Ht. cbn [negb]. by apply Htake.
Qed.

Lemma X17_enhanced_sanitize_witness :
  _sanitize_filename "Icon/Home" = "Icon_Home" ∧
  _sanitize_filename "Icon_Home" = "Icon_Home".
Proof.
  split; [reflexivity | ].
  destruct (X17_enhanced_sanitize_filename_shape "Icon_Home")
    as (_ & _ & _ & _ & _ & _ & _ & Hid).
  apply Hid; [reflexivity | cbn; lia].
Defined.

(** The cut at 50 characters can leave an underscore at the end, and then
    a second pass changes the name. *)
Example truncated_name_ends_with_underscore :
  let name := "aaaaaaaaaaaaaaaaaaaaaaaaaaaaaaaaaaaaaaaaaaaaaaaaa:b" in
  _sanitize_filename name =
    "aaaaaaaaaaaaaaaaaaaaaaaaaaaaaaaaaaaaaaaaaaaaaaaaa_" ∧
  _sanitize_filename (_sanitize_filename name) =
    "aaaaaaaaaaaaaaaaaaaaaaaaaaaaaaaaaaaaaaaaaaaaaaaaa".
Proof. split; vm_compute; reflexivity. Qed.

(** * The URL replacer and the [_svgDownloads] section *)

Lemma update_svg_fold use_cdn l :
  ∀ self acc,
    foldl (update_svg_entry use_cdn) (self, acc) l =
    (UrlReplacer (url_mapping self) (replacement_count self)
       (svg_replacement_count self +
        length (filter (λ kv, is_Some (mapping_for (url_mapping self) kv.1)) l)),
     acc ++ ((λ kv, (kv.1,
                     match mapping_for (url_mapping self) kv.1 with
                     | Some e => SvgEntry (se_data kv.2) (Some (upload_of use_cdn e))
                     | None => kv.2
                     end)) <$> l)).
Proof.
  induction l as [ |[k v] l IH]; intros self acc; cbn [foldl].
  - rewrite filter_nil, fmap_nil, app_nil_r. cbn [length]. rewrite Nat.add_0_r.
    by destruct self.
  - cbn [update_svg_entry]. rewrite filter_cons, fmap_cons. cbn [fst snd].
    destruct (mapping_for (url_mapping self) k) as [e| ] eqn:He.
    + rewrite IH. cbn [url_mapping replacement_count svg_replacement_count].
      rewrite decide_True by (by eexists). rewrite <- app_assoc. cbn [length app].
      f_equal. f_equal. lia.
    + rewrite IH. rewrite decide_False by (by intros [? [=]]).
      by rewrite <- app_assoc.
Qed.

(** X19. [_update_svg_downloads_section] keeps the keys of
    [_svgDownloads] and their order and never changes what the preprocessor
    wrote in an entry; it marks exactly the entries for which the mapping
    has the sanitized id as a key or, failing that, an SVG entry whose key
    starts with the sanitized id; [svg_replacement_count] grows by the
    number of entries it marks, and the other fields of the object are left
    alone.  An entry with no such mapping is left as it was. *)
Theorem X19_svg_section_update (self : url_replacer)
    (svg_downloads : pydict svg_entry) (use_cdn : bool) :
  let r := _update_svg_downloads_section self svg_downloads use_cdn in
  url_mapping r.1 = url_mapping self ∧
  replacement_count r.1 = replacement_count self ∧
  svg_replacement_count r.1 =
    svg_replacement_count self +
    length (filter (λ kv, is_Some (mapping_for (url_mapping self) kv.1))
                   svg_downloads) ∧
  (svg_replacement_count r.1 ≤ svg_replacement_count self + length svg_downloads)%nat ∧
  dict_keys r.2 = dict_keys svg_downloads ∧
  se_data <$> r.2.*2 = se_data <$> svg_downloads.*2 ∧
  (∀ k v, (k, v) ∈ svg_downloads → mapping_for (url_mapping self) k = None →
          (k, v) ∈ r.2) ∧
  (∀ k v e, (k, v) ∈ svg_downloads → mapping_for (url_mapping self) k = Some e →
            (k, SvgEntry (se_data v) (Some (upload_of use_cdn e))) ∈ r.2).
Proof.
  cbv zeta. unfold _update_svg_downloads_section. rewrite update_svg_fold.
  cbn [fst snd url_mapping replacement_count svg_replacement_count app].
  split_and!; try done.
  - pose proof (length_filter
                  (λ kv : string * svg_entry,
                     is_Some (mapping_for (url_mapping self) kv.1)) svg_downloads).
    lia.
  - unfold dict_keys. rewrite <- list_fmap_compose. by apply list_fmap_ext.
  - rewrite <- !list_fmap_compose. apply list_fmap_ext. intros _ [k v] _. cbn.
    by destruct (mapping_for (url_mapping self) k).
  - intros k v Hin Hnone. apply list_elem_of_fmap. exists (k, v).
    split; [ | done]. cbn [fst snd]. by rewrite Hnone.
  - intros k v e Hin He. apply list_elem_of_fmap. exists (k, v).
    split; [ | done]. cbn [fst snd]. by rewrite He.
Qed.

Lemma dict_get_update_agree {V} (k : string) (v : V) (l : list (string * V)) :
  ∀ d, (k, v) ∈ l → (∀ v', (k, v') ∈ l → v' = v) →
       dict_get k (dict_update d l) = Some v.
Proof.
  induction l as [ |[k' v'] l IH] using rev_ind; intros d Hin Hag.
  - by apply elem_of_nil in Hin.
  - rewrite dict_update_app. cbn [dict_update foldl fst snd].
    rewrite dict_get_set. destruct (decide (k = k')) as [<-|Hne].
    + f_equal. apply Hag. apply elem_of_app. right. left.
    + apply IH.
      * apply elem_of_app in Hin as [?|Hin]; [done | ].
        apply list_elem_of_singleton in Hin as [= -> ->]. done.
      * intros v'' Hv''. apply Hag. apply elem_of_app. by left.
Qed.

Lemma dict_get_fmap {V W} (g : string → V → W) (k : string) (l : pydict V) :
  dict_get k ((λ kv, (kv.1, g kv.1 kv.2)) <$> l) = g k <$> dict_get k l.
Proof.
  induction l as [ |[k' v'] l IH]; [done | ]. rewrite fmap_cons.
  cbn [dict_get fst snd]. destruct (String.eqb_spec k' k) as [->|Hne]; done.
Qed.

Lemma fresh_entries_get k d :
  dict_get k (fresh_entries d) = (λ dl, SvgEntry dl None) <$> dict_get k d.
Proof. apply (dict_get_fmap (λ _ dl, SvgEntry dl None)). Qed.

Lemma load_url_mapping_eq stem self files :
  url_mapping (load_url_mapping stem self (Some files)).1 =
  dict_update (url_mapping self)
    ((λ f, (stem (fi_filename f),
            UrlEntry (fi_url f) (fi_cdn_url f) (fi_filename f) (fi_size_mb f)
              (if endswith (lower (fi_filename f)) ".svg" then "svg"
               else "bitmap"))) <$> files).
Proof.
  unfold load_url_mapping. cbn [fst url_mapping]. generalize (url_mapping self).
  induction files as [ |f files IH]; intros m; [done | ].
  cbn [foldl]. rewrite IH. done.
Qed.

(** X18. The round trip of an exported vector through upload and URL
    replacement.  When every file the preprocessor named in [_svgDownloads]
    has been uploaded under that name, [Path(..).stem] of such a name is the
    sanitized node id, and no two uploaded files share a stem, then after
    [load_url_mapping] and [_update_svg_downloads_section] every entry of
    [_svgDownloads] carries the URLs and size of its own uploaded file
    ([uploaded_url] being the CDN URL exactly when [use_cdn] is set), and
    [svg_replacement_count] is the number of entries. *)
Theorem X18_download_entries_get_their_own_urls (stem : string → string)
    (pre : preprocessor) (files : list file_info) (use_cdn : bool) :
  let d := child_based_svg_downloads pre in
  (∀ k, k ∈ dict_keys d → stem (_generate_filename k) = replace_colon k) →
  (∀ k, k ∈ dict_keys d → ∃ f, f ∈ files ∧ fi_filename f = _generate_filename k) →
  (∀ f f', f ∈ files → f' ∈ files →
           stem (fi_filename f) = stem (fi_filename f') → f = f') →
  let loaded := load_url_mapping stem new_replacer (Some files) in
  let r := _update_svg_downloads_section loaded.1 (fresh_entries d) use_cdn in
  loaded.2 = true ∧
  svg_replacement_count r.1 = length d ∧
  dict_keys r.2 = dict_keys d ∧
  ∀ k dl, dict_get k d = Some dl →
          ∃ f, f ∈ files ∧ fi_filename f = sd_filename dl ∧
               dict_get k r.2 =
               Some (SvgEntry dl
                       (Some (UploadInfo
                                (if use_cdn then fi_cdn_url f else fi_url f)
                                (fi_cdn_url f) (fi_url f) (fi_size_mb f)))).
Proof.
  cbv zeta. intros Hstem Hup Huniq.
  set (d := child_based_svg_downloads pre) in *.
  set (loaded := load_url_mapping stem new_replacer (Some files)).
  assert (Hmap : ∀ k, k ∈ dict_keys d →
            ∃ f, f ∈ files ∧ fi_filename f = _generate_filename k ∧
                 mapping_for (url_mapping loaded.1) k =
                 Some (UrlEntry (fi_url f) (fi_cdn_url f) (fi_filename f)
                         (fi_size_mb f)
                         (if endswith (lower (fi_filename f)) ".svg" then "svg"
                          else "bitmap"))).
  { intros k Hk. destruct (Hup k Hk) as (f & Hf & Hname).
    exists f. split_and!; [done | done | ].
    unfold mapping_for. cbv zeta. subst loaded. rewrite load_url_mapping_eq.
    rewrite (dict_get_update_agree (replace_colon k)
               (UrlEntry (fi_url f) (fi_cdn_url f) (fi_filename f) (fi_size_mb f)
                  (if endswith (lower (fi_filename f)) ".svg" then "svg"
                   else "bitmap"))); [done | | ].
    - apply list_elem_of_fmap. exists f. split; [ | done].
      by rewrite Hname, Hstem.
    - intros v' (f' & [= Hs ->] & Hf')%list_elem_of_fmap.
      assert (f' = f) as ->; [ | done].
      apply Huniq; [done | done | ]. by rewrite <- Hs, Hname, Hstem. }
  unfold _update_svg_downloads_section. rewrite update_svg_fold.
  cbn [fst snd app svg_replacement_count].
  assert (Hfresh : ∀ kv, kv ∈ fresh_entries d → kv.1 ∈ dict_keys d).
  { intros kv (kv' & -> & Hkv')%list_elem_of_fmap. cbn [fst].
    by apply list_elem_of_fmap_2. }
  split_and!.
  - reflexivity.
  - rewrite filter_all_in.
    + unfold fresh_entries. by rewrite length_fmap.
    + intros kv Hkv. destruct (Hmap kv.1 (Hfresh kv Hkv)) as (f & _ & _ & ->).
      by eexists.
  - unfold dict_keys, fresh_entries. rewrite <- !list_fmap_compose.
    by apply list_fmap_ext.
  - intros k dl Hget.
    assert (Hk : k ∈ dict_keys d) by (apply dict_get_is_Some; by eexists).
    destruct (Hmap k Hk) as (f & Hf & Hname & Hm). exists f.
    pose proof (dict_get_Some_elem _ _ _ Hget) as Hdl.
    apply downloads_entry in Hdl as (_ & Hfn & _).
    split_and!; [done | congruence | ].
    etrans;
      [apply (dict_get_fmap
                (λ k v, match mapping_for (url_mapping loaded.1) k with
                        | Some e => SvgEntry (se_data v) (Some (upload_of use_cdn e))
                        | None => v
                        end)) | ].
    rewrite fresh_entries_get, Hget. cbn [fmap option_fmap option_map].
    by rewrite Hm.
Qed.

Lemma X18_round_trip_witness :
  let d := child_based_svg_downloads (analysis icon_file) in
  let loaded := load_url_mapping without_extension new_replacer
                  (Some [glyph_upload]) in
  let r := _update_svg_downloads_section loaded.1 (fresh_entries d) true in
  dict_keys d = ["10:2"] ∧
  svg_replacement_count r.1 = 1 ∧
  (uploaded_url <$> (dict_get "10:2" r.2 ≫= se_upload)) =
    Some "https://cdn.example/svgs/10_2.svg".
Proof.
  cbv zeta.
  destruct (X18_download_entries_get_their_own_urls without_extension
              (analysis icon_file) [glyph_upload] true)
    as (_ & Hcount & _ & Hget).
  - intros k Hk. vm_compute in Hk.
    apply list_elem_of_singleton in Hk as ->. reflexivity.
  - intros k Hk. vm_compute in Hk.
    apply list_elem_of_singleton in Hk as ->. exists glyph_upload.
    split; [left | reflexivity].
  - intros f f' Hf Hf' _.
    apply list_elem_of_singleton in Hf as ->.
    by apply list_elem_of_singleton in Hf' as ->.
  - split_and!; [reflexivity | exact Hcount | ].
    destruct (Hget "10:2" _ eq_refl) as (f & Hf & _ & ->).
    apply list_elem_of_singleton in Hf as ->. reflexivity.
Defined.

(** * Downloading the exported vectors *)

Section downloads.

Variable export_svg_batch : list string → option (pydict (option string)).
Variable download_svg_content : string → option string.
Variable write_file : string → string → option nat.
Variable local_path_of : string → string.

Let one_vector := download_vector download_svg_content write_file local_path_of.
Let one_batch :=
  download_batch export_svg_batch download_svg_content write_file local_path_of.

Lemma download_vector_requests urls st v :
  requests (one_vector urls st v) = requests st.
Proof.
  subst one_vector. unfold download_vector. cbv zeta.
  repeat match goal with
         | |- context [match ?x with _ => _ end] => destruct x
         end; reflexivity.
Qed.

Lemma download_batch_requests st batch :
  requests (one_batch st batch) = requests st ++ [vi_id <$> batch].
Proof.
  subst one_batch. unfold download_batch. cbv zeta.
  destruct (export_svg_batch (vi_id <$> batch)) as [[ |u urls]| ]; try done.
  generalize (u :: urls). intros svg_urls.
  change (download_vector download_svg_content write_file local_path_of)
    with one_vector.
  set (st0 := DownloadState _ _ _).
  change (requests st ++ [vi_id <$> batch]) with (requests st0).
  generalize st0. induction batch as [ |v batch IH]; intros st1; [done | ].
  cbn [foldl]. by rewrite IH, download_vector_requests.
Qed.

Lemma download_batches_requests (f : nat → list vector_item) idxs :
  ∀ st, requests (foldl (λ st i, one_batch st (f i)) st idxs) =
        requests st ++ ((λ i, vi_id <$> f i) <$> idxs).
Proof.
  induction idxs as [ |i idxs IH]; intros st; cbn [foldl].
  - by rewrite app_nil_r.
  - by rewrite IH, download_batch_requests, <- app_assoc.
Qed.

End downloads.

Lemma concat_fmap_fmap {A B I} (f : A → B) (g : I → list A) (idxs : list I) :
  concat ((λ i, f <$> g i) <$> idxs) = f <$> concat (g <$> idxs).
Proof.
  induction idxs as [ |i idxs IH]; [done | ].
  rewrite !fmap_cons. cbn [concat]. by rewrite fmap_app, IH.
Qed.

Lemma slice_step {A} (l : list A) i step :
  slice l i (i + step) = take step (drop i l).
Proof. unfold slice. f_equal. lia. Qed.

Lemma range_from_lt fuel : ∀ start stop step i,
  i ∈ range_from fuel start stop step → (i < stop)%nat.
Proof.
  induction fuel as [ |fuel IH]; intros start stop step i; cbn [range_from].
  - by intros ?%elem_of_nil.
  - destruct (Nat.ltb_spec start stop); [ | by intros ?%elem_of_nil].
    intros [->|Hi]%elem_of_cons; [done | by eapply IH].
Qed.

Lemma range_from_concat {A} (l : list A) step :
  (0 < step)%nat →
  ∀ fuel start, (length l - start ≤ fuel)%nat →
    concat ((λ i, slice l i (i + step)) <$> range_from fuel start (length l) step)
    = drop start l.
Proof.
  intros Hstep. induction fuel as [ |fuel IH]; intros start Hfuel;
    cbn [range_from].
  - cbn. symmetry. apply drop_ge. lia.
  - destruct (Nat.ltb_spec start (length l)) as [Hlt|Hge].
    + rewrite fmap_cons. cbn [concat]. rewrite IH by lia.
      rewrite slice_step, <- drop_drop. apply take_drop.
    + cbn. symmetry. apply drop_ge. lia.
Qed.

Lemma range_from_count step :
  (0 < step)%nat →
  ∀ fuel start stop, (stop - start ≤ fuel)%nat →
    (step * length (range_from fuel start stop step) < (stop - start) + step)%nat ∧
    (stop - start ≤ step * length (range_from fuel start stop step))%nat.
Proof.
  intros Hstep. induction fuel as [ |fuel IH]; intros start stop Hfuel;
    cbn [range_from].
  - cbn [length]. lia.
  - destruct (Nat.ltb_spec start stop) as [Hlt|Hge]; [ | cbn [length]; lia].
    cbn [length]. destruct (IH (start + step) stop) as [H1 H2]; [lia | ].
    revert H1 H2. generalize (length (range_from fuel (start + step) stop step)).
    intros L H1 H2. rewrite Nat.mul_succ_r.
    destruct L as [ |L]; [rewrite Nat.mul_0_r in *; lia | ].
    rewrite Nat.mul_succ_r in *. lia.
Qed.

(** The requests of a run, whatever the environment answers. *)
Lemma download_requests_spec
    (export_svg_batch : list string → option (pydict (option string)))
    (download_svg_content : string → option string)
    (write_file : string → string → option nat)
    (local_path_of : string → string)
    (data : figma_file) (d : pydict svg_download) :
  fd_svgDownloads data = Some d → d ≠ [] →
  ∃ st,
    download_svg_icons_from_preprocessed export_svg_batch download_svg_content
      write_file local_path_of data = Preprocessed st ∧
    concat (requests st) = dict_keys d ∧
    Forall (λ batch, (1 ≤ length batch ≤ 10)%nat) (requests st) ∧
    (10 * length (requests st) < length d + 10)%nat ∧
    (length d ≤ 10 * length (requests st))%nat.
Proof.
  intros Hd Hne. unfold download_svg_icons_from_preprocessed. rewrite Hd.
  destruct d as [ |kv d]; [done | ]. cbv zeta.
  set (ivs := (λ kv, vector_item_of kv.1 kv.2) <$> kv :: d).
  eexists. split; [reflexivity | ].
  rewrite (download_batches_requests export_svg_batch download_svg_content
             write_file local_path_of (λ i, slice ivs i (i + 10))).
  cbn [requests app]. unfold py_range.
  assert (Hlen : length ivs = length (kv :: d)) by (subst ivs; apply length_fmap).
  assert (Hidx : ∀ i, i ∈ range_from (length ivs) 0 (length ivs) 10 →
                      (i < length ivs)%nat) by (intros i; apply range_from_lt).
  split_and!.
  - rewrite concat_fmap_fmap, range_from_concat by lia. rewrite drop_0.
    subst ivs. unfold dict_keys. rewrite <- list_fmap_compose.
    by apply list_fmap_ext.
  - apply Forall_fmap, Forall_forall. intros i Hi%Hidx. unfold compose.
    rewrite length_fmap, slice_step, length_take, length_drop. lia.
  - rewrite length_fmap, <- Hlen.
    destruct (range_from_count 10 ltac:(lia) (length ivs) 0 (length ivs)
                ltac:(lia)) as [H1 _]. lia.
  - rewrite length_fmap, <- Hlen.
    destruct (range_from_count 10 ltac:(lia) (length ivs) 0 (length ivs)
                ltac:(lia)) as [_ H2]. lia.
Qed.

(** X20. [download_svg_icons_from_preprocessed] asks the API for every id
    of a non-empty [_svgDownloads] exactly once, in the order of the
    dictionary, in batches of ten: whatever the API, the download server
    and the file system answer, the [node_ids] of its [export_svg_batch]
    calls, put end to end, are the keys of [_svgDownloads]; no batch is
    empty or longer than ten; and the number of calls is the number of
    entries divided by ten, rounded up. *)
Theorem X20_every_exported_id_requested_once
    (export_svg_batch : list string → option (pydict (option string)))
    (download_svg_content : string → option string)
    (write_file : string → string → option nat)
    (local_path_of : string → string)
    (data : figma_file) (d : pydict svg_download) :
  fd_svgDownloads data = Some d → d ≠ [] →
  ∃ st,
    download_svg_icons_from_preprocessed export_svg_batch download_svg_content
      write_file local_path_of data = Preprocessed st ∧
    concat (requests st) = dict_keys d ∧
    Forall (λ batch, (1 ≤ length batch ≤ 10)%nat) (requests st) ∧
    (10 * length (requests st) < length d + 10)%nat ∧
    (length d ≤ 10 * length (requests st))%nat.
Proof. apply download_requests_spec. Qed.

Lemma X20_requests_witness :
  ∃ st,
    download_svg_icons_from_preprocessed (λ _, None) (λ _, None) (λ _ _, None)
      (λ f, f) (FigmaFile None (Some (child_based_svg_downloads (analysis icon_file)))
                  None None []) = Preprocessed st ∧
    requests st = [["10:2"]].
Proof.
  destruct (X20_every_exported_id_requested_once (λ _, None) (λ _, None)
              (λ _ _, None) (λ f, f)
              (FigmaFile None (Some (child_based_svg_downloads (analysis icon_file)))
                 None None [])
              (child_based_svg_downloads (analysis icon_file)))
    as (st & Hst & _).
  - reflexivity.
  - vm_compute. discriminate.
  - exists st. split; [exact Hst | ]. vm_compute in Hst. by injection Hst as <-.
Defined.

Section download_results.

Variable export_svg_batch : list string → option (pydict (option string)).
Variable download_svg_content : string → option string.
Variable write_file : string → string → option nat.
Variable local_path_of : string → string.

Let one_vector := download_vector download_svg_content write_file local_path_of.
Let one_batch :=
  download_batch export_svg_batch download_svg_content write_file local_path_of.

Lemma download_vector_inv P bound urls st v :
  download_inv P bound st →
  (∀ e, stored_for download_svg_content write_file local_path_of urls v e →
        P (vi_id v) e) →
  download_inv P (S bound) (one_vector urls st v).
Proof.
  intros (HP & Hlen & Hb) Hv.
  assert (Hsame : download_inv P (S bound) st) by (split_and!; [done | done | lia]).
  subst one_vector. unfold download_vector. cbv zeta.
  destruct (dict_get (vi_id v) urls) as [[url| ]| ] eqn:Hurl; try done.
  destruct (truthy url) eqn:Hturl; [ | done].
  destruct (download_svg_content url) as [content| ] eqn:Hc; [ | done].
  destruct (truthy content) eqn:Htc; [ | done].
  destruct (write_file (vi_filename v) content) as [size| ] eqn:Hw; [ | done].
  split_and!; cbn [downloaded_svgs successful_downloads].
  - intros k e. rewrite dict_get_set. destruct (decide (k = vi_id v)) as [->|Hne].
    + intros [= <-]. apply Hv. by exists url, content, size.
    + apply HP.
  - rewrite dict_set_length. destruct (decide _); lia.
  - lia.
Qed.

Lemma download_batch_inv P bound st batch :
  download_inv P bound st →
  (∀ urls v e, export_svg_batch (vi_id <$> batch) = Some urls → v ∈ batch →
               stored_for download_svg_content write_file local_path_of urls v e →
               P (vi_id v) e) →
  download_inv P (bound + length batch) (one_batch st batch).
Proof.
  intros Hinv Hv.
  assert (Hsame : ∀ rq, download_inv P (bound + length batch)
                          (DownloadState (downloaded_svgs st)
                             (successful_downloads st) rq)).
  { intros rq. destruct Hinv as (HP & Hlen & Hb).
    split_and!; cbn [downloaded_svgs successful_downloads]; [done | done | lia]. }
  subst one_batch. unfold download_batch. cbv zeta.
  destruct (export_svg_batch (vi_id <$> batch)) as [[ |u urls]| ] eqn:Hex;
    [apply Hsame | | apply Hsame].
  assert (Hv' : ∀ v e, v ∈ batch →
                       stored_for download_svg_content write_file local_path_of
                         (u :: urls) v e → P (vi_id v) e)
    by (intros v e; by apply Hv).
  clear Hv Hex. revert Hv'. generalize (u :: urls). intros svg_urls Hv.
  change (download_vector download_svg_content write_file local_path_of)
    with one_vector.
  assert (Hst : download_inv P bound
                  (DownloadState (downloaded_svgs st) (successful_downloads st)
                     (requests st ++ [vi_id <$> batch]))).
  { destruct Hinv as (HP & Hlen & Hb). by split_and!. }
  revert Hst. generalize (DownloadState (downloaded_svgs st) (successful_downloads st)
                            (requests st ++ [vi_id <$> batch])).
  clear Hinv Hsame. revert bound.
  induction batch as [ |v batch IH]; intros bound st0 Hst; cbn [foldl length].
  - by rewrite Nat.add_0_r.
  - replace (bound + S (length batch)) with (S bound + length batch) by lia.
    apply IH.
    + intros v' e Hv'. apply Hv. by right.
    + apply download_vector_inv; [done | ]. intros e. apply Hv. left.
Qed.

Lemma download_batches_inv P (f : nat → list vector_item) idxs :
  (∀ i urls v e, i ∈ idxs → export_svg_batch (vi_id <$> f i) = Some urls →
                 v ∈ f i →
                 stored_for download_svg_content write_file local_path_of urls v e →
                 P (vi_id v) e) →
  ∀ bound st,
    download_inv P bound st →
    download_inv P (bound + length (concat (f <$> idxs)))
      (foldl (λ st i, one_batch st (f i)) st idxs).
Proof.
  induction idxs as [ |i idxs IH]; intros Hv bound st Hst; cbn [foldl].
  - cbn [fmap list_fmap concat length]. by rewrite Nat.add_0_r.
  - rewrite fmap_cons. cbn [concat]. rewrite length_app, Nat.add_assoc.
    apply IH.
    + intros i' urls v e Hi'. apply Hv. by right.
    + apply download_batch_inv; [done | ]. intros urls v e. apply Hv. left.
Qed.

End download_results.

(** X21. Whatever the environment answers, every entry of
    [downloaded_svgs] is the download of an entry of [_svgDownloads]: its
    key is a key there, its file name, component name, type, path and
    reason are those of that entry, [is_group] is false, its id was in a
    batch for which the API returned a non-empty URL for it, that URL gave a
    non-empty text, and the text was written to the file of that name with
    the recorded size.  [successful_downloads] is at least the number of
    entries of [downloaded_svgs] and at most that of [_svgDownloads]. *)
Theorem X21_downloads_come_from_svg_downloads
    (export_svg_batch : list string → option (pydict (option string)))
    (download_svg_content : string → option string)
    (write_file : string → string → option nat)
    (local_path_of : string → string)
    (data : figma_file) (d : pydict svg_download) :
  fd_svgDownloads data = Some d → d ≠ [] →
  ∃ st,
    download_svg_icons_from_preprocessed export_svg_batch download_svg_content
      write_file local_path_of data = Preprocessed st ∧
    (length (downloaded_svgs st) ≤ successful_downloads st)%nat ∧
    (successful_downloads st ≤ length d)%nat ∧
    ∀ k e, dict_get k (downloaded_svgs st) = Some e →
      ∃ svg_info batch urls svg_content,
        (k, svg_info) ∈ d ∧
        batch ∈ requests st ∧ k ∈ batch ∧
        export_svg_batch batch = Some urls ∧
        dict_get k urls = Some (Some (ds_figma_url e)) ∧
        ds_figma_url e ≠ "" ∧
        download_svg_content (ds_figma_url e) = Some svg_content ∧
        svg_content ≠ "" ∧
        write_file (sd_filename svg_info) svg_content = Some (ds_file_size e) ∧
        ds_node_id e = k ∧
        ds_filename e = sd_filename svg_info ∧
        ds_local_path e = local_path_of (sd_filename svg_info) ∧
        ds_component_name e = sd_component_name svg_info ∧
        ds_type e = sd_type svg_info ∧
        ds_path e = sd_path svg_info ∧
        ds_extraction_reason e = sd_extraction_reason svg_info ∧
        ds_parent_group e = default "None" (sd_parent_group_name svg_info) ∧
        ds_is_group e = false.
Proof.
  intros Hd Hne. unfold download_svg_icons_from_preprocessed. rewrite Hd.
  destruct d as [ |kv d]; [done | ]. cbv zeta.
  set (ivs := (λ kv, vector_item_of kv.1 kv.2) <$> kv :: d).
  set (idxs := py_range 0 (length ivs) 10).
  set (final := foldl _ _ _).
  exists final. split; [reflexivity | ].
  assert (Hreq : requests final = (λ i, vi_id <$> slice ivs i (i + 10)) <$> idxs).
  { subst final.
    by rewrite (download_batches_requests export_svg_batch download_svg_content
                  write_file local_path_of (λ i, slice ivs i (i + 10))). }
  set (P := λ (k : string) (e : downloaded_svg),
         ∃ i urls v, i ∈ idxs ∧
           export_svg_batch (vi_id <$> slice ivs i (i + 10)) = Some urls ∧
           v ∈ slice ivs i (i + 10) ∧ vi_id v = k ∧
           stored_for download_svg_content write_file local_path_of urls v e).
  assert (Hinv : download_inv P (0 + length (concat ((λ i, slice ivs i (i + 10))
                                                        <$> idxs))) final).
  { subst final.
    apply (download_batches_inv export_svg_batch download_svg_content write_file
             local_path_of P (λ i, slice ivs i (i + 10))).
    - intros i urls v e Hi Hex Hv Hst. by exists i, urls, v.
    - split_and!; cbn; [done | lia | lia]. }
  destruct Hinv as (HP & Hlen & Hb).
  subst idxs. unfold py_range in Hb.
  rewrite range_from_concat, drop_0 in Hb by lia.
  assert (Hivs : length ivs = length (kv :: d)) by (subst ivs; apply length_fmap).
  split_and!; [done | lia | ].
  intros k e Hget.
  destruct (HP k e Hget) as (i & urls & v & Hi & Hex & Hv & Hid & Hst).
  destruct Hst as (url & content & size & Hurl & Hturl & Hc & Htc & Hw & ->).
  assert (Hvin : v ∈ ivs).
  { unfold slice in Hv. by apply subseteq_take, subseteq_drop in Hv. }
  subst ivs. apply list_elem_of_fmap in Hvin as ([k' svg_info] & -> & Hkv).
  cbn [vector_item_of vi_id vi_filename vi_name vi_type vi_path
         vi_extraction_reason vi_parent_group fst snd] in *. subst k'.
  exists svg_info, (vi_id <$> slice ((λ kv, vector_item_of kv.1 kv.2) <$> kv :: d)
                                    i (i + 10)), urls, content.
  cbn [ds_figma_url ds_file_size ds_node_id ds_filename ds_local_path
       ds_component_name ds_type ds_path ds_extraction_reason ds_parent_group
       ds_is_group].
  split_and!; try done.
  - rewrite Hreq. by apply (list_elem_of_fmap_2
                              (λ i, vi_id <$> slice _ i (i + 10))).
  - by apply (list_elem_of_fmap_2 vi_id) in Hv.
  - intros E. by rewrite E in Hturl.
  - intros E. by rewrite E in Htc.
Qed.

Lemma X21_downloads_witness :
  ∃ st,
    download_svg_icons_from_preprocessed answering_api answering_server
      writable_disk in_svg_icons icon_downloads_file = Preprocessed st ∧
    successful_downloads st = 1 ∧
    ds_filename <$> dict_get "10:2" (downloaded_svgs st) = Some "10_2.svg".
Proof.
  destruct (X21_downloads_come_from_svg_downloads answering_api answering_server
              writable_disk in_svg_icons icon_downloads_file
              (child_based_svg_downloads (analysis icon_file)))
    as (st & Hst & _).
  - reflexivity.
  - vm_compute. discriminate.
  - exists st. split; [exact Hst | ]. vm_compute in Hst. injection Hst as <-.
    split; reflexivity.
Defined.

(** X22. The two stages fit together.  On the dictionary
    [preprocess_figma_json] returns, [download_svg_icons] always takes the
    preprocessed path, since [preprocessing_applied] is set.  When the run
    exported at least one vector, the ids requested from the API are
    exactly the keys of [_svgDownloads], in order.  When it exported none,
    the method falls back to [download_svg_icons_fallback] on the
    preprocessed file, with [include_all_exportable = True] and a batch
    size of 10 whatever the caller passed.  A file whose [_metadata] does
    not have [preprocessing_applied] set goes to the fallback with the
    caller's arguments. *)
Theorem X22_download_after_preprocessing
    (export_svg_batch : list string → option (pydict (option string)))
    (download_svg_content : string → option string)
    (write_file : string → string → option nat)
    (local_path_of : string → string)
    (self : preprocessor) (raw : loc) (now : string) (h : heap)
    (data : figma_file) (include_all_exportable : bool) (batch_size : nat) :
  valid_input raw h data →
  let download :=
    download_svg_icons export_svg_batch download_svg_content write_file
      local_path_of in
  (md_preprocessing_applied (original_meta h data) ≠ Some true →
   download h data include_all_exportable batch_size =
   ViaFallback data include_all_exportable batch_size) ∧
  ∃ opt self' h' out,
    preprocess_figma_json self raw now h = Some (opt, self', h') ∧
    read_file opt h' = Some out ∧
    (child_based_svg_downloads self' = [] →
     download h' out include_all_exportable batch_size = ViaFallback out true 10) ∧
    (child_based_svg_downloads self' ≠ [] →
     ∃ st, download h' out include_all_exportable batch_size = Preprocessed st ∧
           concat (requests st) = dict_keys (child_based_svg_downloads self')).
Proof.
  intros Hv. cbv zeta. split.
  - destruct Hv as [_ Hmeta]. unfold original_meta, download_svg_icons. cbv zeta.
    destruct (fd_metadata data) as [ml| ]; [ | done].
    destruct (Hmeta ml eq_refl) as [m Hm]. rewrite Hm. cbn [default from_option id].
    destruct (md_preprocessing_applied m) as [[ | ]| ]; done.
  - destruct (preprocess_figma_json_spec self raw now h data Hv)
      as (opt & ml & ext & Hrun & _ & _ & Hf & Hm).
    eexists opt, (analysis data), (h ++ ext), _. split; [exact Hrun | ].
    split; [exact Hf | ].
    unfold download_svg_icons. cbn [fd_metadata]. rewrite Hm.
    cbn [stamped md_preprocessing_applied default from_option id]. split.
    + intros Hnil. unfold download_svg_icons_from_preprocessed.
      cbn [fd_svgDownloads]. by rewrite Hnil.
    + intros Hne.
      destruct (download_requests_spec export_svg_batch download_svg_content
                  write_file local_path_of
                  (FigmaFile (fd_document data)
                     (Some (child_based_svg_downloads (analysis data)))
                     (Some (svg_mapping_of (child_based_svg_downloads
                                              (analysis data))))
                     (Some ml) (fd_other data))
                  (child_based_svg_downloads (analysis data)) eq_refl Hne)
        as (st & Hst & Hreq & _).
      by exists st.
Qed.

Lemma X22_download_after_preprocessing_witness :
  valid_input 0 [ObjFile framed_file] framed_file ∧
  ∃ opt self' h' out,
    preprocess_figma_json init 0 "2024-05-01T10:00:00" [ObjFile framed_file]
      = Some (opt, self', h') ∧
    read_file opt h' = Some out ∧
    download_svg_icons answering_api answering_server writable_disk in_svg_icons
      h' out false 25 = ViaFallback out true 10.
Proof.
  pose proof (valid_input_single framed_file eq_refl) as Hv.
  split; [exact Hv | ].
  destruct (X22_download_after_preprocessing answering_api answering_server
              writable_disk in_svg_icons init 0 "2024-05-01T10:00:00"
              [ObjFile framed_file] framed_file false 25 Hv)
    as (_ & opt & self' & h' & out & Hrun & Hout & Hempty & _).
  exists opt, self', h', out. split; [exact Hrun | ]. split; [exact Hout | ].
  apply Hempty. vm_compute in Hrun. injection Hrun as _ <- _. reflexivity.
Defined.

(** * Across the extractors *)

(** X23. The two reference scans agree on the paint lists of the nodes
    themselves.  The reference of an IMAGE entry in the [fills] or
    [backgrounds] of a node of the document is collected by
    [find_image_references_and_nodes] and, unless it is the empty string, by
    [_extract_image_references]; so is the reference
    [_find_image_ref_for_node] returns for a node.  Beyond that each scan
    reads what the other does not: a reference only the enhanced extractor
    collects sits in a legacy [background] list, and a non-empty reference
    only [find_image_references_and_nodes] collects sits in a dictionary
    under another key of a node. *)
Theorem X23_scans_agree_on_node_paints (data : figma_file) (r : string) :
  (∀ n p, n ∈ document_nodes data → p ∈ fills_and_backgrounds n →
          paint_type p = Some "IMAGE" → paint_imageRef p = Some r →
          r ∈ image_refs (find_image_references_and_nodes data) ∧
          (r ≠ "" → r ∈ _extract_image_references data)) ∧
  (∀ target, _find_image_ref_for_node data target = Some r →
             r ∈ image_refs (find_image_references_and_nodes data) ∧
             r ∈ _extract_image_references data) ∧
  (r ∈ _extract_image_references data →
   r ∈ image_refs (find_image_references_and_nodes data) ∨
   ∃ n p, n ∈ document_nodes data ∧ p ∈ default [] (n_background n) ∧
          paint_type p = Some "IMAGE" ∧ paint_imageRef p = Some r) ∧
  (r ≠ "" → r ∈ image_refs (find_image_references_and_nodes data) →
   r ∈ _extract_image_references data ∨
   ∃ n p, n ∈ document_nodes data ∧ p ∈ other_paints n ∧
          paint_type p = Some "IMAGE" ∧ paint_imageRef p = Some r).
Proof.
  assert (Hown : ∀ n p, n ∈ document_nodes data → p ∈ fills_and_backgrounds n →
            paint_type p = Some "IMAGE" → paint_imageRef p = Some r →
            r ∈ image_refs (find_image_references_and_nodes data) ∧
            (r ≠ "" → r ∈ _extract_image_references data)).
  { unfold find_image_references_and_nodes, _extract_image_references,
      document_nodes.
    intros n p Hn Hp Ht Hi.
    destruct (fd_document data) as [document| ]; [ | by apply elem_of_nil in Hn].
    cbn [default from_option id]. split.
    - apply traverse_refs. right. exists n. split; [done | ]. exists p.
      split; [ | done]. unfold paints_read. apply elem_of_app. by left.
    - intros Hr. apply traverse_node_refs. right. exists n. split; [done | ].
      exists p. split_and!; [ | done | done | by apply truthy_iff].
      unfold fills_and_backgrounds in Hp. unfold all_paint_lists.
      rewrite app_assoc. apply elem_of_app. by left. }
  split_and!.
  - exact Hown.
  - intros target Hfind.
    assert (Hr : truthy r = true ∧
                 ∃ n p, n ∈ document_nodes data ∧ p ∈ fills_and_backgrounds n ∧
                        paint_type p = Some "IMAGE" ∧ paint_imageRef p = Some r).
    { unfold _find_image_ref_for_node, document_nodes in *.
      destruct (fd_document data) as [document| ]; [ | done].
      apply first_truthy_Some in Hfind as [Ht Hin].
      apply list_elem_of_singleton in Hin. symmetry in Hin.
      apply find_traverse_sound in Hin as (n & Hn & _ & p & Hp & H).
      split; [done | ]. by exists n, p. }
    destruct Hr as (Ht & n & p & Hn & Hp & Hty & Hi).
    destruct (Hown n p Hn Hp Hty Hi) as [Hfound Hext].
    split; [done | ]. apply Hext. by apply truthy_iff.
  - intros Hin.
    assert (Hsrc : ∃ n p, n ∈ document_nodes data ∧ p ∈ all_paint_lists n ∧
                          paint_type p = Some "IMAGE" ∧ paint_imageRef p = Some r).
    { unfold _extract_image_references, document_nodes in *.
      apply traverse_node_refs in Hin
        as [[]%not_elem_of_empty|(n & Hn & p & Hp & Ht & Hi & _)].
      destruct (fd_document data) as [document| ]; cbn [default from_option id] in Hn.
      - by exists n, p.
      - apply list_elem_of_singleton in Hn as ->. by apply elem_of_nil in Hp. }
    destruct Hsrc as (n & p & Hn & Hp & Ht & Hi).
    unfold all_paint_lists in Hp. rewrite app_assoc in Hp.
    apply elem_of_app in Hp as [Hp|Hp].
    + left. by apply (Hown n p).
    + right. by exists n, p.
  - intros Hr Hin.
    assert (Hsrc : ∃ n p, n ∈ document_nodes data ∧ p ∈ paints_read n ∧
                          paint_type p = Some "IMAGE" ∧ paint_imageRef p = Some r).
    { unfold find_image_references_and_nodes, document_nodes in *.
      destruct (fd_document data) as [document| ];
        [ | by apply not_elem_of_empty in Hin].
      apply traverse_refs in Hin
        as [[]%not_elem_of_empty|(n & Hn & p & Hp & Ht & Hi)].
      by exists n, p. }
    destruct Hsrc as (n & p & Hn & Hp & Ht & Hi).
    unfold paints_read in Hp. apply elem_of_app in Hp as [Hp|Hp].
    + left. by apply (Hown n p).
    + right. by exists n, p.
Qed.

Lemma X23_scans_witness :
  "img7" ∈ image_refs (find_image_references_and_nodes shared_image_file) ∧
  "img7" ∈ _extract_image_references shared_image_file.
Proof.
  destruct (X23_scans_agree_on_node_paints shared_image_file "img7")
    as (_ & H & _).
  apply (H "60:3"). reflexivity.
Defined.

(** Neither scan covers the other.  In [override_file] the image sits in an
    entry of the [styleOverrideTable] of the TEXT node ["1:1"]:
    [find_image_references_and_nodes] collects it, with the id of the node,
    and [_extract_image_references] and [_find_image_ref_for_node] do not
    see it.  In [legacy_background_file] it is the other way round. *)
Example image_in_override_table :
  elements (image_refs (find_image_references_and_nodes override_file))
    = ["ovr"] ∧
  elements (image_nodes (find_image_references_and_nodes override_file))
    = ["1:1"] ∧
  _extract_image_references override_file = ∅ ∧
  _find_image_ref_for_node override_file "1:1" = None ∧
  elements (image_refs (find_image_references_and_nodes legacy_background_file))
    = [] ∧
  elements (_extract_image_references legacy_background_file) = ["img9"].
Proof. split_and!; vm_compute; reflexivity. Qed.

Lemma level_add j :
  ∀ g1 g2 k x, g2 ∈ level j g1 → x ∈ level k g2 → x ∈ level (j + k) g1.
Proof.
  induction j as [ |j IH]; intros g1 g2 k x; cbn [level].
  - by intros ->%list_elem_of_singleton.
  - intros (c & Hg2 & Hc)%list_elem_of_bind Hx. cbn [Nat.add level].
    apply list_elem_of_bind. exists c. split; [by eapply IH | done].
Qed.

Lemma file_nodes_trans data g x : g ∈ file_nodes data → x ∈ subtree g → x ∈ file_nodes data.
Proof.
  unfold file_nodes. intros (page & Hg & Hpage)%list_elem_of_bind Hx.
  apply list_elem_of_bind. exists page. split; [ | done]. by eapply subtree_trans.
Qed.

Lemma vector_group_listed data g :
  g ∈ file_nodes data → is_vector_group g = true →
  ∃ gi, gi ∈ find_groups_with_vectors data ∧ gi_id gi = get_id g ∧
        gi_vector_children gi = _get_vector_children g.
Proof.
  intros Hg Hvg. rewrite <- file_visits_nodes in Hg.
  apply list_elem_of_fmap in Hg as ([g' path] & -> & Hg).
  apply list_elem_of_fmap in Hg as ([[g'' path'] pgs] & [= -> ->] & Hg).
  exists (group_info_of (g'', path', pgs)). split; [ | done].
  rewrite find_groups_with_vectors_spec.
  apply list_elem_of_fmap_2, list_elem_of_filter. done.
Qed.

(** X24. [find_groups_with_vectors] counts a vector once for every GROUP
    around it: when a GROUP lies inside another GROUP of the document, a
    vector inside the inner group that is at most eleven levels below the
    outer one is a vector child of both listed groups.  (The preprocessor
    records such a vector once, under the outer group.) *)
Theorem X24_nested_groups_share_vectors (data : figma_file) (outer inner x : node)
    (j k : nat) :
  outer ∈ file_nodes data →
  get_type outer = "GROUP" → get_type inner = "GROUP" →
  (1 ≤ j)%nat → inner ∈ level j outer →
  (1 ≤ k)%nat → x ∈ level k inner →
  (j + k ≤ 11)%nat →
  is_vector_type (get_type x) = true →
  let vc := VectorChild (n_id x) (default "Vector" (n_name x)) (get_type x)
                        (get_bounds x) in
  ∃ gi_outer gi_inner,
    gi_outer ∈ find_groups_with_vectors data ∧
    gi_inner ∈ find_groups_with_vectors data ∧
    gi_id gi_outer = get_id outer ∧ gi_id gi_inner = get_id inner ∧
    vc ∈ gi_vector_children gi_outer ∧ vc ∈ gi_vector_children gi_inner.
Proof.
  intros Hout Hto Hti Hj Hinner Hk Hx Hjk Hvec. cbv zeta.
  assert (Hxi : x ∈ vector_members inner).
  { apply vector_members_levels. split; [done | ]. exists k. split; [lia | done]. }
  assert (Hxo : x ∈ vector_members outer).
  { apply vector_members_levels. split; [done | ]. exists (j + k).
    split; [lia | by eapply level_add]. }
  assert (Hin : inner ∈ file_nodes data).
  { eapply file_nodes_trans; [exact Hout | by eapply level_subtree]. }
  destruct (vector_group_listed data outer Hout) as (gio & Hgio & Hido & Hvo).
  { apply vector_group_members. split; [done | by exists x]. }
  destruct (vector_group_listed data inner Hin) as (gii & Hgii & Hidi & Hvi).
  { apply vector_group_members. split; [done | by exists x]. }
  exists gio, gii. rewrite Hvo, Hvi, !get_vector_children_spec.
  split_and!; try done.
  - by apply (list_elem_of_fmap_2 vector_child_of).
  - by apply (list_elem_of_fmap_2 vector_child_of).
Qed.

Lemma X24_nested_groups_witness :
  ∃ gi_outer gi_inner,
    gi_outer ∈ find_groups_with_vectors nested_file ∧
    gi_inner ∈ find_groups_with_vectors nested_file ∧
    gi_id gi_outer = "1:1" ∧ gi_id gi_inner = "1:2" ∧
    VectorChild (Some "1:3") "Icon" "VECTOR" None ∈ gi_vector_children gi_outer ∧
    VectorChild (Some "1:3") "Icon" "VECTOR" None ∈ gi_vector_children gi_inner.
Proof.
  apply (X24_nested_groups_share_vectors nested_file outer_1_1 inner_1_2
           vector_1_3 1 1).
  - unfold file_nodes. simpl. right. left.
  - reflexivity.
  - reflexivity.
  - lia.
  - simpl. left.
  - lia.
  - simpl. left.
  - lia.
  - reflexivity.
Defined.

(** * The searches on the scenarios *)


Lemma X11_nested_file_witness :
  "1:1" ∈ gi_id <$> find_groups_with_vectors nested_file.
Proof.
  destruct (X11_vector_groups_found nested_file) as (_ & _ & _ & Hlisted).
  apply (Hlisted outer_1_1 "Page 1" None vector_1_3).
  - unfold file_calls. simpl. right. left.
  - reflexivity.
  - unfold group_scanned. simpl. right. left.
  - reflexivity.
Defined.

Lemma X12_mixed_file_witness :
  iv_id <$> find_individual_vectors mixed_file = ["20:1"] ∧
  ∀ gi vc, gi ∈ find_groups_with_vectors mixed_file →
           vc ∈ gi_vector_children gi → vc_id vc ≠ Some "20:1".
Proof.
  split; [vm_compute; reflexivity | ].
  destruct (X12_individual_vectors_found mixed_file) as (_ & _ & _ & Hdisj).
  intros gi vc.
  apply (Hdisj (IndividualVector "20:1" "Logo" "VECTOR" "Page 1/Logo" None)).
  vm_compute. left.
Defined.

Lemma X19_icon_group_witness :
  let loaded := load_url_mapping without_extension new_replacer
                  (Some [glyph_upload]) in
  let d := fresh_entries (child_based_svg_downloads (analysis icon_file)) in
  ∃ v e,
    (("10:2", v) ∈ d) ∧
    mapping_for (url_mapping loaded.1) "10:2" = Some e ∧
    ("10:2", SvgEntry (se_data v) (Some (upload_of false e))) ∈
      (_update_svg_downloads_section loaded.1 d false).2.
Proof.
  cbv zeta.
  destruct (X19_svg_section_update
              (load_url_mapping without_extension new_replacer
                 (Some [glyph_upload])).1
              (fresh_entries (child_based_svg_downloads (analysis icon_file)))
              false)
    as (_ & _ & _ & _ & _ & _ & _ & Hmarked).
  eexists _, _. split_and!; [ | | eapply Hmarked].
  - simpl. left.
  - reflexivity.
  - simpl. left.
  - reflexivity.
Defined.
